(** * miner-hq: event parsing, session registry, broadcast hub and alert engine

    A shallow embedding of the monitoring pipeline of miner-hq
    (internal/collector, internal/alerts, internal/api, internal/storage)
    and the properties its specification states about it.

    Conventions of the embedding:
    - Go [int], [int64] and [time.Duration] values are [Z]; where the source
      does arithmetic on them the 64-bit wrap-around is written out.
    - Go [float64] is Rocq's primitive binary64 [float]; [a > b] in Go is
      [b <? a] here, and every comparison with NaN is false, as in Go.
    - Go maps are stdpp [gmap]s, [string] is [string].
    - An instant ([time.Time]) is a number of nanoseconds on one clock.  The
      clock is an oracle: the n-th call of [time.Now] returns [clock env n].
    - Logging and the asynchronous webhook POST are recorded in a trace.
    - A statement on a channel completes, makes its goroutine wait, or
      panics ([Go.Step]); a buffered channel is its queue, its capacity and
      whether it was closed. *)

From Stdlib Require Import ZArith Floats Ascii String List Lia Bool.
From stdpp Require Import base tactics option list gmap strings.

Set Default Proof Using "Type".
Local Open Scope Z_scope.

(* ===================================================================== *)
(** * Go runtime: integers, durations, conversions *)
(* ===================================================================== *)

Module Go.

Definition MaxInt64 : Z := 2 ^ 63 - 1.
Definition MinInt64 : Z := - 2 ^ 63.

(** Two's-complement wrap-around of a 64-bit signed result. *)
Definition wrap64 (z : Z) : Z := (z + 2 ^ 63) mod 2 ^ 64 - 2 ^ 63.

Definition Nanosecond : Z := 1.
Definition Second : Z := 1000000000.
Definition Minute : Z := 60 * Second.

Definition maxDuration : Z := MaxInt64.
Definition minDuration : Z := MinInt64.

(** [Time.Sub]: the difference of two instants, saturated to the range of
    a [Duration]. *)
Definition Time_Sub (t u : Z) : Z :=
  if maxDuration <? t - u then maxDuration
  else if t - u <? minDuration then minDuration
  else t - u.

(** [Duration.Round]: nearest multiple of [m], halfway values away from
    zero, saturating. *)
Definition Duration_Round (d m : Z) : Z :=
  if m <=? 0 then d
  else
    let r := Z.rem d m in
    if d <? 0 then
      let r := - r in
      if r + r <? m then d + r
      else let d1 := wrap64 (d - m + r) in
           if d1 <? d then d1 else minDuration
    else
      if r + r <? m then d - r
      else let d1 := wrap64 (d + m - r) in
           if d <? d1 then d1 else maxDuration.

(** [float64(n)] for an integer [n]: the nearest binary64, ties to even. *)
Definition float64_of_int (n : Z) : float :=
  SF2Prim (binary_normalize prec emax n 0 false).

(** The binary64 nearest to the rational [n / d] ([n >= 0], [d > 0]), ties
    to even, overflowing to [+Inf]. *)
Definition float64_of_ratio (n d : Z) : float :=
  let '(q, e, l) := SFdiv_core_binary prec emax n 0 d 0 in
  SF2Prim (binary_round_aux prec emax false q e l).

(** ** Channels and what a statement does to its goroutine *)

(** A buffered channel: the values sent and not yet received, oldest
    first, the capacity it was made with, and whether it was closed. *)
Record chan (A : Type) := mkChan {
  queued : list A;
  capacity : nat;
  closed : bool
}.
Arguments mkChan {A} _ _ _.
Arguments queued {A} _.
Arguments capacity {A} _.
Arguments closed {A} _.

(** [make(chan A, n)] *)
Definition make {A} (n : nat) : chan A := mkChan [] n false.

(** A statement completes, or makes its goroutine wait, or panics. *)
Inductive Step (A : Type) :=
| Proceeds (a : A)
| Blocks
| Panics.
Arguments Proceeds {A} _.
Arguments Blocks {A}.
Arguments Panics {A}.

(** [ch <- v] on a buffered channel: a panic when the channel is closed;
    else the value is queued when the buffer has room, and the sender
    waits when it is full. *)
Definition send {A} (v : A) (ch : chan A) : Step (chan A) :=
  if closed ch then Panics
  else if (length (queued ch) <? capacity ch)%nat
       then Proceeds (mkChan (queued ch ++ [v]) (capacity ch) false)
       else Blocks.

(** [select { case ch <- v: sent  default: otherwise }]: the default case
    is taken exactly when the send would wait. *)
Definition select_send {A B} (v : A) (ch : chan A) (sent : chan A -> B) (otherwise : B)
  : Step B :=
  match send v ch with
  | Proceeds ch' => Proceeds (sent ch')
  | Blocks => Proceeds otherwise
  | Panics => Panics
  end.

End Go.

(* ===================================================================== *)
(** * Go's [regexp] and [strconv], as far as the parsers use them *)
(* ===================================================================== *)

Module regexp.

(** Strings are matched as byte sequences.  The patterns below only name
    ASCII bytes, and [.] accepts every byte but the newline, so the
    matches are those of the rune-wise engine. *)
Inductive CharClass :=
| AnyChar        (* .            every byte except \n *)
| Space          (* \s           [\t\n\f\r ] *)
| Digit          (* \d           [0-9] *)
| DigitOrDot     (* [\d.] *)
| HexDigit.      (* [0-9a-fA-F] *)

Definition is_digit (a : ascii) : bool :=
  let n := N_of_ascii a in ((48 <=? n) && (n <=? 57))%N.

Definition in_class (c : CharClass) (a : ascii) : bool :=
  let n := N_of_ascii a in
  match c with
  | AnyChar => negb (n =? 10)%N
  | Space => ((n =? 9) || (n =? 10) || (n =? 12) || (n =? 13) || (n =? 32))%N
  | Digit => is_digit a
  | DigitOrDot => is_digit a || (n =? 46)%N
  | HexDigit =>
      is_digit a || ((65 <=? n) && (n <=? 70))%N || ((97 <=? n) && (n <=? 102))%N
  end.

(** The pieces the two share patterns and the block pattern are made of. *)
Inductive Item :=
| Lit (l : list ascii)       (* a literal *)
| Star (c : CharClass)       (* c*    greedy *)
| Plus (c : CharClass)       (* c+    greedy *)
| Group (c : CharClass).     (* (c+)  greedy, capturing *)

Definition Regexp := list Item.

Fixpoint strip_prefix (l s : list ascii) : option (list ascii) :=
  match l, s with
  | [], _ => Some s
  | a :: l', b :: s' => if Ascii.eqb a b then strip_prefix l' s' else None
  | _ :: _, [] => None
  end.

(** Length of the longest prefix of [s] made of bytes of class [c]. *)
Fixpoint span (c : CharClass) (s : list ascii) : nat :=
  match s with
  | a :: s' => if in_class c a then S (span c s') else O
  | [] => O
  end.

(** Backtracking over a repetition count: [f n], then [f (n-1)], ... down
    to [f lo]; the first success wins. *)
Fixpoint try_down {A} (f : nat -> option A) (lo n : nat) : option A :=
  if (n <? lo)%nat then None
  else match f n with
       | Some r => Some r
       | None => match n with
                 | O => None
                 | S n' => try_down f lo n'
                 end
       end.

(** Match [re] at the start of [s]: the text left after the match and the
    captured groups, as a backtracking search finds them first. *)
Fixpoint match_here (re : Regexp) (s : list ascii)
  : option (list ascii * list (list ascii)) :=
  match re with
  | [] => Some (s, [])
  | Lit l :: re' =>
      match strip_prefix l s with
      | Some s' => match_here re' s'
      | None => None
      end
  | Star c :: re' => try_down (fun k => match_here re' (drop k s)) 0 (span c s)
  | Plus c :: re' => try_down (fun k => match_here re' (drop k s)) 1 (span c s)
  | Group c :: re' =>
      try_down
        (fun k => match match_here re' (drop k s) with
                  | Some (rest, groups) => Some (rest, take k s :: groups)
                  | None => None
                  end)
        1 (span c s)
  end.

(** The leftmost match: the whole match followed by the groups. *)
Fixpoint find (re : Regexp) (s : list ascii) : option (list (list ascii)) :=
  match match_here re s with
  | Some (rest, groups) => Some (take (length s - length rest) s :: groups)
  | None => match s with
            | [] => None
            | _ :: s' => find re s'
            end
  end.

Definition FindStringSubmatch (re : Regexp) (s : string) : option (list string) :=
  match find re (list_ascii_of_string s) with
  | Some ms => Some (map string_of_list_ascii ms)
  | None => None
  end.

Definition lit (s : string) : Item := Lit (list_ascii_of_string s).

End regexp.

Module strconv.

Definition digit_value (a : ascii) : Z := Z.of_N (N_of_ascii a) - 48.

(** The number a string of decimal digits denotes. *)
Definition decimal (ds : list ascii) : Z :=
  fold_left (fun n a => 10 * n + digit_value a) ds 0.

(** [strconv.Atoi] with its error dropped: 0 on a syntax error, the
    nearest [int] when the number is out of range. *)
Definition Atoi (s : string) : Z :=
  let s := list_ascii_of_string s in
  let '(neg, ds) :=
    match s with
    | a :: r => if Ascii.eqb a "-" then (true, r)
                else if Ascii.eqb a "+" then (false, r) else (false, s)
    | [] => (false, s)
    end in
  match ds with
  | [] => 0
  | _ :: _ =>
      if forallb regexp.is_digit ds then
        let n := decimal ds in
        if neg then (if - n <? Go.MinInt64 then Go.MinInt64 else - n)
        else (if Go.MaxInt64 <? n then Go.MaxInt64 else n)
      else 0
  end.

(** Scanning [digits [. digits]]: the digits read so far as an integer
    and how many of them came after the point; [None] at a second point
    or at any other byte. *)
Fixpoint scan_decimal (s : list ascii) (sawdot : bool) (mant : Z) (frac : Z)
         (sawdigits : bool) : option (Z * Z) :=
  match s with
  | [] => if sawdigits then Some (mant, frac) else None
  | a :: s' =>
      if regexp.is_digit a then
        scan_decimal s' sawdot (10 * mant + digit_value a)
          (if sawdot then frac + 1 else frac) true
      else if Ascii.eqb a "." then
        if sawdot then None else scan_decimal s' true mant frac sawdigits
      else None
  end.

(** [strconv.ParseFloat(s, 64)] with its error dropped, on the strings the
    parsers pass to it (bytes of [[0-9.]] only): the correctly rounded
    binary64 of the decimal, [+Inf] when it is too large, 0 on a syntax
    error.  Signs, exponents, hexadecimal and the special values are not
    modelled; they cannot occur in a capture of [[\d.]+]. *)
Definition ParseFloat (s : string) : float :=
  match scan_decimal (list_ascii_of_string s) false 0 0 false with
  | Some (mant, frac) => Go.float64_of_ratio mant (10 ^ frac)
  | None => 0%float
  end.

End strconv.

(* ===================================================================== *)
(** * internal/storage: the records the pipeline passes around *)
(* ===================================================================== *)

Module storage.

Module MinerSnapshot.
(** The fields of [storage.MinerSnapshot] the alert engine reads; the
    remaining measurement fields are carried through untouched. *)
Record t := mk {
  MinerIP : string;
  Hostname : string;
  HashRate : float;
  Temperature : float;
  FanRPM : Z;
  BestDiffSess : float;
  PoolConnected : bool;
  WifiRSSI : Z
}.
End MinerSnapshot.

Module Share.
Record t := mk {
  ID : Z;
  MinerIP : string;
  Hostname : string;
  Timestamp : Z;
  AsicNum : Z;
  Difficulty : float;
  JobID : string
}.
End Share.

Module Miner.
Record t := mk {
  IP : string;
  Hostname : string;
  Enabled : bool;
  CoinID : string
}.
End Miner.

Module Block.
Record t := mk {
  MinerIP : string;
  Hostname : string;
  Timestamp : Z;
  Difficulty : float;
  NetworkDifficulty : float;
  CoinID : string;
  CoinSymbol : string;
  BlockReward : float;
  CoinPrice : float;
  ValueUSD : float
}.
End Block.

End storage.

(* ===================================================================== *)
(** * internal/alerts: the alert engine *)
(* ===================================================================== *)

Module alerts.
Import storage.

Inductive AlertType :=
| AlertMinerOffline | AlertTempHigh | AlertHashrateDrop | AlertShareRejected
| AlertPoolDisconnected | AlertFanLow | AlertWifiWeak | AlertNewBestDiff
| AlertBlockFound | AlertNewLeader.

(** The string each [AlertType] constant stands for. *)
Definition AlertType_string (t : AlertType) : string :=
  match t with
  | AlertMinerOffline => "miner_offline"
  | AlertTempHigh => "temp_high"
  | AlertHashrateDrop => "hashrate_drop"
  | AlertShareRejected => "share_rejected"
  | AlertPoolDisconnected => "pool_disconnected"
  | AlertFanLow => "fan_low"
  | AlertWifiWeak => "wifi_weak"
  | AlertNewBestDiff => "new_best_diff"
  | AlertBlockFound => "block_found"
  | AlertNewLeader => "new_leader"
  end.

Definition AlertType_eqb (a b : AlertType) : bool :=
  String.eqb (AlertType_string a) (AlertType_string b).

Record AlertConfig := mkAlertConfig {
  WebhookURL : string;
  MinerOfflineSeconds : Z;
  TempAbove : float;
  HashrateDropPercent : float;
  FanRPMBelow : Z;
  WifiSignalBelow : Z;
  OnShareRejected : bool;
  OnPoolDisconnected : bool;
  OnNewBestDiff : bool;
  OnBlockFound : bool;
  OnNewLeader : bool
}.

(** An alert's message: the [fmt.Sprintf] template that builds it, with
    the arguments it is applied to. *)
Inductive Text :=
| TxtTemperature (temp threshold : float)
| TxtHashrateDrop (dropPercent lastHash hashRate : float)
| TxtFanRPM (rpm threshold : Z)
| TxtWifi (rssi threshold : Z)
| TxtPoolDisconnected
| TxtNewBestDiff (diff : float)
| TxtShareRejected (diff : float)
| TxtOffline (rounded : Z)
| TxtBlockFound (coinSymbol : string)
| TxtNewLeader (hostname : string).

(** The value of one embed field. *)
Inductive FieldValue :=
| FvString (s : string)
| FvReward (reward : float) (coinSymbol : string)
| FvUSD (value : float)
| FvDifficulty (diff : float).

Module Alert.
Record t := mk {
  Type_ : AlertType;
  MinerIP : string;
  MinerName : string;
  Message : Text;
  Value : float;
  Timestamp : Z;
  Fields : list (string * FieldValue)
}.
End Alert.

Record AlertEngine := mkAlertEngine {
  config : AlertConfig;
  lastSeen : gmap string Z;
  lastHashrate : gmap string float;
  lastBestDiff : gmap string float;
  alertCooldown : gmap string Z;
  weeklyBestDiff : float;
  weeklyLeader : string;
  weekStart : Z
}.

Definition set_config (c : AlertConfig) (e : AlertEngine) : AlertEngine :=
  mkAlertEngine c (lastSeen e) (lastHashrate e) (lastBestDiff e)
    (alertCooldown e) (weeklyBestDiff e) (weeklyLeader e) (weekStart e).
Definition set_lastSeen (k : string) (v : Z) (e : AlertEngine) : AlertEngine :=
  mkAlertEngine (config e) (<[k := v]> (lastSeen e)) (lastHashrate e)
    (lastBestDiff e) (alertCooldown e) (weeklyBestDiff e) (weeklyLeader e)
    (weekStart e).
Definition set_lastHashrate (k : string) (v : float) (e : AlertEngine) : AlertEngine :=
  mkAlertEngine (config e) (lastSeen e) (<[k := v]> (lastHashrate e))
    (lastBestDiff e) (alertCooldown e) (weeklyBestDiff e) (weeklyLeader e)
    (weekStart e).
Definition set_lastBestDiff (k : string) (v : float) (e : AlertEngine) : AlertEngine :=
  mkAlertEngine (config e) (lastSeen e) (lastHashrate e)
    (<[k := v]> (lastBestDiff e)) (alertCooldown e) (weeklyBestDiff e)
    (weeklyLeader e) (weekStart e).
Definition set_alertCooldown (k : string) (v : Z) (e : AlertEngine) : AlertEngine :=
  mkAlertEngine (config e) (lastSeen e) (lastHashrate e) (lastBestDiff e)
    (<[k := v]> (alertCooldown e)) (weeklyBestDiff e) (weeklyLeader e)
    (weekStart e).
Definition set_weekly (best : float) (leader : string) (e : AlertEngine) : AlertEngine :=
  mkAlertEngine (config e) (lastSeen e) (lastHashrate e) (lastBestDiff e)
    (alertCooldown e) best leader (weekStart e).
Definition set_weekStart (ws : Z) (e : AlertEngine) : AlertEngine :=
  mkAlertEngine (config e) (lastSeen e) (lastHashrate e) (lastBestDiff e)
    (alertCooldown e) (weeklyBestDiff e) (weeklyLeader e) ws.

(** What the engine does to the outside: log lines and webhook POSTs
    ([go e.postWebhook(url, body)], the body being the Discord embed
    [buildDiscordPayload] builds of the alert).  [json.Marshal] of that
    embed (strings, an int and nested maps of strings) returns no error, so
    the branch of [sendAlert] that logs a marshalling error and returns is
    not among the effects.  The line the server logs when it cannot seed
    the engine goes to the same log. *)
Inductive Effect :=
| LogAlert (a : Alert.t)
| LogBlockFound (hostname coinSymbol : string)
| LogNewLeader (hostname previousLeader : string) (diff : float)
| LogLeaderInit (leader : string) (bestDiff : float)
| LogLoadMinersFailed   (* "Failed to load miners for weekly leader init: %v" *)
| PostWebhook (url : string) (a : Alert.t).

(** The alert an effect delivers, if it delivers one. *)
Definition delivered_type (x : Effect) : option AlertType :=
  match x with
  | LogAlert a => Some (Alert.Type_ a)
  | PostWebhook _ a => Some (Alert.Type_ a)
  | LogBlockFound _ _ => Some AlertBlockFound
  | LogNewLeader _ _ _ => Some AlertNewLeader
  | LogLeaderInit _ _ => None
  | LogLoadMinersFailed => None
  end.

Definition delivers (t : AlertType) (x : Effect) : bool :=
  match delivered_type x with
  | Some t' => AlertType_eqb t t'
  | None => false
  end.

(** ** The evaluation monad: engine state, clock reads, trace *)

Record Env := mkEnv {
  clock : nat -> Z;        (* the n-th reading of the system clock *)
  weekStartOf : Z -> Z     (* Sunday midnight on or before an instant *)
}.

Record World := mkWorld {
  engine : AlertEngine;
  ticks : nat;             (* clock readings taken so far *)
  trace : list Effect      (* effects so far, oldest first *)
}.

Definition M (A : Type) : Type := Env -> World -> A * World.

Definition ret {A} (a : A) : M A := fun _ w => (a, w).
Definition bind {A B} (m : M A) (f : A -> M B) : M B :=
  fun env w => let (a, w') := m env w in f a env w'.

#[export] Instance M_ret : MRet M := @ret.
#[export] Instance M_bind : MBind M := fun A B f m => bind m f.

Definition get : M AlertEngine := fun _ w => (engine w, w).
Definition modify (f : AlertEngine -> AlertEngine) : M unit :=
  fun _ w => (tt, mkWorld (f (engine w)) (ticks w) (trace w)).
Definition emit (x : Effect) : M unit :=
  fun _ w => (tt, mkWorld (engine w) (ticks w) (trace w ++ [x])).
Definition when (b : bool) (m : M unit) : M unit :=
  if b then m else mret tt.

Definition time_Now : M Z :=
  fun env w => (clock env (ticks w), mkWorld (engine w) (S (ticks w)) (trace w)).
Definition time_Since (t : Z) : M Z :=
  now ← time_Now; mret (Go.Time_Sub now t).

(** [time.Date(y, m, d - weekday, 0, 0, 0, 0, loc)] of an instant: the
    calendar is part of the environment. *)
Definition sundayMidnight (t : Z) : M Z :=
  fun env w => (weekStartOf env t, w).

Definition currentWeekStart : M Z :=
  now ← time_Now; sundayMidnight now.

Definition run {A} (m : M A) (env : Env) (w : World) : World := snd (m env w).

(** ** The engine's operations *)

(** [NewAlertEngine]; [ws] is the value of [currentWeekStart()]. *)
Definition NewAlertEngine (cfg : AlertConfig) (ws : Z) : AlertEngine :=
  mkAlertEngine cfg ∅ ∅ ∅ ∅ 0%float "" ws.

(** The world right after the engine is created: one clock reading was
    taken, nothing was logged. *)
Definition newWorld (cfg : AlertConfig) (env : Env) : World :=
  mkWorld (NewAlertEngine cfg (weekStartOf env (clock env O))) 1 [].

Definition InitWeeklyLeader (leader : string) (bestDiff : float) : M unit :=
  ws ← currentWeekStart;
  modify (fun e => set_weekStart ws (set_weekly bestDiff leader e)) ;;
  when (negb (String.eqb leader "")) (emit (LogLeaderInit leader bestDiff)).

Definition UpdateConfig (cfg : AlertConfig) : M unit := modify (set_config cfg).

Definition cooldownKey (alert : Alert.t) : string :=
  Alert.MinerIP alert +:+ ":" +:+ AlertType_string (Alert.Type_ alert).

Definition sendAlert (alert : Alert.t) : M unit :=
  e ← get;
  suppressed ←
    match alertCooldown e !! cooldownKey alert with
    | Some lastAlert =>
        d ← time_Since lastAlert; mret (d <? 5 * Go.Minute)
    | None => mret false
    end;
  if (suppressed : bool) then mret tt
  else
    now ← time_Now;
    modify (set_alertCooldown (cooldownKey alert) now) ;;
    if String.eqb (WebhookURL (config e)) "" then emit (LogAlert alert)
    else emit (PostWebhook (WebhookURL (config e)) alert).

(** [CheckSnapshot] runs seven stages in order; each is given a name here,
    after the comment that heads it in the source. *)

(* Update last seen *)
Definition updateLastSeen (snap : MinerSnapshot.t) : M unit :=
  now ← time_Now;
  modify (set_lastSeen (MinerSnapshot.MinerIP snap) now).

(* Check temperature *)
Definition checkTemperature (snap : MinerSnapshot.t) : M unit :=
  e ← get;
  when ((0 <? TempAbove (config e))%float
        && (TempAbove (config e) <? MinerSnapshot.Temperature snap)%float)
    (now ← time_Now;
     sendAlert (Alert.mk AlertTempHigh (MinerSnapshot.MinerIP snap)
       (MinerSnapshot.Hostname snap)
       (TxtTemperature (MinerSnapshot.Temperature snap) (TempAbove (config e)))
       (MinerSnapshot.Temperature snap) now [])).

(* Check hashrate drop *)
Definition checkHashrateDrop (snap : MinerSnapshot.t) : M unit :=
  e ← get;
  match lastHashrate e !! MinerSnapshot.MinerIP snap with
  | Some lastHash =>
      when (0 <? lastHash)%float
        (let dropPercent :=
           ((lastHash - MinerSnapshot.HashRate snap) / lastHash * 100)%float in
         when ((0 <? HashrateDropPercent (config e))%float
               && (HashrateDropPercent (config e) <? dropPercent)%float)
           (now ← time_Now;
            sendAlert (Alert.mk AlertHashrateDrop (MinerSnapshot.MinerIP snap)
              (MinerSnapshot.Hostname snap)
              (TxtHashrateDrop dropPercent lastHash (MinerSnapshot.HashRate snap))
              dropPercent now [])))
  | None => mret tt
  end ;;
  modify (set_lastHashrate (MinerSnapshot.MinerIP snap) (MinerSnapshot.HashRate snap)).

(* Check fan RPM *)
Definition checkFanRPM (snap : MinerSnapshot.t) : M unit :=
  e ← get;
  when ((0 <? FanRPMBelow (config e))
        && (MinerSnapshot.FanRPM snap <? FanRPMBelow (config e))
        && (0 <? MinerSnapshot.FanRPM snap))
    (now ← time_Now;
     sendAlert (Alert.mk AlertFanLow (MinerSnapshot.MinerIP snap)
       (MinerSnapshot.Hostname snap)
       (TxtFanRPM (MinerSnapshot.FanRPM snap) (FanRPMBelow (config e)))
       (Go.float64_of_int (MinerSnapshot.FanRPM snap)) now [])).

(* Check WiFi signal *)
Definition checkWifiSignal (snap : MinerSnapshot.t) : M unit :=
  e ← get;
  when ((WifiSignalBelow (config e) <? 0)
        && (MinerSnapshot.WifiRSSI snap <? WifiSignalBelow (config e)))
    (now ← time_Now;
     sendAlert (Alert.mk AlertWifiWeak (MinerSnapshot.MinerIP snap)
       (MinerSnapshot.Hostname snap)
       (TxtWifi (MinerSnapshot.WifiRSSI snap) (WifiSignalBelow (config e)))
       (Go.float64_of_int (MinerSnapshot.WifiRSSI snap)) now [])).

(* Check pool connection *)
Definition checkPoolConnection (snap : MinerSnapshot.t) : M unit :=
  e ← get;
  when (OnPoolDisconnected (config e) && negb (MinerSnapshot.PoolConnected snap))
    (now ← time_Now;
     sendAlert (Alert.mk AlertPoolDisconnected (MinerSnapshot.MinerIP snap)
       (MinerSnapshot.Hostname snap) TxtPoolDisconnected 0%float now [])).

(* Check new best difficulty *)
Definition checkNewBestDiff (snap : MinerSnapshot.t) : M unit :=
  e ← get;
  when (OnNewBestDiff (config e))
    (match lastBestDiff e !! MinerSnapshot.MinerIP snap with
     | Some lastBest =>
         when (lastBest <? MinerSnapshot.BestDiffSess snap)%float
           (now ← time_Now;
            sendAlert (Alert.mk AlertNewBestDiff (MinerSnapshot.MinerIP snap)
              (MinerSnapshot.Hostname snap)
              (TxtNewBestDiff (MinerSnapshot.BestDiffSess snap))
              (MinerSnapshot.BestDiffSess snap) now []))
     | None => mret tt
     end) ;;
  modify (set_lastBestDiff (MinerSnapshot.MinerIP snap) (MinerSnapshot.BestDiffSess snap)).

Definition CheckSnapshot (snap : MinerSnapshot.t) : M unit :=
  updateLastSeen snap ;;
  checkTemperature snap ;;
  checkHashrateDrop snap ;;
  checkFanRPM snap ;;
  checkWifiSignal snap ;;
  checkPoolConnection snap ;;
  checkNewBestDiff snap.

Definition CheckShare (share : Share.t) (rejected : bool) : M unit :=
  e ← get;
  if negb (OnShareRejected (config e)) || negb rejected then mret tt
  else
    now ← time_Now;
    sendAlert (Alert.mk AlertShareRejected (Share.MinerIP share)
      (Share.Hostname share) (TxtShareRejected (Share.Difficulty share))
      (Share.Difficulty share) now []).

Definition CheckBlock (block : Block.t) : M unit :=
  e ← get;
  let webhookURL := WebhookURL (config e) in
  let enabled := OnBlockFound (config e) in
  if negb enabled then mret tt
  else if String.eqb webhookURL "" then
    emit (LogBlockFound (Block.Hostname block) (Block.CoinSymbol block))
  else
    let valueStr :=
      if (Block.ValueUSD block =? 0)%float then FvString "N/A"
      else FvUSD (Block.ValueUSD block) in
    let alert :=
      Alert.mk AlertBlockFound (Block.MinerIP block) (Block.Hostname block)
        (TxtBlockFound (Block.CoinSymbol block)) 0%float
        (Block.Timestamp block)
        [ ("Miner", FvString (Block.Hostname block));
          ("Coin", FvString (Block.CoinSymbol block));
          ("Reward", FvReward (Block.BlockReward block) (Block.CoinSymbol block));
          ("Value", valueStr);
          ("Difficulty", FvDifficulty (Block.Difficulty block)) ] in
    emit (PostWebhook webhookURL alert).

Definition CheckLeaderChange (share : Share.t) : M unit :=
  e ← get;
  if negb (OnNewLeader (config e)) then mret tt
  else
    (* Reset if the week has changed *)
    ws ← currentWeekStart;
    when (weekStart e <? ws)
      (modify (fun e => set_weekStart ws (set_weekly 0%float "" e))) ;;
    e ← get;
    if (Share.Difficulty share <=? weeklyBestDiff e)%float then mret tt
    else
      let previousLeader := weeklyLeader e in
      modify (set_weekly (Share.Difficulty share) (Share.Hostname share)) ;;
      if String.eqb previousLeader ""
         || String.eqb previousLeader (Share.Hostname share)
      then mret tt
      else if String.eqb (WebhookURL (config e)) "" then
        emit (LogNewLeader (Share.Hostname share) previousLeader
                (Share.Difficulty share))
      else
        let alert :=
          Alert.mk AlertNewLeader (Share.MinerIP share) (Share.Hostname share)
            (TxtNewLeader (Share.Hostname share)) 0%float
            (Share.Timestamp share)
            [ ("New Leader", FvString (Share.Hostname share));
              ("Share Difficulty", FvDifficulty (Share.Difficulty share));
              ("Previous Leader", FvString previousLeader) ] in
        emit (PostWebhook (WebhookURL (config e)) alert).

Definition checkOfflineMiner (threshold : Z) (miner : Miner.t) : M unit :=
  if negb (Miner.Enabled miner) then mret tt
  else
    e ← get;
    match lastSeen e !! Miner.IP miner with
    | None => mret tt
    | Some lastSeen =>
        d ← time_Since lastSeen;
        when (threshold <? d)
          (d' ← time_Since lastSeen;
           now ← time_Now;
           sendAlert (Alert.mk AlertMinerOffline (Miner.IP miner)
             (Miner.Hostname miner)
             (TxtOffline (Go.Duration_Round d' Go.Second)) 0%float now []))
    end.

Fixpoint forEach {A} (l : list A) (body : A -> M unit) : M unit :=
  match l with
  | [] => mret tt
  | x :: l' => body x ;; forEach l' body
  end.

Definition CheckOffline (miners : list Miner.t) : M unit :=
  e ← get;
  if MinerOfflineSeconds (config e) <=? 0 then mret tt
  else
    let threshold := Go.wrap64 (MinerOfflineSeconds (config e) * Go.Second) in
    forEach miners (checkOfflineMiner threshold).

End alerts.

(* ===================================================================== *)
(** * internal/collector: the share parser and the session registry *)
(* ===================================================================== *)

Module collector.
Import storage regexp.

(** [asic_result:.*Job ID:\s*(\d+)\s+AsicNr:\s*(\d+).*diff\s+([\d.]+)] *)
Definition shareRegexNerdQAxe : Regexp :=
  [ lit "asic_result:"; Star AnyChar; lit "Job ID:"; Star Space; Group Digit;
    Plus Space; lit "AsicNr:"; Star Space; Group Digit; Star AnyChar;
    lit "diff"; Plus Space; Group DigitOrDot ].

(** [asic_result:.*ID:\s*([0-9a-fA-F]+),\s*ASIC nr:\s*(\d+).*diff\s+([\d.]+)] *)
Definition shareRegexAxeOS : Regexp :=
  [ lit "asic_result:"; Star AnyChar; lit "ID:"; Star Space; Group HexDigit;
    lit ","; Star Space; lit "ASIC nr:"; Star Space; Group Digit;
    Star AnyChar; lit "diff"; Plus Space; Group DigitOrDot ].

(** [matches[i]]; a regexp with three groups always yields four entries. *)
Definition submatch (matches : list string) (i : nat) : string :=
  nth i matches "".

(** [ShareParser.Parse]; [now] is the reading of [time.Now()]. *)
Definition Parse (now : Z) (minerIP : string) (line : string) : option Share.t :=
  (* Try NerdQAxe format first *)
  match FindStringSubmatch shareRegexNerdQAxe line with
  | Some matches =>
      let jobID := submatch matches 1 in
      let asicNum := strconv.Atoi (submatch matches 2) in
      let difficulty := strconv.ParseFloat (submatch matches 3) in
      Some (Share.mk 0 minerIP "" now asicNum difficulty jobID)
  | None =>
      (* Try AxeOS/Bitaxe format *)
      match FindStringSubmatch shareRegexAxeOS line with
      | Some matches =>
          let jobID := submatch matches 1 in
          let asicNum := strconv.Atoi (submatch matches 2) in
          let difficulty := strconv.ParseFloat (submatch matches 3) in
          Some (Share.mk 0 minerIP "" now asicNum difficulty jobID)
      | None => None
      end
  end.

(** ** The registry of device sessions *)

(** [lastSeen] is [None] for the zero [time.Time], [wsConn] is [None] for
    [nil]; [cancel] names the context the session's loops run under. *)
Record minerConn := mkMinerConn {
  ip : string;
  wsConn : option nat;
  cancel : nat;
  lastSeen : option Z
}.

(** A loop started with [go]. *)
Inductive Goroutine :=
| pollMiner (ctx : nat) (ip : string)
| connectWebSocket (ctx : nat) (ip : string).

Definition goroutine_ctx (g : Goroutine) : nat :=
  match g with pollMiner ctx _ => ctx | connectWebSocket ctx _ => ctx end.
Definition goroutine_ip (g : Goroutine) : string :=
  match g with pollMiner _ ip => ip | connectWebSocket _ ip => ip end.

Record Collector := mkCollector {
  miners : gmap string minerConn;
  nextCtx : nat;               (* contexts created so far *)
  cancelled : gset nat;        (* contexts whose cancel function was called *)
  closedConns : gset nat;      (* connections closed by the registry *)
  goroutines : list Goroutine  (* every loop started so far *)
}.

Definition NewCollector : Collector := mkCollector ∅ 0 ∅ ∅ [].

Definition AddMiner (ip : string) (c : Collector) : Collector :=
  match miners c !! ip with
  | Some _ => c (* Already monitoring *)
  | None =>
      let ctx := nextCtx c in
      let conn := mkMinerConn ip None ctx None in
      mkCollector (<[ip := conn]> (miners c)) (S ctx) (cancelled c)
        (closedConns c)
        (goroutines c ++ [pollMiner ctx ip; connectWebSocket ctx ip])
  end.

Definition RemoveMiner (ip : string) (c : Collector) : Collector :=
  match miners c !! ip with
  | Some conn =>
      mkCollector (delete ip (miners c)) (nextCtx c)
        ({[cancel conn]} ∪ cancelled c)
        (match wsConn conn with
         | Some ws => {[ws]} ∪ closedConns c
         | None => closedConns c
         end)
        (goroutines c)
  | None => c
  end.

(** The registry updates the two loops make under the lock: the last-seen
    stamp after a successful poll ([fetchAndStore]) and the connection
    handle after a successful dial ([connectWebSocket]). *)
Definition updateLastSeen (ip : string) (now : Z) (c : Collector) : Collector :=
  match miners c !! ip with
  | Some conn =>
      mkCollector
        (<[ip := mkMinerConn (collector.ip conn) (wsConn conn) (cancel conn) (Some now)]>
           (miners c))
        (nextCtx c) (cancelled c) (closedConns c) (goroutines c)
  | None => c
  end.

Definition setWsConn (ip : string) (ws : nat) (c : Collector) : Collector :=
  match miners c !! ip with
  | Some conn =>
      mkCollector
        (<[ip := mkMinerConn (collector.ip conn) (Some ws) (cancel conn) (lastSeen conn)]>
           (miners c))
        (nextCtx c) (cancelled c) (closedConns c) (goroutines c)
  | None => c
  end.

(** [GetMinerStatus]: online iff the last successful poll is less than
    30 s old; [now i] is the clock reading taken for the i-th entry. *)
Definition online (lastSeen : option Z) (now : Z) : bool :=
  match lastSeen with
  | Some t => Go.Time_Sub now t <? 30 * Go.Second
  | None => false
  end.

(** What can happen to the registry. *)
Inductive Op :=
| OpAddMiner (ip : string)
| OpRemoveMiner (ip : string)
| OpPolled (ip : string) (now : Z)
| OpDialled (ip : string) (ws : nat).

Definition step (c : Collector) (op : Op) : Collector :=
  match op with
  | OpAddMiner ip => AddMiner ip c
  | OpRemoveMiner ip => RemoveMiner ip c
  | OpPolled ip now => updateLastSeen ip now c
  | OpDialled ip ws => setWsConn ip ws c
  end.

Definition exec (ops : list Op) : Collector := fold_left step ops NewCollector.

(** The loops of [ip] that have not been told to stop. *)
Definition live (c : Collector) (ip : string) : list Goroutine :=
  filter (fun g => goroutine_ip g = ip ∧ goroutine_ctx g ∉ cancelled c)
    (goroutines c).

(** ** The block parser *)

(** [FOUND BLOCK!!!\s+([\d.]+)\s*>\s*([\d.]+)] *)
Definition blockRegex : Regexp :=
  [ lit "FOUND BLOCK!!!"; Plus Space; Group DigitOrDot; Star Space; lit ">";
    Star Space; Group DigitOrDot ].

(** [BlockParser.Parse]; [now] is the reading of [time.Now()].  The fields
    the parser does not set keep their zero values. *)
Definition BlockParser_Parse (now : Z) (minerIP : string) (line : string)
  : option Block.t :=
  match FindStringSubmatch blockRegex line with
  | Some matches =>
      let difficulty := strconv.ParseFloat (submatch matches 1) in
      let networkDiff := strconv.ParseFloat (submatch matches 2) in
      Some (Block.mk minerIP "" now difficulty networkDiff "" "" 0%float 0%float 0%float)
  | None => None
  end.

End collector.

(* ===================================================================== *)
(** * internal/api: the broadcast hub and the start-up seeding *)
(* ===================================================================== *)

Module api.
Import storage alerts.

Inductive Payload :=
| DataShare (s : Share.t)
| DataSnapshot (s : MinerSnapshot.t)
| DataBlock (b : Block.t).

Record Message := mkMessage {
  Type_ : string;  (* "share", "snapshot" or "block" *)
  Data : Payload
}.

Inductive HubLog :=
| LogBufferFull.   (* "WebSocket broadcast buffer full, dropping message" *)

(** The hub: its client set, the buffered [broadcast] channel and the log
    lines written so far. *)
Record WebSocketHub := mkHub {
  clients : gset nat;
  broadcast : Go.chan Message;
  log : list HubLog
}.

Definition broadcastCap : nat := 256.

Definition NewWebSocketHub : WebSocketHub := mkHub ∅ (Go.make broadcastCap) [].

(** [select { case h.broadcast <- msg: default: log.Printf(...) }] *)
Definition Broadcast (msg : Message) (h : WebSocketHub) : Go.Step WebSocketHub :=
  Go.select_send msg (broadcast h)
    (fun ch => mkHub (clients h) ch (log h))
    (mkHub (clients h) (broadcast h) (log h ++ [LogBufferFull])).

(** The registry and the alert engine side by side, as the server holds
    them, and the three events that reach them: a device added
    ([handleAddMiner], once the scan and the upsert went through), a
    device removed ([handleRemoveMiner]), and a successful poll whose
    snapshot [fetchAndStore] stamps on the session and [forwardEvents]
    hands to the engine. *)
Record System := mkSystem {
  sessions : collector.Collector;
  evaluator : World
}.

Definition handleAddMiner (ip : string) (s : System) : System :=
  mkSystem (collector.AddMiner ip (sessions s)) (evaluator s).

Definition handleRemoveMiner (ip : string) (s : System) : System :=
  mkSystem (collector.RemoveMiner ip (sessions s)) (evaluator s).

Definition snapshotPolled (snap : MinerSnapshot.t) (now : Z) (env : Env)
           (s : System) : System :=
  mkSystem (collector.updateLastSeen (MinerSnapshot.MinerIP snap) now (sessions s))
    (run (CheckSnapshot snap) env (evaluator s)).

(** The store, as the seeding reads it: [GetMiners] ([None] on error) and
    [GetBestShareInRange ip start end] ([None] on error or when no share
    lies in the range). *)
Record Store := mkStore {
  GetMiners : option (list Miner.t);
  GetBestShareInRange : string -> Z -> Z -> option Share.t
}.

Definition initWeeklyLeader (store : Store) : M unit :=
  now ← time_Now;
  weekStart ← sundayMidnight now;
  match GetMiners store with
  | None => emit LogLoadMinersFailed
  | Some miners =>
      let '(bestDiff, leader) :=
        fold_left
          (fun '(bestDiff, leader) m =>
             match GetBestShareInRange store (Miner.IP m) weekStart now with
             | None => (bestDiff, leader)
             | Some share =>
                 if (bestDiff <? Share.Difficulty share)%float
                 then (Share.Difficulty share, Share.Hostname share)
                 else (bestDiff, leader)
             end)
          miners (0%float, "") in
      InitWeeklyLeader leader bestDiff
  end.

(** A process start as far as the leader check sees it: a new engine,
    seeded from the store before the first event is forwarded. *)
Definition startup (cfg : AlertConfig) (store : Store) (env : Env) : World :=
  run (initWeeklyLeader store) env (newWorld cfg env).

(** ** Forwarding the collector's events

    [forwardEvents] seeds the weekly leader and then serves the three
    channels of the collector until one of them is closed.  What a
    [select] received is a [Received]; the server is its hub, its alert
    engine ([None] for a nil pointer) and the lines it logged itself. *)
Inductive Received :=
| RecvShare (share : Share.t)
| RecvSnapshot (snapshot : MinerSnapshot.t)
| RecvBlock (block : Block.t)
| RecvClosed.      (* a receive with [ok == false] *)

Inductive ServerLog :=
| LogBroadcastingBlock (hostname : string).

Record Server := mkServer {
  hub : WebSocketHub;
  alertEngine : option World;
  serverLog : list ServerLog
}.

(** [if s.alerts != nil { s.alerts.<check>(...) }] *)
Definition withAlerts (check : M unit) (env : Env) (s : Server) : Server :=
  mkServer (hub s)
    (match alertEngine s with Some w => Some (run check env w) | None => None end)
    (serverLog s).

Definition hubBroadcast (msg : Message) (s : Server) : Go.Step Server :=
  match Broadcast msg (hub s) with
  | Go.Proceeds h => Go.Proceeds (mkServer h (alertEngine s) (serverLog s))
  | Go.Blocks => Go.Blocks
  | Go.Panics => Go.Panics
  end.

Definition logPrintf (line : ServerLog) (s : Server) : Server :=
  mkServer (hub s) (alertEngine s) (serverLog s ++ [line]).

(** How a turn of the loop ends: the loop goes on, or the goroutine is
    over, because a channel was closed or because a broadcast did not
    complete; either way with the server as the turn left it. *)
Inductive Turn :=
| Next (s : Server)
| Over (s : Server).

(** One turn of the loop. *)
Definition forwardEvent (env : Env) (r : Received) (s : Server) : Turn :=
  match r with
  | RecvShare share =>
      match hubBroadcast (mkMessage "share" (DataShare share)) s with
      | Go.Proceeds s1 => Next (withAlerts (CheckLeaderChange share) env s1)
      | _ => Over s
      end
  | RecvSnapshot snapshot =>
      let s1 := withAlerts (CheckSnapshot snapshot) env s in
      match hubBroadcast (mkMessage "snapshot" (DataSnapshot snapshot)) s1 with
      | Go.Proceeds s2 => Next s2
      | _ => Over s1
      end
  | RecvBlock block =>
      let s1 := logPrintf (LogBroadcastingBlock (Block.Hostname block)) s in
      match hubBroadcast (mkMessage "block" (DataBlock block)) s1 with
      | Go.Proceeds s2 => Next (withAlerts (CheckBlock block) env s2)
      | _ => Over s1
      end
  | RecvClosed => Over s
  end.

Fixpoint forwardLoop (env : Env) (rs : list Received) (s : Server) : Server :=
  match rs with
  | [] => s
  | r :: rs' =>
      match forwardEvent env r s with
      | Next s' => forwardLoop env rs' s'
      | Over s' => s'
      end
  end.

(** [forwardEvents], given what the loop receives. *)
Definition forwardEvents (env : Env) (store : Store) (rs : list Received) (s : Server)
  : Server :=
  forwardLoop env rs (withAlerts (initWeeklyLeader store) env s).

End api.

(* ===================================================================== *)
(** * The vocabulary of the properties *)
(* ===================================================================== *)

(** A string as the bytes the matcher reads. *)
Abbreviation bytes := list_ascii_of_string.

Section AlertVocabulary.
Import storage alerts.

Definition is_nan (x : float) : bool := negb (x =? x)%float.

Definition tick (w : World) : World := mkWorld (engine w) (S (ticks w)) (trace w).

Fixpoint has_colon (s : string) : bool :=
  match s with
  | EmptyString => false
  | String a s' => Ascii.eqb a ":" || has_colon s'
  end.

(** How an alert that passed the cooldown leaves the engine. *)
Definition deliver (cfg : AlertConfig) (a : Alert.t) : Effect :=
  if String.eqb (WebhookURL cfg) "" then LogAlert a
  else PostWebhook (WebhookURL cfg) a.

(** The world after [sendAlert] let [a] through, the clock read at [ticks w]. *)
Definition fire (a : Alert.t) (env : Env) (w : World) : World :=
  mkWorld (set_alertCooldown (cooldownKey a) (clock env (ticks w)) (engine w))
    (S (ticks w)) (trace w ++ [deliver (config (engine w)) a]).

(** [calm hit k w w']: between [w] and [w'] the configuration and the
    cooldown entry [k] stayed as they were, the clock only advanced, and
    no effect that [hit] selects was produced. *)
Record calm (hit : Effect -> bool) (k : string) (w w' : World) : Prop := mkCalm {
  calm_config : config (engine w') = config (engine w);
  calm_cooldown : alertCooldown (engine w') !! k = alertCooldown (engine w) !! k;
  calm_ticks : (ticks w <= ticks w')%nat;
  calm_trace : exists new, trace w' = trace w ++ new /\ Forall (fun x => hit x = false) new
}.

(** When [sendAlert a] is calm: the alert is of another pair and not
    selected, or it is of the pair [k] and inside its cooldown window. *)
Definition muted (hit : Effect -> bool) (k : string) (env : Env)
           (a : Alert.t) (w : World) : Prop :=
  (cooldownKey a <> k /\ forall cfg, hit (deliver cfg a) = false)
  \/ (cooldownKey a = k /\ exists last,
        alertCooldown (engine w) !! k = Some last
        /\ forall i, (ticks w <= i)%nat -> clock env i - last < 5 * Go.Minute).

(** Every alert of kind [T] for the snapshot's device is muted. *)
Definition muted_kind (hit : Effect -> bool) (k : string) (env : Env) (w0 : World)
           (snap : MinerSnapshot.t) (T : AlertType) : Prop :=
  forall a w', Alert.Type_ a = T -> Alert.MinerIP a = MinerSnapshot.MinerIP snap ->
               calm hit k w0 w' -> muted hit k env a w'.

(** The cooldown key of a (device, kind) pair. *)
Definition pairKey (ip : string) (T : AlertType) : string :=
  ip +:+ ":" +:+ AlertType_string T.

Definition dropPercent (lastHash hashRate : float) : float :=
  ((lastHash - hashRate) / lastHash * 100)%float.

(** The guard of the hashrate stage: a previous value, positive, and a
    drop above the configured percentage. *)
Definition drop_guard (cfg : AlertConfig) (prev : option float) (hashRate : float) : bool :=
  match prev with
  | Some lastHash =>
      (0 <? lastHash)%float
      && ((0 <? HashrateDropPercent cfg)%float
          && (HashrateDropPercent cfg <? dropPercent lastHash hashRate)%float)
  | None => false
  end.

(** The kinds that go through [sendAlert]. *)
Definition gated (T : AlertType) : bool :=
  match T with
  | AlertBlockFound | AlertNewLeader => false
  | _ => true
  end.

(** The checks that produce gated alerts. *)
Inductive Check :=
| OnSnapshot (snap : MinerSnapshot.t)
| OnShare (share : Share.t) (rejected : bool)
| OnSweep (miners : list Miner.t).

Definition perform (c : Check) : M unit :=
  match c with
  | OnSnapshot snap => CheckSnapshot snap
  | OnShare share rejected => CheckShare share rejected
  | OnSweep miners => CheckOffline miners
  end.

(** An effect that delivers an alert of kind [T] for device [ip]. *)
Definition delivers_to (T : AlertType) (ip : string) (x : Effect) : bool :=
  match x with
  | LogAlert a | PostWebhook _ a =>
      AlertType_eqb T (Alert.Type_ a) && String.eqb ip (Alert.MinerIP a)
  | _ => false
  end.

(** The same world with another cooldown map. *)
Definition with_cooldown (cd : gmap string Z) (w : World) : World :=
  mkWorld (mkAlertEngine (config (engine w)) (lastSeen (engine w))
             (lastHashrate (engine w)) (lastBestDiff (engine w)) cd
             (weeklyBestDiff (engine w)) (weeklyLeader (engine w))
             (weekStart (engine w)))
    (ticks w) (trace w).

(** The alert an effect carries, when it was built by [sendAlert]'s callers. *)
Definition alert_of (x : Effect) : option Alert.t :=
  match x with
  | LogAlert a | PostWebhook _ a => Some a
  | _ => None
  end.

(** What justifies one offline alert: an enabled device of the list, a
    recorded last-seen stamp, and a clock reading more than [threshold]
    after it. *)
Definition offline_justified (env : Env) (w0 : World) (miners : list Miner.t)
           (threshold : Z) (x : Effect) : Prop :=
  exists a m seen i,
    alert_of x = Some a
    /\ Alert.Type_ a = AlertMinerOffline
    /\ Alert.MinerIP a = Miner.IP m
    /\ In m miners
    /\ Miner.Enabled m = true
    /\ lastSeen (engine w0) !! Miner.IP m = Some seen
    /\ (ticks w0 <= i)%nat
    /\ threshold < clock env i - seen.

(** The invariant of the sweep. *)
Record sweeping (env : Env) (miners : list Miner.t) (threshold : Z)
       (w0 w : World) : Prop := mkSweeping {
  sw_lastSeen : lastSeen (engine w) = lastSeen (engine w0);
  sw_ticks : (ticks w0 <= ticks w)%nat;
  sw_trace : exists new, trace w = trace w0 ++ new
                         /\ Forall (offline_justified env w0 miners threshold) new
}.

(** The leader state the check compares against: the recorded one, or the
    empty one when the clock has entered a later week. *)
Definition rolled (env : Env) (w : World) : bool :=
  weekStart (engine w) <? weekStartOf env (clock env (ticks w)).
Definition week_best (env : Env) (w : World) : float :=
  if rolled env w then 0%float else weeklyBestDiff (engine w).
Definition week_leader (env : Env) (w : World) : string :=
  if rolled env w then "" else weeklyLeader (engine w).

(** How a leader change leaves the engine. *)
Definition announce (cfg : AlertConfig) (share : Share.t) (previousLeader : string)
  : Effect :=
  if String.eqb (WebhookURL cfg) "" then
    LogNewLeader (Share.Hostname share) previousLeader (Share.Difficulty share)
  else
    PostWebhook (WebhookURL cfg)
      (Alert.mk AlertNewLeader (Share.MinerIP share) (Share.Hostname share)
         (TxtNewLeader (Share.Hostname share)) 0%float (Share.Timestamp share)
         [ ("New Leader", FvString (Share.Hostname share));
           ("Share Difficulty", FvDifficulty (Share.Difficulty share));
           ("Previous Leader", FvString previousLeader) ]).

(** What the seeding can leave as leader state: nothing, or the host and
    difficulty of a stored best share of the week. *)
Definition seeded (store : api.Store) (ws now : Z) (bl : float * string) : Prop :=
  (bl = (0%float, ""))
  \/ exists miners m s,
       api.GetMiners store = Some miners
       /\ In m miners
       /\ api.GetBestShareInRange store (Miner.IP m) ws now = Some s
       /\ bl = (Share.Difficulty s, Share.Hostname s)
       /\ is_nan (Share.Difficulty s) = false.

(** ** Sample data *)

(** A clock that ticks once a second, in a week that began at instant 0. *)
Definition ex_env : Env := mkEnv (fun n => Z.of_nat n * Go.Second) (fun _ => 0).

(** No webhook, offline after 300 s, hashrate drop above 20 %, fan floor
    1000 RPM, block and leader alerts on. *)
Definition ex_cfg : AlertConfig :=
  mkAlertConfig "" 300 0%float 20%float 1000 0 false false false true true.

Definition ex_world : World := newWorld ex_cfg ex_env.

Definition ex_snap (hashRate : float) (fanRPM : Z) : MinerSnapshot.t :=
  MinerSnapshot.mk "192.168.1.42" "BitAxe-Ultra" hashRate 55%float fanRPM 0%float true (-60).

Definition ex_miner : Miner.t := Miner.mk "192.168.1.42" "BitAxe-Ultra" true "".

(** The store holds one share of this week: Ultra's, of difficulty 100. *)
Definition ex_store : api.Store :=
  api.mkStore (Some [ex_miner])
    (fun ip _ _ =>
       if String.eqb ip "192.168.1.42"
       then Some (Share.mk 1 "192.168.1.42" "BitAxe-Ultra" 0 0 100%float "18")
       else None).

(** A store with two shares of this week: Ultra's of difficulty 100 and
    Gamma's of difficulty 500. *)
Definition ex_store_two : api.Store :=
  api.mkStore
    (Some [ex_miner; Miner.mk "192.168.1.44" "BitAxe-Gamma" true ""])
    (fun ip _ _ =>
       if String.eqb ip "192.168.1.42"
       then Some (Share.mk 1 "192.168.1.42" "BitAxe-Ultra" 0 0 100%float "18")
       else if String.eqb ip "192.168.1.44"
       then Some (Share.mk 2 "192.168.1.44" "BitAxe-Gamma" 0 0 500%float "19")
       else None).

(** The first share after the restart: Supra's, of difficulty 200. *)
Definition ex_share : Share.t :=
  Share.mk 0 "192.168.1.43" "BitAxe-Supra" 0 0 200%float "2a".

Definition ex_alert : Alert.t :=
  Alert.mk AlertTempHigh "192.168.1.42" "BitAxe-Ultra"
    (TxtTemperature 72.5%float 65%float) 72.5%float 0 [].

(** A threshold of 9223372037 s, which no [time.Duration] holds, and an
    engine that saw Ultra at instant 0, one second ago. *)
Definition ex_cfg_huge : AlertConfig :=
  mkAlertConfig "" 9223372037 0%float 20%float 1000 0 false false false true true.

Definition ex_fresh : World :=
  mkWorld (set_lastSeen "192.168.1.42" 0 (engine (newWorld ex_cfg_huge ex_env))) 1 [].

(** The engine one second after a high-temperature alert for Ultra. *)
Definition ex_cooling : World :=
  mkWorld (set_alertCooldown (pairKey "192.168.1.42" AlertTempHigh) 0 (engine ex_world)) 1 [].

End AlertVocabulary.

Section RegistryVocabulary.
Import collector.

(** The two loops of a session. *)
Definition session_loops (ctx : nat) (ip : string) : list Goroutine :=
  [pollMiner ctx ip; connectWebSocket ctx ip].

(** The state [AddMiner] gives a device it was not monitoring. *)
Definition fresh_session (ip : string) (ctx : nat) : minerConn :=
  mkMinerConn ip None ctx None.

(** The invariant of the registry: contexts are handed out in order and
    never shared, and the loops still running for an address are exactly
    the two of its entry in the map, if it has one. *)
Record registry_ok (c : Collector) : Prop := mkRegistryOk {
  ok_ctx_bound : forall ip conn, miners c !! ip = Some conn -> (cancel conn < nextCtx c)%nat;
  ok_cancelled_bound : forall x, x ∈ cancelled c -> (x < nextCtx c)%nat;
  ok_ctx_unique : forall ip ip' conn conn',
      miners c !! ip = Some conn -> miners c !! ip' = Some conn' ->
      cancel conn = cancel conn' -> ip = ip';
  ok_live : forall ip,
      live c ip = match miners c !! ip with
                  | Some conn => session_loops (cancel conn) ip
                  | None => []
                  end
}.

(** ** Sample data: a round trip

    The system at start; after a first addition of Ultra; and after Ultra
    was added, polled once at 580 GH/s, removed and added again. *)
Definition ex_system : api.System := api.mkSystem NewCollector ex_world.

Definition ex_first_add : api.System := api.handleAddMiner "192.168.1.42" ex_system.

Definition ex_round_trip : api.System :=
  api.handleAddMiner "192.168.1.42"
    (api.handleRemoveMiner "192.168.1.42"
       (api.snapshotPolled (ex_snap 580%float 3000) Go.Second ex_env ex_first_add)).

End RegistryVocabulary.

Section HubVocabulary.

(** Events published one after the other, nobody receiving in between. *)
Fixpoint publish (msgs : list api.Message) (h : api.WebSocketHub)
  : Go.Step api.WebSocketHub :=
  match msgs with
  | [] => Go.Proceeds h
  | msg :: msgs' =>
      match api.Broadcast msg h with
      | Go.Proceeds h' => publish msgs' h'
      | Go.Blocks => Go.Blocks
      | Go.Panics => Go.Panics
      end
  end.

(** The room left in a channel's buffer. *)
Definition room {A} (ch : Go.chan A) : nat := Go.capacity ch - length (Go.queued ch).

(** The server a turn of the forwarding loop leaves. *)
Definition turn_server (t : api.Turn) : api.Server :=
  match t with api.Next s | api.Over s => s end.

Definition ex_message : api.Message := api.mkMessage "share" (api.DataShare ex_share).

End HubVocabulary.

Section ParserVocabulary.
Import storage regexp collector.

(** Position of the first occurrence of [l] in [s], as [strings.Index]. *)
Fixpoint index (l s : list ascii) : option nat :=
  match strip_prefix l s with
  | Some _ => Some O
  | None => match s with
            | [] => None
            | _ :: s' => option_map S (index l s')
            end
  end.

(** All bytes of [s] are of class [c]. *)
Definition all_in (c : CharClass) (s : list ascii) : bool := forallb (in_class c) s.

(** [s] is empty or starts with a byte that is not of class [c]. *)
Definition stops (c : CharClass) (s : list ascii) : bool :=
  match s with
  | [] => true
  | a :: _ => negb (in_class c a)
  end.

Definition none_is (ch : ascii) (s : list ascii) : bool :=
  forallb (fun x => negb (Ascii.eqb x ch)) s.

Definition diff_part : Regexp :=
  [Star AnyChar; lit "diff"; Plus Space; Group DigitOrDot].

Definition nonempty (s : list ascii) : bool :=
  match s with [] => false | _ :: _ => true end.

Definition absent (l s : list ascii) : bool :=
  match index l s with None => true | Some _ => false end.

Definition first_at (l s : list ascii) (n : nat) : bool :=
  match index l s with Some m => (m =? n)%nat | None => false end.

(** The place of a byte in a string, counted from 0. *)
Fixpoint place (a : ascii) (s : list ascii) : option Z :=
  match s with
  | [] => None
  | b :: s' => if Ascii.eqb a b then Some 0 else option_map Z.succ (place a s')
  end.

(** The digit a byte writes: its place among the ten digits. *)
Definition digit_of (a : ascii) : option Z := place a (bytes "0123456789").

(** The number a string of digits writes, the last digit given first: it
    counts units, the next one tens, and so on. *)
Fixpoint written_rev (ds : list ascii) : Z :=
  match ds with
  | [] => 0
  | a :: ds' => default 0 (digit_of a) + 10 * written_rev ds'
  end.

Definition written (ds : list ascii) : Z := written_rev (rev ds).

(** What stands before the first point of [s], and what stands after it. *)
Fixpoint before_point (s : list ascii) : list ascii :=
  match s with
  | [] => []
  | a :: s' => if Ascii.eqb a "." then [] else a :: before_point s'
  end.

Fixpoint after_point (s : list ascii) : list ascii :=
  match s with
  | [] => []
  | a :: s' => if Ascii.eqb a "." then s' else after_point s'
  end.

(** [s] writes a decimal number: digits, at most one point among them, at
    least one digit. *)
Definition is_decimal (s : list ascii) : bool :=
  all_in Digit (before_point s) && all_in Digit (after_point s)
  && nonempty (before_point s ++ after_point s).

(** The number a decimal writes is [decimal_num s / decimal_den s]: its
    digits read as one number, over 10 to the number of digits after the
    point. *)
Definition decimal_num (s : list ascii) : Z := written (before_point s ++ after_point s).
Definition decimal_den (s : list ascii) : Z := 10 ^ Z.of_nat (length (after_point s)).

(** [N / D] lies in [[m, m + 1)], [m] the mantissa of the record, and the
    round and sticky bits say where: at [m], below the middle, at the
    middle or above it. *)
Definition located (mrs : shr_record) (N D : Z) : Prop :=
  0 < D /\ 0 <= shr_m mrs
  /\ 0 <= 2 * N - 2 * (shr_m mrs * D) < 2 * D
  /\ shr_r mrs = (D <=? 2 * N - 2 * (shr_m mrs * D))
  /\ shr_s mrs = negb (2 * N - 2 * (shr_m mrs * D) =? 0)
                 && negb (2 * N - 2 * (shr_m mrs * D) =? D).


(** [x] is a binary64 within half a unit in the last place of [n / d]: a
    number [m * 2^e] with [|n / d - m * 2^e| <= 2^e / 2]; zero only up to
    half the smallest number above zero; infinite only from the largest
    number plus half a unit on. *)
Definition within_half_ulp (n d : Z) (x : spec_float) : bool :=
  match x with
  | S754_zero false => 2 * (n * 2 ^ 1074) <=? d
  | S754_finite false m e =>
      bounded prec emax m e
      && (if 0 <=? e
          then Z.abs (2 * n - 2 * (Zpos m * 2 ^ e * d)) <=? 2 ^ e * d
          else Z.abs (2 * (n * 2 ^ (- e)) - 2 * (Zpos m * d)) <=? d)
  | S754_infinity false => (2 ^ 1024 - 2 ^ 970) * d <=? n
  | _ => false
  end.


(** A NerdQAxe share line, cut at its fields:
    [prefix asic_result: gap Job ID: sp1 job sp2 AsicNr: sp3 asic middle diff sp4 diff tail]. *)
Record NerdQAxeLine := mkNerdQAxeLine {
  nq_prefix : string; nq_gap : string; nq_sp1 : string; nq_job : string;
  nq_sp2 : string; nq_sp3 : string; nq_asic : string; nq_middle : string;
  nq_sp4 : string; nq_diff : string; nq_tail : string
}.

Definition nq_after_job (l : NerdQAxeLine) : string :=
  nq_sp1 l +:+ nq_job l +:+ nq_sp2 l +:+ "AsicNr:" +:+ nq_sp3 l +:+ nq_asic l
    +:+ nq_middle l +:+ "diff" +:+ nq_sp4 l +:+ nq_diff l +:+ nq_tail l.

Definition nq_text (l : NerdQAxeLine) : string :=
  nq_prefix l +:+ "asic_result:" +:+ nq_gap l +:+ "Job ID:" +:+ nq_after_job l.

(** The tag first occurs after the prefix; the job id is a decimal
    counter, the ASIC index a decimal number that fits an [int], the
    difficulty a decimal with at most one point; the separating blanks
    are blanks; neither label comes a second time; no line break before
    the difficulty. *)
Definition nq_wf (l : NerdQAxeLine) : bool :=
  first_at (bytes "asic_result:") (bytes (nq_text l)) (length (bytes (nq_prefix l)))
  && all_in AnyChar (bytes (nq_gap l))
  && absent (bytes "Job ID:") (bytes (nq_after_job l))
  && all_in Space (bytes (nq_sp1 l))
  && nonempty (bytes (nq_job l)) && all_in Digit (bytes (nq_job l))
  && nonempty (bytes (nq_sp2 l)) && all_in Space (bytes (nq_sp2 l))
  && all_in Space (bytes (nq_sp3 l))
  && nonempty (bytes (nq_asic l)) && all_in Digit (bytes (nq_asic l))
  && (written (bytes (nq_asic l)) <=? Go.MaxInt64)
  && stops Digit (bytes (nq_middle l)) && all_in AnyChar (bytes (nq_middle l))
  && nonempty (bytes (nq_sp4 l)) && all_in Space (bytes (nq_sp4 l))
  && nonempty (bytes (nq_diff l)) && all_in DigitOrDot (bytes (nq_diff l))
  && is_decimal (bytes (nq_diff l))
  && stops DigitOrDot (bytes (nq_tail l))
  && absent (bytes "diff") (bytes (nq_tail l)).

(** An AxeOS share line:
    [prefix asic_result: gap ID: sp1 job , sp2 ASIC nr: sp3 asic middle diff sp4 diff tail]. *)
Record AxeOSLine := mkAxeOSLine {
  ax_prefix : string; ax_gap : string; ax_sp1 : string; ax_job : string;
  ax_sp2 : string; ax_sp3 : string; ax_asic : string; ax_middle : string;
  ax_sp4 : string; ax_diff : string; ax_tail : string
}.

Definition ax_after_id (l : AxeOSLine) : string :=
  ax_sp1 l +:+ ax_job l +:+ "," +:+ ax_sp2 l +:+ "ASIC nr:" +:+ ax_sp3 l +:+ ax_asic l
    +:+ ax_middle l +:+ "diff" +:+ ax_sp4 l +:+ ax_diff l +:+ ax_tail l.

Definition ax_text (l : AxeOSLine) : string :=
  ax_prefix l +:+ "asic_result:" +:+ ax_gap l +:+ "ID:" +:+ ax_after_id l.

(** As for NerdQAxe, the job id being a hexadecimal token; and the line
    carries no [Job ID:] label. *)
Definition ax_wf (l : AxeOSLine) : bool :=
  first_at (bytes "asic_result:") (bytes (ax_text l)) (length (bytes (ax_prefix l)))
  && absent (bytes "Job ID:") (bytes (ax_text l))
  && all_in AnyChar (bytes (ax_gap l))
  && absent (bytes "ID:") (bytes (ax_after_id l))
  && all_in Space (bytes (ax_sp1 l))
  && nonempty (bytes (ax_job l)) && all_in HexDigit (bytes (ax_job l))
  && all_in Space (bytes (ax_sp2 l))
  && all_in Space (bytes (ax_sp3 l))
  && nonempty (bytes (ax_asic l)) && all_in Digit (bytes (ax_asic l))
  && (written (bytes (ax_asic l)) <=? Go.MaxInt64)
  && stops Digit (bytes (ax_middle l)) && all_in AnyChar (bytes (ax_middle l))
  && nonempty (bytes (ax_sp4 l)) && all_in Space (bytes (ax_sp4 l))
  && nonempty (bytes (ax_diff l)) && all_in DigitOrDot (bytes (ax_diff l))
  && is_decimal (bytes (ax_diff l))
  && stops DigitOrDot (bytes (ax_tail l))
  && absent (bytes "diff") (bytes (ax_tail l)).

(** The literals of a pattern, in order. *)
Fixpoint literals (re : Regexp) : list (list ascii) :=
  match re with
  | [] => []
  | Lit l :: re' => l :: literals re'
  | _ :: re' => literals re'
  end.

(** The share [Parse] builds from a match. *)
Definition share_of (now : Z) (minerIP : string) (matches : list string) : Share.t :=
  Share.mk 0 minerIP "" now (strconv.Atoi (submatch matches 2))
    (strconv.ParseFloat (submatch matches 3)) (submatch matches 1).

(** At the start of [s]: the label, then all the blanks there are (at
    least [blanks] of them), then a byte of class [c]. *)
Definition field_here (l : list ascii) (blanks : nat) (c : CharClass)
           (s : list ascii) : bool :=
  match strip_prefix l s with
  | Some s' =>
      (blanks <=? span Space s')%nat && (0 <? span c (drop (span Space s') s'))%nat
  | None => false
  end.

(** Somewhere in [s]. *)
Fixpoint has_field (l : list ascii) (blanks : nat) (c : CharClass)
         (s : list ascii) : bool :=
  field_here l blanks c s
  || match s with
     | [] => false
     | _ :: s' => has_field l blanks c s'
     end.

(** What a pattern demands right after a value: nothing in particular, a
    blank ([\s+]), or a comma. *)
Inductive Follow := AnyFollow | BlankFollows | CommaFollows.

Definition follows (f : Follow) (s : list ascii) : bool :=
  match f, s with
  | AnyFollow, _ => true
  | BlankFollows, a :: _ => in_class Space a
  | CommaFollows, a :: _ => Ascii.eqb "," a
  | _, [] => false
  end.

Definition next_item (f : Follow) : Regexp :=
  match f with
  | AnyFollow => []
  | BlankFollows => [Plus Space]
  | CommaFollows => [lit ","]
  end.

(** At the start of [s]: the label, then all the blanks there are (at
    least [blanks] of them), then the value, which is all the bytes of
    class [c] there are (at least one), then what [f] demands. *)
Definition token_here (l : list ascii) (blanks : nat) (c : CharClass) (f : Follow)
           (s : list ascii) : bool :=
  match strip_prefix l s with
  | Some s' =>
      let v := drop (span Space s') s' in
      (blanks <=? span Space s')%nat && (0 <? span c v)%nat
      && follows f (drop (span c v) v)
  | None => false
  end.

(** Somewhere in [s]. *)
Fixpoint has_token (l : list ascii) (blanks : nat) (c : CharClass) (f : Follow)
         (s : list ascii) : bool :=
  token_here l blanks c f s
  || match s with
     | [] => false
     | _ :: s' => has_token l blanks c f s'
     end.

(** A line lacks a field of the NerdQAxe form: the job id ([Job ID:], a
    decimal counter, a blank), the ASIC index ([AsicNr:], a digit) or the
    difficulty ([diff], a blank, a digit or point). *)
Definition nerdqaxe_lacks (s : list ascii) : bool :=
  negb (has_token (bytes "Job ID:") 0 Digit BlankFollows s)
  || negb (has_field (bytes "AsicNr:") 0 Digit s)
  || negb (has_field (bytes "diff") 1 DigitOrDot s).

(** A line lacks a field of the AxeOS form: the job id ([ID:], a
    hexadecimal token, a comma), the ASIC index ([ASIC nr:], a digit) or
    the difficulty. *)
Definition axeos_lacks (s : list ascii) : bool :=
  negb (has_token (bytes "ID:") 0 HexDigit CommaFollows s)
  || negb (has_field (bytes "ASIC nr:") 0 Digit s)
  || negb (has_field (bytes "diff") 1 DigitOrDot s).

(** The repetition of blanks before a value: [\s*] or [\s+]. *)
Definition Blanks (blanks : nat) : Item :=
  match blanks with O => Star Space | S _ => Plus Space end.

Fixpoint groups (re : Regexp) : nat :=
  match re with
  | [] => O
  | Group _ :: re' => S (groups re')
  | _ :: re' => groups re'
  end.

Definition nerdqaxe_until_job : Regexp := [lit "asic_result:"; Star AnyChar].
Definition nerdqaxe_until_asic : Regexp :=
  [lit "asic_result:"; Star AnyChar; lit "Job ID:"; Star Space; Group Digit; Plus Space].
Definition axeos_until_asic : Regexp :=
  [lit "asic_result:"; Star AnyChar; lit "ID:"; Star Space; Group HexDigit; lit ",";
   Star Space].
Definition nerdqaxe_until_diff : Regexp :=
  nerdqaxe_until_asic ++ [lit "AsicNr:"; Star Space; Group Digit; Star AnyChar].
Definition axeos_until_diff : Regexp :=
  axeos_until_asic ++ [lit "ASIC nr:"; Star Space; Group Digit; Star AnyChar].

(** ** Sample data: the lines of the parser's tests *)

(** [I (858876424) asic_result: (Pri) Job ID: 18 AsicNr: 3 Ver: 23B82202
    Nonce F854197E; Extranonce2 001c0041 diff 5894.3/18304/3.70G] *)
Definition ex_nerdqaxe : NerdQAxeLine :=
  mkNerdQAxeLine "I (858876424) " " (Pri) " " " "18" " " " " "3"
    " Ver: 23B82202 Nonce F854197E; Extranonce2 001c0041 " " " "5894.3" "/18304/3.70G".

(** [I (16860088) asic_result: ID: 69868e2b00000b0b, ASIC nr: 0, ver:
    24564000 Nonce C27001F0 diff 432.8 of 2048.] *)
Definition ex_axeos : AxeOSLine :=
  mkAxeOSLine "I (16860088) " " " " " "69868e2b00000b0b" " " " " "0"
    ", ver: 24564000 Nonce C27001F0 " " " "432.8" " of 2048.".

(** A line with the tag and no job id. *)
Definition ex_no_job_id : string := "I (12345) asic_result: AsicNr: 3 diff 1000.0".

(** A line with a label and no job id. *)
Definition ex_empty_job_id : string := "asic_result: Job ID: AsicNr: 3 diff 5".

(** A line whose difficulty is a point and no digit. *)
Definition ex_point_difficulty : string := "asic_result: Job ID: 18 AsicNr: 3 diff .".

(** A line both patterns match, with different fields. *)
Definition ex_both : string :=
  "asic_result: ID: ab, ASIC nr: 1 Job ID: 7 AsicNr: 2 diff 5".

End ParserVocabulary.


Section SnapshotVocabulary.
Import storage alerts.

(** The pair behind the key [k] is out of its cooldown window at every
    clock reading from [w] on, or was never stamped. *)
Definition cooled (env : Env) (w : World) (k : string) : Prop :=
  forall last, alertCooldown (engine w) !! k = Some last ->
    forall i, (ticks w <= i)%nat -> 5 * Go.Minute <= clock env i - last.

(** The kinds [CheckSnapshot] can raise, in the order of its stages. *)
Definition snapshot_kinds : list AlertType :=
  [AlertTempHigh; AlertHashrateDrop; AlertFanLow; AlertWifiWeak;
   AlertPoolDisconnected; AlertNewBestDiff].

(** An effect that carries an alert for the device of [snap]. *)
Definition about (snap : MinerSnapshot.t) (x : Effect) : Prop :=
  exists a, alert_of x = Some a
            /\ Alert.MinerIP a = MinerSnapshot.MinerIP snap
            /\ Alert.MinerName a = MinerSnapshot.Hostname snap.

(** ** Sample data: every check switched on

    No webhook; high temperature above 65 degrees, weak signal below -70 dBm;
    Ultra reports 72.5 degrees, -78 dBm and no pool, after a first snapshot
    with a session best of 1000. *)
Definition ex_alerting : AlertConfig :=
  mkAlertConfig "" 300 65%float 20%float 1000 (-70) true true true true true.

Definition ex_quiet : MinerSnapshot.t :=
  MinerSnapshot.mk "192.168.1.42" "BitAxe-Ultra" 580%float 55%float 3000 1000%float true (-60).

Definition ex_hot : MinerSnapshot.t :=
  MinerSnapshot.mk "192.168.1.42" "BitAxe-Ultra" 580%float 72.5%float 3000 2000%float
    false (-78).

Definition ex_seen : World := run (CheckSnapshot ex_quiet) ex_env (newWorld ex_alerting ex_env).

(** A clock that advances 1000 s between readings, and an engine that saw
    Ultra at instant 0. *)
Definition ex_slow_clock : Env := mkEnv (fun n => Z.of_nat n * (1000 * Go.Second)) (fun _ => 0).

Definition ex_stale : World :=
  mkWorld (set_lastSeen "192.168.1.42" 0 (engine ex_world)) 1 [].

End SnapshotVocabulary.

Section BlockLineVocabulary.
Import storage regexp collector.

(** A block line, cut at its fields:
    [prefix FOUND BLOCK!!! sp1 diff sp2 > sp3 net tail]. *)
Record BlockLine := mkBlockLine {
  bl_prefix : string; bl_sp1 : string; bl_diff : string; bl_sp2 : string;
  bl_sp3 : string; bl_net : string; bl_tail : string
}.

Definition bl_text (l : BlockLine) : string :=
  bl_prefix l +:+ "FOUND BLOCK!!!" +:+ bl_sp1 l +:+ bl_diff l +:+ bl_sp2 l +:+ ">"
    +:+ bl_sp3 l +:+ bl_net l +:+ bl_tail l.

(** The tag first occurs after the prefix; at least one blank follows it;
    both difficulties are decimals with at most one point; the blanks
    around [>] are blanks; what follows the network difficulty does not
    continue it. *)
Definition bl_wf (l : BlockLine) : bool :=
  first_at (bytes "FOUND BLOCK!!!") (bytes (bl_text l)) (length (bytes (bl_prefix l)))
  && nonempty (bytes (bl_sp1 l)) && all_in Space (bytes (bl_sp1 l))
  && nonempty (bytes (bl_diff l)) && all_in DigitOrDot (bytes (bl_diff l))
  && is_decimal (bytes (bl_diff l))
  && all_in Space (bytes (bl_sp2 l))
  && all_in Space (bytes (bl_sp3 l))
  && nonempty (bytes (bl_net l)) && all_in DigitOrDot (bytes (bl_net l))
  && is_decimal (bytes (bl_net l))
  && stops DigitOrDot (bytes (bl_tail l)).

(** The line of the parser's test. *)
Definition ex_block_line : BlockLine :=
  mkBlockLine "I (12345) STRATUM_MANAGER: " " " "123456789.0" " " " " "123000.0" "".

End BlockLineVocabulary.

Section ParsedValueVocabulary.
Import regexp.

(** A binary64 value that is zero, positive or plus infinity. *)
Definition nonneg_sf (x : spec_float) : bool :=
  match x with
  | S754_zero false | S754_infinity false | S754_finite false _ _ => true
  | _ => false
  end.

(** The classes of the capturing groups of a pattern, in order. *)
Fixpoint group_classes (re : Regexp) : list CharClass :=
  match re with
  | [] => []
  | Group c :: re' => c :: group_classes re'
  | _ :: re' => group_classes re'
  end.

(** A captured group: not empty, and of its class throughout. *)
Definition captured (c : CharClass) (g : list ascii) : Prop :=
  g <> [] /\ all_in c g = true.

End ParsedValueVocabulary.

(* ===================================================================== *)
(** * Lemmas and theorems *)
(* ===================================================================== *)

Ltac by_cases_on_byte x :=
  destruct x as [[] [] [] [] [] [] [] []]; vm_compute; intros; congruence.

Ltac split_wf H :=
  repeat (let H' := fresh "W" in apply andb_prop in H as [H H']).

Ltac bools :=
  repeat match goal with
         | |- context [Z.leb ?a ?b] => destruct (Z.leb_spec a b)
         | |- context [Z.eqb ?a ?b] => destruct (Z.eqb_spec a b)
         | H : context [Z.leb ?a ?b] |- _ => destruct (Z.leb_spec a b)
         | H : context [Z.eqb ?a ?b] |- _ => destruct (Z.eqb_spec a b)
         end.


Section FloatFacts.

Lemma SFcompare_antisym x y :
  SFcompare y x = option_map CompOpp (SFcompare x y).
Proof.
  destruct x as [sx|sx| |sx mx ex], y as [sy|sy| |sy my ey]; simpl; try reflexivity;
    try (destruct sx; reflexivity); try (destruct sy; reflexivity);
    try (destruct sx, sy; reflexivity).
  change (PosDef.Pos.compare_cont Eq) with Pos.compare.
  rewrite (Z.compare_antisym ex ey), (Pos.compare_antisym mx my).
  destruct sx, sy; simpl; try reflexivity;
    destruct (ex ?= ey)%Z; simpl; try reflexivity;
    destruct (mx ?= my)%positive; reflexivity.
Qed.

Lemma SFcompare_refl x : x <> S754_nan -> SFcompare x x = Some Eq.
Proof.
  destruct x as [s|s| |s m e]; simpl; intros H; try congruence.
  - destruct s; reflexivity.
  - destruct s; rewrite Z.compare_refl;
    change (PosDef.Pos.compare_cont Eq m m) with (Pos.compare m m);
    rewrite Pos.compare_refl; reflexivity.
Qed.

Lemma is_nan_false x : is_nan x = false -> Prim2SF x <> S754_nan.
Proof.
  unfold is_nan. rewrite FloatAxioms.eqb_spec. intros H E. rewrite E in H. discriminate.
Qed.

(** For numbers, [d <= b] fails exactly when [b < d]. *)
Lemma leb_false_ltb d b :
  is_nan d = false -> is_nan b = false ->
  (d <=? b)%float = false <-> (b <? d)%float = true.
Proof.
  intros Hd Hb. apply is_nan_false in Hd, Hb.
  rewrite FloatAxioms.leb_spec, FloatAxioms.ltb_spec. unfold SFleb, SFltb.
  rewrite (SFcompare_antisym (Prim2SF b) (Prim2SF d)).
  destruct (SFcompare (Prim2SF b) (Prim2SF d)) as [[]|] eqn:E; simpl; try (split; congruence).
  exfalso. destruct (Prim2SF b) as [s|s| |s m e], (Prim2SF d) as [s'|s'| |s' m' e']; simpl in E; congruence.
Qed.

Lemma not_nan_is_nan x : Prim2SF x <> S754_nan -> is_nan x = false.
Proof.
  intros H. unfold is_nan. rewrite FloatAxioms.eqb_spec. unfold SFeqb.
  rewrite SFcompare_refl by exact H. reflexivity.
Qed.

(** What is above something is a number. *)
Lemma ltb_not_nan x v : (x <? v)%float = true -> is_nan v = false.
Proof.
  rewrite FloatAxioms.ltb_spec. unfold SFltb. intros H. apply not_nan_is_nan.
  intros E. rewrite E in H. destruct (Prim2SF x); discriminate.
Qed.

Lemma is_nan_zero : is_nan 0%float = false.
Proof. reflexivity. Qed.

End FloatFacts.

Section AlertFacts.
Import storage alerts.

(** ** Running monadic code *)

Lemma run_bind {A B} (m : M A) (f : A -> M B) env w :
  run (m ≫= f) env w = run (f (m env w).1) env (m env w).2.
Proof. unfold run, mbind, M_bind, bind. destruct (m env w); reflexivity. Qed.

Lemma run_seq {B} (m : M unit) (k : M B) env w :
  run (m ;; k) env w = run k env (run m env w).
Proof. rewrite run_bind. reflexivity. Qed.

Lemma run_get {B} (f : AlertEngine -> M B) env w :
  run (get ≫= f) env w = run (f (engine w)) env w.
Proof. reflexivity. Qed.

Lemma run_now {B} (f : Z -> M B) env w :
  run (time_Now ≫= f) env w =
  run (f (clock env (ticks w))) env (mkWorld (engine w) (S (ticks w)) (trace w)).
Proof. reflexivity. Qed.

Lemma run_ret {A} (a : A) env w : run (mret a) env w = w.
Proof. reflexivity. Qed.

Lemma run_when_false m env w : run (when false m) env w = w.
Proof. reflexivity. Qed.

Lemma run_when_true m env w : run (when true m) env w = run m env w.
Proof. reflexivity. Qed.

(** ** Cooldown keys *)

Lemma append_nil s : "" +:+ s = s.
Proof. reflexivity. Qed.

Lemma append_cons a x s : String a x +:+ s = String a (x +:+ s).
Proof. reflexivity. Qed.

Lemma has_colon_app x s : has_colon (x +:+ String ":" s) = true.
Proof.
  induction x as [|a x IH]; [reflexivity|].
  rewrite append_cons. simpl. rewrite IH. apply orb_true_r.
Qed.

Lemma key_split x y s t :
  has_colon s = false -> has_colon t = false ->
  x +:+ String ":" s = y +:+ String ":" t -> x = y /\ s = t.
Proof.
  revert y. induction x as [|a x IH]; intros [|b y] Hs Ht E;
    rewrite ?append_cons, ?append_nil in E.
  - injection E as ->. done.
  - injection E as <- ->. rewrite has_colon_app in Hs. discriminate.
  - injection E as -> <-. rewrite has_colon_app in Ht. discriminate.
  - injection E as -> E. destruct (IH y Hs Ht E) as [-> ->]. done.
Qed.

Lemma AlertType_string_no_colon t : has_colon (AlertType_string t) = false.
Proof. destruct t; reflexivity. Qed.

Lemma AlertType_string_inj t u : AlertType_string t = AlertType_string u -> t = u.
Proof. destruct t, u; simpl; intros E; try reflexivity; discriminate E. Qed.

Lemma AlertType_eqb_eq t u : AlertType_eqb t u = true <-> t = u.
Proof.
  unfold AlertType_eqb. rewrite String.eqb_eq. split.
  - apply AlertType_string_inj.
  - intros ->. reflexivity.
Qed.

Lemma AlertType_eqb_neq t u : t <> u -> AlertType_eqb t u = false.
Proof.
  intros H. destruct (AlertType_eqb t u) eqn:E; [|reflexivity].
  apply AlertType_eqb_eq in E. contradiction.
Qed.

(** The cooldown key names the (device, kind) pair and nothing else. *)
Lemma cooldownKey_inj a b :
  cooldownKey a = cooldownKey b <->
  Alert.MinerIP a = Alert.MinerIP b /\ Alert.Type_ a = Alert.Type_ b.
Proof.
  unfold cooldownKey. split.
  - intros E. apply (key_split _ _ (AlertType_string _) (AlertType_string _)) in E;
      try apply AlertType_string_no_colon.
    destruct E as [E1 E2]. split; [exact E1 | exact (AlertType_string_inj _ _ E2)].
  - intros [-> ->]. reflexivity.
Qed.

(** ** [sendAlert] *)

Lemma Time_Sub_ltb t u d :
  Go.minDuration < d <= Go.maxDuration ->
  (Go.Time_Sub t u <? d) = (t - u <? d).
Proof.
  unfold Go.Time_Sub, Go.minDuration, Go.maxDuration, Go.MinInt64, Go.MaxInt64.
  intros H. repeat case_match; lia.
Qed.

Lemma run_since {B} (t : Z) (f : Z -> M B) env w :
  run (time_Since t ≫= f) env w =
  run (f (Go.Time_Sub (clock env (ticks w)) t)) env (tick w).
Proof. reflexivity. Qed.

Lemma sendAlert_unfold a env w :
  run (sendAlert a) env w =
  match alertCooldown (engine w) !! cooldownKey a with
  | Some lastAlert =>
      if clock env (ticks w) - lastAlert <? 5 * Go.Minute then tick w
      else fire a env (tick w)
  | None => fire a env w
  end.
Proof.
  unfold sendAlert, run, mbind, M_bind, bind, get. simpl.
  destruct (alertCooldown (engine w) !! cooldownKey a) as [last|] eqn:E; simpl.
  - unfold time_Since, mbind, M_bind, bind, time_Now, mret, M_ret, ret. simpl.
    rewrite Time_Sub_ltb by (vm_compute; split; [reflexivity | discriminate]).
    destruct (clock env (ticks w) - last <? 5 * Go.Minute); simpl; [reflexivity|].
    unfold fire, deliver, tick, modify, emit. simpl.
    destruct (String.eqb (WebhookURL (config (engine w))) ""); reflexivity.
  - unfold fire, deliver, mret, M_ret, ret, time_Now, modify, emit. simpl.
    destruct (String.eqb (WebhookURL (config (engine w))) ""); reflexivity.
Qed.

Lemma calm_refl hit k w : calm hit k w w.
Proof. split; try done. exists []. rewrite app_nil_r. done. Qed.

Lemma calm_trans hit k w1 w2 w3 :
  calm hit k w1 w2 -> calm hit k w2 w3 -> calm hit k w1 w3.
Proof.
  intros [c1 k1 t1 (n1 & e1 & f1)] [c2 k2 t2 (n2 & e2 & f2)]. split.
  - congruence.
  - congruence.
  - lia.
  - exists (n1 ++ n2). split; [rewrite e2, e1, app_assoc; done | apply Forall_app; done].
Qed.

Lemma calm_tick hit k w : calm hit k w (tick w).
Proof. split; simpl; try done; [lia|]. exists []. rewrite app_nil_r. done. Qed.

Lemma calm_fire_other hit k a env w :
  cooldownKey a <> k -> hit (deliver (config (engine w)) a) = false ->
  calm hit k w (fire a env w).
Proof.
  intros Hk Hh. split; simpl; try done.
  - apply lookup_insert_ne. done.
  - lia.
  - eexists. split; [reflexivity|]. constructor; done.
Qed.

Lemma calm_sendAlert hit k env a w :
  muted hit k env a w -> calm hit k w (run (sendAlert a) env w).
Proof.
  rewrite sendAlert_unfold. intros [[Hk Hh]|[Hk (last & Hl & Hw)]].
  - destruct (alertCooldown (engine w) !! cooldownKey a) as [l|].
    + destruct (_ <? _); [apply calm_tick|].
      eapply calm_trans; [apply calm_tick|]. apply calm_fire_other; [done|apply Hh].
    + apply calm_fire_other; [done|apply Hh].
  - rewrite Hk, Hl. specialize (Hw (ticks w) (le_n _)).
    destruct (Z.ltb_spec (clock env (ticks w) - last) (5 * Go.Minute)); [|lia].
    apply calm_tick.
Qed.

(** The shape of every alerting stage: a guard, a clock reading for the
    time stamp, [sendAlert]. *)
Lemma calm_guarded_send hit k env w0 w (b : bool) (mk : Z -> Alert.t) :
  (forall now w', calm hit k w0 w' -> muted hit k env (mk now) w') ->
  calm hit k w0 w ->
  calm hit k w0 (run (when b (now ← time_Now; sendAlert (mk now))) env w).
Proof.
  intros Hm Hc. destruct b; [|exact Hc].
  rewrite run_when_true, run_now.
  change (mkWorld (engine w) (S (ticks w)) (trace w)) with (tick w).
  assert (Hc' : calm hit k w0 (tick w)) by (eapply calm_trans; [exact Hc|apply calm_tick]).
  eapply calm_trans; [exact Hc'|]. apply calm_sendAlert. apply Hm. exact Hc'.
Qed.

Lemma calm_modify hit k env w0 w (f : AlertEngine -> AlertEngine) :
  (forall e, config (f e) = config e) ->
  (forall e, alertCooldown (f e) = alertCooldown e) ->
  calm hit k w0 w -> calm hit k w0 (run (modify f) env w).
Proof.
  intros Hc Hk H. eapply calm_trans; [exact H|].
  split; simpl; rewrite ?Hc, ?Hk; try done. exists []. rewrite app_nil_r. done.
Qed.

Section Stages.
Variables (hit : Effect -> bool) (k : string) (env : Env) (w0 : World).
Variable snap : MinerSnapshot.t.

Lemma calm_updateLastSeen w :
calm hit k w0 w -> calm hit k w0 (run (updateLastSeen snap) env w).
Proof.
intros H. unfold updateLastSeen. rewrite run_now.
apply calm_modify; try done.
eapply calm_trans; [exact H|apply calm_tick].
Qed.

Lemma calm_checkTemperature w :
muted_kind hit k env w0 snap AlertTempHigh ->
calm hit k w0 w -> calm hit k w0 (run (checkTemperature snap) env w).
Proof.
intros Hm H. unfold checkTemperature. rewrite run_get.
apply (calm_guarded_send hit k env w0 w _
         (fun now => Alert.mk AlertTempHigh _ _ _ _ now [])); [|exact H].
intros now w' Hw'. apply Hm; done.
Qed.

Lemma calm_checkHashrateDrop w :
muted_kind hit k env w0 snap AlertHashrateDrop ->
calm hit k w0 w -> calm hit k w0 (run (checkHashrateDrop snap) env w).
Proof.
intros Hm H. unfold checkHashrateDrop. rewrite run_get, run_seq.
apply calm_modify; try done.
destruct (lastHashrate (engine w) !! MinerSnapshot.MinerIP snap) as [lastHash|]; [|exact H].
destruct (0 <? lastHash)%float; [|exact H].
rewrite run_when_true.
apply (calm_guarded_send hit k env w0 w _
         (fun now => Alert.mk AlertHashrateDrop _ _ _ _ now [])); [|exact H].
intros now w' Hw'. apply Hm; done.
Qed.

Lemma calm_checkFanRPM w :
muted_kind hit k env w0 snap AlertFanLow ->
calm hit k w0 w -> calm hit k w0 (run (checkFanRPM snap) env w).
Proof.
intros Hm H. unfold checkFanRPM. rewrite run_get.
apply (calm_guarded_send hit k env w0 w _
         (fun now => Alert.mk AlertFanLow _ _ _ _ now [])); [|exact H].
intros now w' Hw'. apply Hm; done.
Qed.

Lemma calm_checkWifiSignal w :
muted_kind hit k env w0 snap AlertWifiWeak ->
calm hit k w0 w -> calm hit k w0 (run (checkWifiSignal snap) env w).
Proof.
intros Hm H. unfold checkWifiSignal. rewrite run_get.
apply (calm_guarded_send hit k env w0 w _
         (fun now => Alert.mk AlertWifiWeak _ _ _ _ now [])); [|exact H].
intros now w' Hw'. apply Hm; done.
Qed.

Lemma calm_checkPoolConnection w :
muted_kind hit k env w0 snap AlertPoolDisconnected ->
calm hit k w0 w -> calm hit k w0 (run (checkPoolConnection snap) env w).
Proof.
intros Hm H. unfold checkPoolConnection. rewrite run_get.
apply (calm_guarded_send hit k env w0 w _
         (fun now => Alert.mk AlertPoolDisconnected _ _ _ _ now [])); [|exact H].
intros now w' Hw'. apply Hm; done.
Qed.

Lemma calm_checkNewBestDiff w :
  muted_kind hit k env w0 snap AlertNewBestDiff ->
  calm hit k w0 w -> calm hit k w0 (run (checkNewBestDiff snap) env w).
Proof.
  intros Hm H. unfold checkNewBestDiff. rewrite run_get, run_seq.
  apply calm_modify; try done.
  destruct (OnNewBestDiff (config (engine w))); [|exact H].
  rewrite run_when_true.
  destruct (lastBestDiff (engine w) !! MinerSnapshot.MinerIP snap) as [lastBest|]; [|exact H].
  apply (calm_guarded_send hit k env w0 w _
           (fun now => Alert.mk AlertNewBestDiff _ _ _ _ now [])); [|exact H].
  intros now w' Hw'. apply Hm; done.
Qed.
End Stages.

Lemma cooldownKey_pairKey a : cooldownKey a = pairKey (Alert.MinerIP a) (Alert.Type_ a).
Proof. reflexivity. Qed.

Lemma pairKey_inj ip ip' T T' : pairKey ip T = pairKey ip' T' -> ip = ip' /\ T = T'.
Proof.
  intros E.
  apply (key_split _ _ (AlertType_string _) (AlertType_string _)) in E;
    try apply AlertType_string_no_colon.
  destruct E as [E1 E2]. split; [exact E1 | exact (AlertType_string_inj _ _ E2)].
Qed.

Lemma delivers_deliver T cfg a :
  delivers T (deliver cfg a) = AlertType_eqb T (Alert.Type_ a).
Proof. unfold deliver. destruct (String.eqb _ _); reflexivity. Qed.

(** Alerts of another kind are muted for the pair [(ip, T)]. *)
Lemma muted_other_kind T ip env w0 snap T' :
  T' <> T -> muted_kind (delivers T) (pairKey ip T) env w0 snap T'.
Proof.
  intros Hne a w' Ha _ _. left. split.
  - rewrite cooldownKey_pairKey, Ha. intros E. apply pairKey_inj in E. tauto.
  - intros cfg. rewrite delivers_deliver, Ha. apply AlertType_eqb_neq. congruence.
Qed.

(** ** What the stages leave alone *)

Lemma lastHashrate_fire a env w :
  lastHashrate (engine (fire a env w)) = lastHashrate (engine w).
Proof. reflexivity. Qed.

Lemma lastHashrate_sendAlert a env w :
  lastHashrate (engine (run (sendAlert a) env w)) = lastHashrate (engine w).
Proof.
  rewrite sendAlert_unfold.
  destruct (alertCooldown (engine w) !! cooldownKey a); [destruct (_ <? _)|]; reflexivity.
Qed.

Lemma lastHashrate_guarded_send (b : bool) (mk : Z -> Alert.t) env w :
  lastHashrate (engine (run (when b (now ← time_Now; sendAlert (mk now))) env w))
  = lastHashrate (engine w).
Proof.
  destruct b; [|reflexivity].
  rewrite run_when_true, run_now, lastHashrate_sendAlert. reflexivity.
Qed.

Lemma lastHashrate_before snap env w :
  lastHashrate (engine (run (checkTemperature snap) env (run (updateLastSeen snap) env w)))
  = lastHashrate (engine w).
Proof.
  unfold checkTemperature. rewrite run_get.
  rewrite (lastHashrate_guarded_send _ (fun now => Alert.mk AlertTempHigh _ _ _ _ now [])).
  reflexivity.
Qed.

Lemma lastHashrate_checkNewBestDiff snap env w :
  lastHashrate (engine (run (checkNewBestDiff snap) env w)) = lastHashrate (engine w).
Proof.
  unfold checkNewBestDiff. rewrite run_get, run_seq.
  change (lastHashrate (engine (run (modify ?f) env ?w'))) with (lastHashrate (engine w')).
  destruct (OnNewBestDiff (config (engine w))); [|reflexivity].
  rewrite run_when_true.
  destruct (lastBestDiff (engine w) !! MinerSnapshot.MinerIP snap); [|reflexivity].
  apply (lastHashrate_guarded_send _ (fun now => Alert.mk AlertNewBestDiff _ _ _ _ now [])).
Qed.

Lemma lastHashrate_after snap env w :
  lastHashrate
    (engine (run (checkNewBestDiff snap) env
               (run (checkPoolConnection snap) env
                  (run (checkWifiSignal snap) env (run (checkFanRPM snap) env w)))))
  = lastHashrate (engine w).
Proof.
  rewrite lastHashrate_checkNewBestDiff.
  unfold checkPoolConnection. rewrite run_get.
  rewrite (lastHashrate_guarded_send _ (fun now => Alert.mk AlertPoolDisconnected _ _ _ _ now [])).
  unfold checkWifiSignal. rewrite run_get.
  rewrite (lastHashrate_guarded_send _ (fun now => Alert.mk AlertWifiWeak _ _ _ _ now [])).
  unfold checkFanRPM. rewrite run_get.
  rewrite (lastHashrate_guarded_send _ (fun now => Alert.mk AlertFanLow _ _ _ _ now [])).
  reflexivity.
Qed.

Lemma CheckSnapshot_stages snap env w :
  run (CheckSnapshot snap) env w =
  run (checkNewBestDiff snap) env
    (run (checkPoolConnection snap) env
       (run (checkWifiSignal snap) env
          (run (checkFanRPM snap) env
             (run (checkHashrateDrop snap) env
                (run (checkTemperature snap) env
                   (run (updateLastSeen snap) env w)))))).
Proof. unfold CheckSnapshot. rewrite !run_seq. reflexivity. Qed.

(** A whole [CheckSnapshot] is calm for a pair whose every kind is muted. *)
Lemma calm_CheckSnapshot hit k env w0 w snap :
  (forall T, muted_kind hit k env w0 snap T) ->
  calm hit k w0 w -> calm hit k w0 (run (CheckSnapshot snap) env w).
Proof.
  intros Hm H. rewrite CheckSnapshot_stages.
  apply calm_checkNewBestDiff, calm_checkPoolConnection, calm_checkWifiSignal,
    calm_checkFanRPM, calm_checkHashrateDrop, calm_checkTemperature,
    calm_updateLastSeen; auto.
Qed.

Lemma calm_before T snap env w :
  T <> AlertTempHigh ->
  calm (delivers T) (pairKey (MinerSnapshot.MinerIP snap) T) w
    (run (checkTemperature snap) env (run (updateLastSeen snap) env w)).
Proof.
  intros H. apply calm_checkTemperature, calm_updateLastSeen, calm_refl.
  apply muted_other_kind. congruence.
Qed.

Lemma calm_after_fan T snap env w :
  T <> AlertWifiWeak -> T <> AlertPoolDisconnected -> T <> AlertNewBestDiff ->
  calm (delivers T) (pairKey (MinerSnapshot.MinerIP snap) T) w
    (run (checkNewBestDiff snap) env
       (run (checkPoolConnection snap) env (run (checkWifiSignal snap) env w))).
Proof.
  intros H1 H2 H3.
  apply calm_checkNewBestDiff, calm_checkPoolConnection, calm_checkWifiSignal, calm_refl;
    apply muted_other_kind; congruence.
Qed.

(** The fan stage, when its guard holds and the pair is out of cooldown. *)
Lemma checkFanRPM_fires snap env w :
  let cfg := config (engine w) in
  let k := pairKey (MinerSnapshot.MinerIP snap) AlertFanLow in
  (0 <? FanRPMBelow cfg) && (MinerSnapshot.FanRPM snap <? FanRPMBelow cfg)
    && (0 <? MinerSnapshot.FanRPM snap) = true ->
  (forall last, alertCooldown (engine w) !! k = Some last ->
     forall i, (ticks w <= i)%nat -> 5 * Go.Minute <= clock env i - last) ->
  exists now,
    trace (run (checkFanRPM snap) env w) =
    trace w ++ [deliver cfg
                  (Alert.mk AlertFanLow (MinerSnapshot.MinerIP snap)
                     (MinerSnapshot.Hostname snap)
                     (TxtFanRPM (MinerSnapshot.FanRPM snap) (FanRPMBelow cfg))
                     (Go.float64_of_int (MinerSnapshot.FanRPM snap)) now [])].
Proof.
  intros cfg k Hb Hcd. unfold checkFanRPM. rewrite run_get. fold cfg. rewrite Hb.
  rewrite run_when_true, run_now, sendAlert_unfold. simpl engine. simpl ticks.
  exists (clock env (ticks w)).
  change (cooldownKey _) with k.
  destruct (alertCooldown (engine w) !! k) as [last|] eqn:E; [|reflexivity].
  specialize (Hcd last eq_refl (S (ticks w))).
  destruct (Z.ltb_spec (clock env (S (ticks w)) - last) (5 * Go.Minute)); [lia|].
  reflexivity.
Qed.

(** C6 (as amended).  With the fan check configured (floor > 0) and the
    (device, fan_low) pair out of its cooldown window, [CheckSnapshot]
    delivers a low-fan alert exactly when the snapshot's fan RPM is below
    the floor and positive; the alert carries the RPM and the floor. *)
Theorem C6_low_fan_alert_iff_positive_rpm_below_floor :
  forall env w snap,
    let cfg := config (engine w) in
    let ip := MinerSnapshot.MinerIP snap in
    let rpm := MinerSnapshot.FanRPM snap in
    0 < FanRPMBelow cfg ->
    (forall last, alertCooldown (engine w) !! pairKey ip AlertFanLow = Some last ->
       forall i, (ticks w <= i)%nat -> 5 * Go.Minute <= clock env i - last) ->
    exists new,
      trace (run (CheckSnapshot snap) env w) = trace w ++ new
      /\ (0 < rpm < FanRPMBelow cfg <-> Exists (fun x => delivers AlertFanLow x = true) new)
      /\ (0 < rpm < FanRPMBelow cfg ->
          exists now,
            In (deliver cfg (Alert.mk AlertFanLow ip (MinerSnapshot.Hostname snap)
                               (TxtFanRPM rpm (FanRPMBelow cfg))
                               (Go.float64_of_int rpm) now [])) new).
Proof.
  intros env w snap cfg ip rpm Hfloor Hcd.
  rewrite CheckSnapshot_stages.
  set (w1 := run (checkHashrateDrop snap) env _).
  assert (H1 : calm (delivers AlertFanLow) (pairKey ip AlertFanLow) w w1).
  { apply calm_checkHashrateDrop; [apply muted_other_kind; congruence|].
    apply calm_before. congruence. }
  destruct H1 as [Hc Hk Ht (n1 & Hn1 & Hf1)].
  destruct ((0 <? FanRPMBelow cfg) && (rpm <? FanRPMBelow cfg) && (0 <? rpm)) eqn:Hb.
  - destruct (checkFanRPM_fires snap env w1) as [now Hfire].
    { rewrite Hc. exact Hb. }
    { fold ip. rewrite Hk. intros last Hl i Hi. apply (Hcd last Hl). lia. }
    set (w2 := run (checkFanRPM snap) env w1) in *.
    destruct (calm_after_fan AlertFanLow snap env w2) as [_ _ _ (n2 & Hn2 & Hf2)];
      try congruence.
    rewrite Hc in Hfire. fold cfg ip rpm in Hfire.
    eexists. split; [rewrite Hn2, Hfire, Hn1, <- !app_assoc; reflexivity|].
    assert (Hrange : 0 < rpm < FanRPMBelow cfg).
    { apply andb_prop in Hb as [Hb Hb3]. apply andb_prop in Hb as [_ Hb2]. lia. }
    split; [split; [intros _|intros _; exact Hrange]|intros _; exists now].
    + apply Exists_app. right. apply Exists_cons_hd.
      rewrite delivers_deliver. reflexivity.
    + apply in_or_app. right. left. reflexivity.
  - assert (Hw2 : run (checkFanRPM snap) env w1 = w1).
    { unfold checkFanRPM. rewrite run_get, Hc. fold cfg rpm. rewrite Hb. reflexivity. }
    rewrite Hw2.
    destruct (calm_after_fan AlertFanLow snap env w1) as [_ _ _ (n2 & Hn2 & Hf2)];
      try congruence.
    assert (Hrange : ~ (0 < rpm < FanRPMBelow cfg)).
    { intros [? ?]. rewrite !andb_false_iff in Hb. destruct Hb as [[Hb|Hb]|Hb]; lia. }
    exists (n1 ++ n2). split; [rewrite Hn2, Hn1, <- app_assoc; reflexivity|].
    split; [split; [tauto|]|tauto].
    intros Hex. exfalso. apply Exists_exists in Hex as (x & Hin & Hx).
    apply elem_of_app in Hin as [Hin|Hin].
    + rewrite Forall_forall in Hf1. rewrite (Hf1 x Hin) in Hx. discriminate.
    + rewrite Forall_forall in Hf2. rewrite (Hf2 x Hin) in Hx. discriminate.
Qed.

Lemma calm_after_drop T snap env w :
  T <> AlertFanLow -> T <> AlertWifiWeak -> T <> AlertPoolDisconnected ->
  T <> AlertNewBestDiff ->
  calm (delivers T) (pairKey (MinerSnapshot.MinerIP snap) T) w
    (run (checkNewBestDiff snap) env
       (run (checkPoolConnection snap) env
          (run (checkWifiSignal snap) env (run (checkFanRPM snap) env w)))).
Proof.
  intros H0 H1 H2 H3.
  apply calm_checkNewBestDiff, calm_checkPoolConnection, calm_checkWifiSignal,
    calm_checkFanRPM, calm_refl; apply muted_other_kind; congruence.
Qed.

Lemma checkHashrateDrop_lastHashrate snap env w :
  lastHashrate (engine (run (checkHashrateDrop snap) env w))
  = <[MinerSnapshot.MinerIP snap := MinerSnapshot.HashRate snap]> (lastHashrate (engine w)).
Proof.
  unfold checkHashrateDrop. rewrite run_get, run_seq.
  change (lastHashrate (engine (run (modify (set_lastHashrate ?k ?v)) env ?w')))
    with (<[k := v]> (lastHashrate (engine w'))).
  f_equal.
  destruct (lastHashrate (engine w) !! MinerSnapshot.MinerIP snap); [|reflexivity].
  destruct (0 <? f)%float; [|reflexivity].
  rewrite run_when_true.
  apply (lastHashrate_guarded_send _ (fun now => Alert.mk AlertHashrateDrop _ _ _ _ now [])).
Qed.

(** The hashrate stage when its guard fails: nothing is sent. *)
Lemma checkHashrateDrop_silent snap env w :
  drop_guard (config (engine w)) (lastHashrate (engine w) !! MinerSnapshot.MinerIP snap)
    (MinerSnapshot.HashRate snap) = false ->
  trace (run (checkHashrateDrop snap) env w) = trace w
  /\ alertCooldown (engine (run (checkHashrateDrop snap) env w)) = alertCooldown (engine w)
  /\ config (engine (run (checkHashrateDrop snap) env w)) = config (engine w)
  /\ ticks (run (checkHashrateDrop snap) env w) = ticks w.
Proof.
  unfold drop_guard, checkHashrateDrop. rewrite run_get, run_seq. intros Hg.
  destruct (lastHashrate (engine w) !! MinerSnapshot.MinerIP snap) as [h|]; [|done].
  destruct (0 <? h)%float; [|done].
  rewrite run_when_true. unfold dropPercent in Hg. simpl in Hg. rewrite Hg. done.
Qed.

(** The hashrate stage when its guard holds and the pair is out of
    cooldown: one alert, carrying the computed percentage. *)
Lemma checkHashrateDrop_fires snap env w lastHash :
  let cfg := config (engine w) in
  let k := pairKey (MinerSnapshot.MinerIP snap) AlertHashrateDrop in
  lastHashrate (engine w) !! MinerSnapshot.MinerIP snap = Some lastHash ->
  drop_guard cfg (Some lastHash) (MinerSnapshot.HashRate snap) = true ->
  alertCooldown (engine w) !! k = None ->
  config (engine (run (checkHashrateDrop snap) env w)) = cfg
  /\ (ticks w <= ticks (run (checkHashrateDrop snap) env w))%nat
  /\ exists now,
    trace (run (checkHashrateDrop snap) env w) =
    trace w ++ [deliver cfg
                  (Alert.mk AlertHashrateDrop (MinerSnapshot.MinerIP snap)
                     (MinerSnapshot.Hostname snap)
                     (TxtHashrateDrop (dropPercent lastHash (MinerSnapshot.HashRate snap))
                        lastHash (MinerSnapshot.HashRate snap))
                     (dropPercent lastHash (MinerSnapshot.HashRate snap)) now [])].
Proof.
  intros cfg k Hl Hg Hcd. unfold checkHashrateDrop. rewrite run_get, run_seq, Hl.
  unfold drop_guard in Hg. apply andb_prop in Hg as [Hg1 Hg2]. rewrite Hg1.
  rewrite run_when_true. fold cfg. unfold dropPercent in Hg2 |- *. rewrite Hg2.
  rewrite run_when_true, run_now, sendAlert_unfold. simpl engine. simpl ticks.
  change (cooldownKey _) with k. rewrite Hcd.
  split; [reflexivity|]. split; [simpl; lia|].
  exists (clock env (ticks w)). reflexivity.
Qed.

(** One [CheckSnapshot] seen from the hashrate stage: what is recorded,
    and which hashrate-drop alerts come out. *)
Lemma CheckSnapshot_hashrate snap env w :
  let cfg := config (engine w) in
  let ip := MinerSnapshot.MinerIP snap in
  let k := pairKey ip AlertHashrateDrop in
  let w' := run (CheckSnapshot snap) env w in
  alertCooldown (engine w) !! k = None ->
  config (engine w') = cfg
  /\ lastHashrate (engine w') !! ip = Some (MinerSnapshot.HashRate snap)
  /\ (ticks w <= ticks w')%nat
  /\ exists new,
       trace w' = trace w ++ new
       /\ match lastHashrate (engine w) !! ip with
          | Some lastHash =>
              if drop_guard cfg (Some lastHash) (MinerSnapshot.HashRate snap) then
                exists now,
                  filter (fun x => delivers AlertHashrateDrop x = true) new =
                  [deliver cfg
                     (Alert.mk AlertHashrateDrop ip (MinerSnapshot.Hostname snap)
                        (TxtHashrateDrop (dropPercent lastHash (MinerSnapshot.HashRate snap))
                           lastHash (MinerSnapshot.HashRate snap))
                        (dropPercent lastHash (MinerSnapshot.HashRate snap)) now [])]
              else
                filter (fun x => delivers AlertHashrateDrop x = true) new = []
                /\ alertCooldown (engine w') !! k = None
          | None =>
              filter (fun x => delivers AlertHashrateDrop x = true) new = []
              /\ alertCooldown (engine w') !! k = None
          end.
Proof.
  intros cfg ip k w' Hcd. subst w' k ip cfg. rewrite CheckSnapshot_stages.
  set (w1 := run (checkTemperature snap) env _).
  destruct (calm_before AlertHashrateDrop snap env w) as [Hc1 Hk1 Ht1 (n1 & Hn1 & Hf1)];
    [congruence|]. fold w1 in Hc1, Hk1, Ht1, Hn1 |- *.
  pose proof (lastHashrate_before snap env w) as Hh1. fold w1 in Hh1.
  set (w2 := run (checkHashrateDrop snap) env w1).
  destruct (calm_after_drop AlertHashrateDrop snap env w2)
    as [Hc3 Hk3 Ht3 (n3 & Hn3 & Hf3)]; try congruence.
  rewrite lastHashrate_after.
  pose proof (checkHashrateDrop_lastHashrate snap env w1) as Hh2. fold w2 in Hh2.
  assert (Hnone : forall l, Forall (fun x => delivers AlertHashrateDrop x = false) l ->
                        filter (fun x => delivers AlertHashrateDrop x = true) l = []).
  { induction 1 as [|x l Hx _ IH]; [reflexivity|].
    rewrite filter_cons_False; [exact IH|]. rewrite Hx. discriminate. }
  assert (Hsilent :
            drop_guard (config (engine w)) (lastHashrate (engine w) !! MinerSnapshot.MinerIP snap)
              (MinerSnapshot.HashRate snap) = false ->
            config (engine w2) = config (engine w) /\ (ticks w <= ticks w2)%nat
            /\ trace w2 = trace w ++ n1
            /\ alertCooldown (engine w2)
               !! pairKey (MinerSnapshot.MinerIP snap) AlertHashrateDrop = None).
  { intros Hg.
    destruct (checkHashrateDrop_silent snap env w1) as (E1 & E2 & E3 & E4).
    { rewrite Hc1, Hh1. exact Hg. }
    fold w2 in E1, E2, E3, E4. rewrite E3, E4, E1, E2. rewrite Hk1. repeat split; try done. }
  rewrite Hc3, Hh2. rewrite lookup_insert_eq.
  destruct (lastHashrate (engine w) !! MinerSnapshot.MinerIP snap) as [lastHash|] eqn:Hl.
  - destruct (drop_guard (config (engine w)) (Some lastHash) (MinerSnapshot.HashRate snap)) eqn:Hg.
    + destruct (checkHashrateDrop_fires snap env w1 lastHash) as (Hcfg2 & Htk2 & now & Hfire).
      { rewrite Hh1. exact Hl. }
      { rewrite Hc1. exact Hg. }
      { rewrite Hk1. exact Hcd. }
      fold w2 in Hfire, Hcfg2, Htk2. rewrite Hc1 in Hfire, Hcfg2.
      repeat split; [exact Hcfg2 | lia |].
      eexists. split; [rewrite Hn3, Hfire, Hn1, <- !app_assoc; reflexivity|].
      exists now. rewrite !filter_app, (Hnone _ Hf1), (Hnone _ Hf3).
      rewrite filter_cons_True by (rewrite delivers_deliver; reflexivity).
      reflexivity.
    + destruct (Hsilent eq_refl) as (E1 & E2 & E3 & E4).
      repeat split; [exact E1 | lia |].
      exists (n1 ++ n3). split; [rewrite Hn3, E3, <- app_assoc; reflexivity|].
      rewrite filter_app, (Hnone _ Hf1), (Hnone _ Hf3). split; [reflexivity|].
      rewrite Hk3. exact E4.
  - destruct (Hsilent eq_refl) as (E1 & E2 & E3 & E4).
    repeat split; [exact E1 | lia |].
    exists (n1 ++ n3). split; [rewrite Hn3, E3, <- app_assoc; reflexivity|].
    rewrite filter_app, (Hnone _ Hf1), (Hnone _ Hf3). split; [reflexivity|].
    rewrite Hk3. exact E4.
Qed.

Lemma filter_none (hit : Effect -> bool) l :
  Forall (fun x => hit x = false) l -> filter (fun x => hit x = true) l = [].
Proof.
  induction 1 as [|x l Hx _ IH]; [reflexivity|].
  rewrite filter_cons_False; [exact IH|]. rewrite Hx. discriminate.
Qed.

(** Without a positive previous hashrate and a drop above the configured
    percentage, [CheckSnapshot] delivers no hashrate-drop alert. *)
Lemma CheckSnapshot_no_drop snap env w :
  drop_guard (config (engine w)) (lastHashrate (engine w) !! MinerSnapshot.MinerIP snap)
    (MinerSnapshot.HashRate snap) = false ->
  exists new,
    trace (run (CheckSnapshot snap) env w) = trace w ++ new
    /\ Forall (fun x => delivers AlertHashrateDrop x = false) new.
Proof.
  intros Hg. rewrite CheckSnapshot_stages.
  set (w1 := run (checkTemperature snap) env _).
  destruct (calm_before AlertHashrateDrop snap env w) as [Hc1 Hk1 Ht1 (n1 & Hn1 & Hf1)];
    [congruence|]. fold w1 in Hc1, Hk1, Ht1, Hn1 |- *.
  pose proof (lastHashrate_before snap env w) as Hh1. fold w1 in Hh1.
  set (w2 := run (checkHashrateDrop snap) env w1).
  destruct (calm_after_drop AlertHashrateDrop snap env w2)
    as [Hc3 Hk3 Ht3 (n3 & Hn3 & Hf3)]; try congruence.
  destruct (checkHashrateDrop_silent snap env w1) as (E1 & _).
  { rewrite Hc1, Hh1. exact Hg. }
  fold w2 in E1.
  exists (n1 ++ n3). split; [rewrite Hn3, E1, Hn1, <- app_assoc; reflexivity|].
  apply Forall_app. done.
Qed.

(** C3.  Two snapshots of one device, hashrate 580.0 then 300.0, drop
    threshold 20%, the device not seen before: exactly one hashrate-drop
    alert comes out, and its value is ((580-300)/580)*100, which is 48.3
    to one decimal.  And whenever [CheckSnapshot] delivers a hashrate-drop
    alert, a previous hashrate was recorded for the device and is positive. *)
Theorem C3_hashrate_drop_580_then_300 :
  forall env w snap1 snap2,
    let ip := MinerSnapshot.MinerIP snap1 in
    let cfg := config (engine w) in
    MinerSnapshot.MinerIP snap2 = ip ->
    MinerSnapshot.HashRate snap1 = 580%float ->
    MinerSnapshot.HashRate snap2 = 300%float ->
    HashrateDropPercent cfg = 20%float ->
    lastHashrate (engine w) !! ip = None ->
    alertCooldown (engine w) !! pairKey ip AlertHashrateDrop = None ->
    (exists new a,
        trace (run (CheckSnapshot snap1 ;; CheckSnapshot snap2) env w) = trace w ++ new
        /\ filter (fun x => delivers AlertHashrateDrop x = true) new = [deliver cfg a]
        /\ Alert.Type_ a = AlertHashrateDrop
        /\ Alert.MinerIP a = ip
        /\ Alert.Value a = ((580 - 300) / 580 * 100)%float
        /\ (48.25 <? Alert.Value a)%float = true
        /\ (Alert.Value a <? 48.3125)%float = true)
    /\ (forall env' w' snap new',
          trace (run (CheckSnapshot snap) env' w') = trace w' ++ new' ->
          Exists (fun x => delivers AlertHashrateDrop x = true) new' ->
          exists lastHash,
            lastHashrate (engine w') !! MinerSnapshot.MinerIP snap = Some lastHash
            /\ (0 <? lastHash)%float = true).
Proof.
  intros env w snap1 snap2 ip cfg Hip H580 H300 H20 Hprev Hcd. split.
  - rewrite run_seq.
    destruct (CheckSnapshot_hashrate snap1 env w Hcd) as (Hc1 & Hh1 & Ht1 & n1 & Hn1 & Hr1).
    fold ip in Hh1, Hr1. rewrite Hprev in Hr1. destruct Hr1 as [Hf1 Hcd1].
    set (w1 := run (CheckSnapshot snap1) env w) in *.
    assert (Hcd1' : alertCooldown (engine w1)
                      !! pairKey (MinerSnapshot.MinerIP snap2) AlertHashrateDrop = None)
      by (rewrite Hip; exact Hcd1).
    destruct (CheckSnapshot_hashrate snap2 env w1 Hcd1') as (Hc2 & Hh2 & Ht2 & n2 & Hn2 & Hr2).
    rewrite Hip, Hh1, Hc1, H580, H300 in Hr2. fold cfg in Hr2.
    assert (Hg : drop_guard cfg (Some 580%float) 300%float = true).
    { unfold drop_guard. rewrite H20. vm_compute. reflexivity. }
    rewrite Hg in Hr2. destruct Hr2 as [now Hr2].
    eexists (n1 ++ n2), _. split; [rewrite Hn2, Hn1, <- app_assoc; reflexivity|].
    rewrite filter_app, Hf1, Hr2. simpl.
    split; [reflexivity|]. split; [reflexivity|]. split; [reflexivity|].
    split; [reflexivity|]. split; vm_compute; reflexivity.
  - intros env' w' snap new' Htr Hex.
    destruct (drop_guard (config (engine w'))
                (lastHashrate (engine w') !! MinerSnapshot.MinerIP snap)
                (MinerSnapshot.HashRate snap)) eqn:Hg.
    + unfold drop_guard in Hg.
      destruct (lastHashrate (engine w') !! MinerSnapshot.MinerIP snap) as [h|]; [|discriminate].
      exists h. apply andb_prop in Hg as [Hg _]. done.
    + exfalso. destruct (CheckSnapshot_no_drop snap env' w' Hg) as (n & Hn & Hf).
      rewrite Hn in Htr. apply app_inv_head in Htr. subst n.
      apply Exists_exists in Hex as (x & Hin & Hx).
      rewrite Forall_forall in Hf. rewrite (Hf x Hin) in Hx. discriminate.
Qed.

(** Inside the window of the pair [(ip, T)] every alert is muted: the
    pair's own by the cooldown, the others because they are others. *)
Lemma muted_in_window T ip env w0 last :
  alertCooldown (engine w0) !! pairKey ip T = Some last ->
  (forall i, (ticks w0 <= i)%nat -> clock env i - last < 5 * Go.Minute) ->
  forall a w', calm (delivers_to T ip) (pairKey ip T) w0 w' ->
               muted (delivers_to T ip) (pairKey ip T) env a w'.
Proof.
  intros Hl Hw a w' [_ Hk Ht _].
  destruct (decide (cooldownKey a = pairKey ip T)) as [E|E].
  - right. split; [exact E|]. exists last. split; [congruence|].
    intros i Hi. apply Hw. lia.
  - left. split; [exact E|]. intros cfg.
    assert (H : delivers_to T ip (deliver cfg a)
                = AlertType_eqb T (Alert.Type_ a) && String.eqb ip (Alert.MinerIP a)).
    { unfold deliver. destruct (String.eqb _ _); reflexivity. }
    rewrite H. apply not_true_is_false. intros Hb.
    apply andb_prop in Hb as [H1 H2].
    apply AlertType_eqb_eq in H1. apply String.eqb_eq in H2.
    apply E. rewrite cooldownKey_pairKey. congruence.
Qed.

Lemma calm_CheckShare hit k env w0 w share rejected :
  (forall a w', calm hit k w0 w' -> muted hit k env a w') ->
  calm hit k w0 w -> calm hit k w0 (run (CheckShare share rejected) env w).
Proof.
  intros Hm H. unfold CheckShare. rewrite run_get.
  destruct (negb _ || negb _); [exact H|].
  apply (calm_guarded_send hit k env w0 w true
           (fun now => Alert.mk AlertShareRejected _ _ _ _ now [])); [|exact H].
  intros now w' Hw'. apply Hm. exact Hw'.
Qed.

Lemma calm_checkOfflineMiner hit k env w0 w threshold miner :
  (forall a w', calm hit k w0 w' -> muted hit k env a w') ->
  calm hit k w0 w -> calm hit k w0 (run (checkOfflineMiner threshold miner) env w).
Proof.
  intros Hm H. unfold checkOfflineMiner.
  destruct (negb (Miner.Enabled miner)); [exact H|].
  rewrite run_get.
  destruct (lastSeen (engine w) !! Miner.IP miner) as [seen|]; [|exact H].
  rewrite run_since.
  assert (H1 : calm hit k w0 (tick w)) by (eapply calm_trans; [exact H|apply calm_tick]).
  destruct (threshold <? _); [|exact H1].
  rewrite run_when_true, run_since.
  assert (H2 : calm hit k w0 (tick (tick w)))
    by (eapply calm_trans; [exact H1|apply calm_tick]).
  apply (calm_guarded_send hit k env w0 (tick (tick w)) true
           (fun now => Alert.mk AlertMinerOffline _ _ _ _ now [])); [|exact H2].
  intros now w' Hw'. apply Hm. exact Hw'.
Qed.

Lemma calm_forEach hit k env w0 threshold miners :
  (forall a w', calm hit k w0 w' -> muted hit k env a w') ->
  forall w, calm hit k w0 w ->
            calm hit k w0 (run (forEach miners (checkOfflineMiner threshold)) env w).
Proof.
  intros Hm. induction miners as [|m ms IH]; intros w H; [exact H|].
  simpl forEach. rewrite run_seq. apply IH. apply calm_checkOfflineMiner; done.
Qed.

Lemma calm_CheckOffline hit k env w0 w miners :
  (forall a w', calm hit k w0 w' -> muted hit k env a w') ->
  calm hit k w0 w -> calm hit k w0 (run (CheckOffline miners) env w).
Proof.
  intros Hm H. unfold CheckOffline. rewrite run_get.
  destruct (_ <=? 0); [exact H|]. apply calm_forEach; done.
Qed.

Lemma calm_perform hit k env w c :
  (forall a w', calm hit k w w' -> muted hit k env a w') ->
  calm hit k w (run (perform c) env w).
Proof.
  intros Hm. destruct c; simpl.
  - apply calm_CheckSnapshot; [|apply calm_refl]. intros T a w' _ _. apply Hm.
  - apply calm_CheckShare; [exact Hm|apply calm_refl].
  - apply calm_CheckOffline; [exact Hm|apply calm_refl].
Qed.

Lemma CheckBlock_with_cooldown cd blk env w :
  run (CheckBlock blk) env (with_cooldown cd w)
  = with_cooldown cd (run (CheckBlock blk) env w).
Proof.
  unfold CheckBlock. rewrite !run_get. simpl config.
  destruct (negb _); [reflexivity|]. destruct (String.eqb _ _); reflexivity.
Qed.

Lemma CheckLeaderChange_with_cooldown cd share env w :
  run (CheckLeaderChange share) env (with_cooldown cd w)
  = with_cooldown cd (run (CheckLeaderChange share) env w).
Proof.
  unfold CheckLeaderChange. rewrite !run_get. simpl config.
  destruct (negb _); [reflexivity|].
  unfold currentWeekStart. rewrite !run_bind. simpl.
  unfold run, mbind, M_bind, bind, when, modify, get, emit, mret, M_ret, ret; simpl.
  destruct (weekStart (engine w) <? _); simpl;
    repeat (match goal with |- context [if ?b then _ else _] => destruct b end; simpl);
    reflexivity.
Qed.

Lemma CheckBlock_delivers blk env w :
  OnBlockFound (config (engine w)) = true ->
  exists x, trace (run (CheckBlock blk) env w) = trace w ++ [x]
            /\ delivers AlertBlockFound x = true.
Proof.
  intros H. unfold CheckBlock. rewrite run_get, H. simpl negb. cbv iota.
  destruct (String.eqb _ _); eexists; split; reflexivity.
Qed.

(** C2.  [sendAlert] keys its cooldown by (device, kind): an alert whose
    pair fired less than five minutes ago leaves the engine and the trace
    untouched; one whose pair fired five minutes ago or more, or never, is
    delivered and restarts the window.  Inside the window of a gated pair
    none of the three checks that produce gated alerts delivers anything
    for it.  [CheckBlock] and [CheckLeaderChange] neither read nor write
    the cooldown map, and an enabled block alert is always delivered. *)
Theorem C2_cooldown_per_device_and_kind :
  forall env w,
    (forall a,
        let k := cooldownKey a in
        let w' := run (sendAlert a) env w in
        (forall last,
            alertCooldown (engine w) !! k = Some last ->
            (clock env (ticks w) - last < 5 * Go.Minute ->
             engine w' = engine w /\ trace w' = trace w)
            /\ (5 * Go.Minute <= clock env (ticks w) - last ->
                trace w' = trace w ++ [deliver (config (engine w)) a]
                /\ alertCooldown (engine w') !! k = Some (clock env (S (ticks w)))))
        /\ (alertCooldown (engine w) !! k = None ->
            trace w' = trace w ++ [deliver (config (engine w)) a]
            /\ alertCooldown (engine w') !! k = Some (clock env (ticks w)))
        /\ (forall b, cooldownKey b = k <->
                      Alert.MinerIP b = Alert.MinerIP a /\ Alert.Type_ b = Alert.Type_ a))
    /\ (forall T ip last c,
           gated T = true ->
           alertCooldown (engine w) !! pairKey ip T = Some last ->
           (forall i, (ticks w <= i)%nat -> clock env i - last < 5 * Go.Minute) ->
           exists new,
             trace (run (perform c) env w) = trace w ++ new
             /\ Forall (fun x => delivers_to T ip x = false) new
             /\ alertCooldown (engine (run (perform c) env w)) !! pairKey ip T = Some last)
    /\ (forall cd blk,
           run (CheckBlock blk) env (with_cooldown cd w)
           = with_cooldown cd (run (CheckBlock blk) env w))
    /\ (forall cd share,
           run (CheckLeaderChange share) env (with_cooldown cd w)
           = with_cooldown cd (run (CheckLeaderChange share) env w))
    /\ (forall blk,
           OnBlockFound (config (engine w)) = true ->
           exists x, trace (run (CheckBlock blk) env w) = trace w ++ [x]
                     /\ delivers AlertBlockFound x = true).
Proof.
  intros env w. split; [|split; [|split; [|split]]].
  - intros a k w'. subst k w'. rewrite sendAlert_unfold. split; [|split].
    + intros last Hl. rewrite Hl. split; intros Hd.
      * destruct (Z.ltb_spec (clock env (ticks w) - last) (5 * Go.Minute)); [|lia].
        split; reflexivity.
      * destruct (Z.ltb_spec (clock env (ticks w) - last) (5 * Go.Minute)); [lia|].
        split; [reflexivity|]. simpl. apply lookup_insert_eq.
    + intros Hl. rewrite Hl. split; [reflexivity|]. simpl. apply lookup_insert_eq.
    + intros b. apply cooldownKey_inj.
  - intros T ip last c _ Hl Hw.
    destruct (calm_perform (delivers_to T ip) (pairKey ip T) env w c)
      as [_ Hk _ (new & Hn & Hf)].
    { apply (muted_in_window T ip env w last); assumption. }
    exists new. split; [exact Hn|]. split; [exact Hf|]. congruence.
  - intros cd blk. apply CheckBlock_with_cooldown.
  - intros cd share. apply CheckLeaderChange_with_cooldown.
  - intros blk. apply CheckBlock_delivers.
Qed.

Lemma sweeping_refl env miners threshold w : sweeping env miners threshold w w.
Proof. split; try done. exists []. rewrite app_nil_r. done. Qed.

Lemma sweeping_tick env miners threshold w0 w :
  sweeping env miners threshold w0 w -> sweeping env miners threshold w0 (tick w).
Proof. intros [H1 H2 H3]. split; simpl; try done. lia. Qed.

Lemma sweeping_sendAlert env miners threshold w0 w a :
  offline_justified env w0 miners threshold (LogAlert a) ->
  sweeping env miners threshold w0 w ->
  sweeping env miners threshold w0 (run (sendAlert a) env w).
Proof.
  intros Hj H. rewrite sendAlert_unfold.
  assert (Hfire : forall w1, sweeping env miners threshold w0 w1 ->
                             sweeping env miners threshold w0 (fire a env w1)).
  { intros w1 [H1 H2 (new & H3 & H4)]. split; simpl; [done|lia|].
    exists (new ++ [deliver (config (engine w1)) a]).
    split; [rewrite H3, app_assoc; reflexivity|].
    apply Forall_app. split; [exact H4|]. constructor; [|constructor].
    unfold deliver. destruct (String.eqb _ _); [exact Hj|].
    destruct Hj as (a' & m & seen & i & Ha & Hrest). exists a', m, seen, i.
    split; [exact Ha|exact Hrest]. }
  destruct (alertCooldown (engine w) !! cooldownKey a); [destruct (_ <? _)|].
  - apply sweeping_tick, H.
  - apply Hfire, sweeping_tick, H.
  - apply Hfire, H.
Qed.

Lemma Time_Sub_gt threshold t u :
  Go.minDuration <= threshold -> threshold < Go.Time_Sub t u -> threshold < t - u.
Proof.
  unfold Go.Time_Sub, Go.minDuration, Go.maxDuration, Go.MinInt64, Go.MaxInt64.
  intros H. repeat case_match; lia.
Qed.

Lemma sweeping_checkOfflineMiner env miners threshold w0 w m :
  Go.minDuration <= threshold -> In m miners ->
  sweeping env miners threshold w0 w ->
  sweeping env miners threshold w0 (run (checkOfflineMiner threshold m) env w).
Proof.
  intros Hthr Hin H. unfold checkOfflineMiner.
  destruct (Miner.Enabled m) eqn:Hen; [|exact H]. simpl negb. cbv iota.
  rewrite run_get.
  destruct (lastSeen (engine w) !! Miner.IP m) as [seen|] eqn:Hseen; [|exact H].
  rewrite run_since.
  destruct (Z.ltb_spec threshold (Go.Time_Sub (clock env (ticks w)) seen)) as [Hlt|_];
    [|apply sweeping_tick, H].
  rewrite run_when_true, run_since. rewrite run_now.
  apply sweeping_sendAlert; [|apply sweeping_tick, sweeping_tick, sweeping_tick, H].
  eexists _, m, seen, (ticks w). split; [reflexivity|].
  destruct H as [H1 H2 _].
  repeat split; try done; [congruence|].
  apply Time_Sub_gt; assumption.
Qed.

Lemma sweeping_forEach env miners threshold w0 :
  Go.minDuration <= threshold ->
  forall ms w, (forall m, In m ms -> In m miners) ->
               sweeping env miners threshold w0 w ->
               sweeping env miners threshold w0
                 (run (forEach ms (checkOfflineMiner threshold)) env w).
Proof.
  intros Hthr. induction ms as [|m ms IH]; intros w Hsub H; [exact H|].
  simpl forEach. rewrite run_seq. apply IH.
  - intros m' Hm'. apply Hsub. right. exact Hm'.
  - apply sweeping_checkOfflineMiner; [exact Hthr | apply Hsub; left; reflexivity | exact H].
Qed.

Lemma wrap64_small z : Go.MinInt64 <= z <= Go.MaxInt64 -> Go.wrap64 z = z.
Proof.
  unfold Go.wrap64, Go.MinInt64, Go.MaxInt64. intros H.
  rewrite Z.mod_small; lia.
Qed.

Lemma wrap64_range z : Go.MinInt64 <= Go.wrap64 z <= Go.MaxInt64.
Proof.
  unfold Go.wrap64, Go.MinInt64, Go.MaxInt64.
  pose proof (Z.mod_pos_bound (z + 2 ^ 63) (2 ^ 64) ltac:(lia)). lia.
Qed.

(** What the sweep delivers, with the threshold as the code computes it. *)
Lemma CheckOffline_justified env w miners :
  let secs := MinerOfflineSeconds (config (engine w)) in
  let threshold := Go.wrap64 (secs * Go.Second) in
  lastSeen (engine (run (CheckOffline miners) env w)) = lastSeen (engine w)
  /\ exists new,
       trace (run (CheckOffline miners) env w) = trace w ++ new
       /\ forall x, In x new ->
            0 < secs /\ offline_justified env w miners threshold x.
Proof.
  intros secs threshold.
  unfold CheckOffline. rewrite run_get. fold secs.
  destruct (Z.leb_spec secs 0) as [Hle|Hpos].
  - split; [reflexivity|].
    exists []. rewrite app_nil_r. split; [reflexivity|]. intros x [].
  - fold threshold.
    destruct (sweeping_forEach env miners threshold w) with (ms := miners) (w := w)
      as [H1 _ (new & H3 & H4)].
    + apply wrap64_range.
    + auto.
    + apply sweeping_refl.
    + split; [exact H1|]. exists new. split; [exact H3|].
      intros x Hx. rewrite Forall_forall in H4.
      split; [exact Hpos|]. apply H4, list_elem_of_In, Hx.
Qed.

(** C10 (as amended).  Every alert the offline sweep delivers is a
    miner-offline alert for an enabled device of the list whose last-seen
    stamp is recorded; and when the configured number of seconds fits a
    [time.Duration], the stamp lies more than that many seconds before a
    clock reading of the sweep.  No alert comes out when the configured
    number is not positive, and the sweep leaves the last-seen map as it
    found it. *)
Theorem C10_offline_only_for_enabled_seen_and_stale :
  forall env w miners,
    let secs := MinerOfflineSeconds (config (engine w)) in
    lastSeen (engine (run (CheckOffline miners) env w)) = lastSeen (engine w)
    /\ exists new,
         trace (run (CheckOffline miners) env w) = trace w ++ new
         /\ forall x, In x new ->
              exists a m seen i,
                alert_of x = Some a
                /\ Alert.Type_ a = AlertMinerOffline
                /\ Alert.MinerIP a = Miner.IP m
                /\ In m miners
                /\ Miner.Enabled m = true
                /\ lastSeen (engine w) !! Miner.IP m = Some seen
                /\ (ticks w <= i)%nat
                /\ 0 < secs
                /\ (secs * Go.Second <= Go.MaxInt64 ->
                    secs * Go.Second < clock env i - seen).
Proof.
  intros env w miners secs.
  destruct (CheckOffline_justified env w miners) as (H1 & new & H2 & H3).
  split; [exact H1|]. exists new. split; [exact H2|].
  intros x Hx.
  destruct (H3 x Hx)
    as (Hpos & a & m & seen & i & Ha & Hty & Hip & Hin & Hen & Hseen & Hi & Hlt).
  fold secs in Hpos, Hlt.
  exists a, m, seen, i. repeat split; try assumption.
  intros Hfit. rewrite wrap64_small in Hlt; [exact Hlt|].
  unfold Go.MinInt64, Go.MaxInt64, Go.Second in *. lia.
Qed.

Lemma delivers_announce cfg share prev :
  delivers AlertNewLeader (announce cfg share prev) = true.
Proof. unfold announce. destruct (String.eqb _ _); reflexivity. Qed.

Lemma CheckLeaderChange_trace share env w :
  OnNewLeader (config (engine w)) = true ->
  trace (run (CheckLeaderChange share) env w) =
  if (Share.Difficulty share <=? week_best env w)%float then trace w
  else if String.eqb (week_leader env w) ""
          || String.eqb (week_leader env w) (Share.Hostname share)
       then trace w
       else trace w ++ [announce (config (engine w)) share (week_leader env w)].
Proof.
  intros Hon. unfold week_best, week_leader, rolled, announce.
  unfold CheckLeaderChange, run, currentWeekStart, sundayMidnight, mbind, M_bind, bind,
    get, when, modify, emit, mret, M_ret, ret, time_Now.
  rewrite Hon. cbn.
  destruct (weekStart (engine w) <? weekStartOf env (clock env (ticks w))); cbn.
  - destruct (Share.Difficulty share <=? 0)%float; reflexivity.
  - destruct (Share.Difficulty share <=? weeklyBestDiff (engine w))%float; cbn;
      [reflexivity|].
    destruct (String.eqb (weeklyLeader (engine w)) ""
              || String.eqb (weeklyLeader (engine w)) (Share.Hostname share));
      cbn; [reflexivity|].
    destruct (String.eqb (WebhookURL (config (engine w))) ""); reflexivity.
Qed.

(** ** Seeding at start-up *)

Lemma seed_fold store ws now miners :
  api.GetMiners store = Some miners ->
  forall ms acc,
    (forall m, In m ms -> In m miners) ->
    seeded store ws now acc ->
    seeded store ws now
      (fold_left
         (fun '(bestDiff, leader) m =>
            match api.GetBestShareInRange store (Miner.IP m) ws now with
            | None => (bestDiff, leader)
            | Some share =>
                if (bestDiff <? Share.Difficulty share)%float
                then (Share.Difficulty share, Share.Hostname share)
                else (bestDiff, leader)
            end) ms acc).
Proof.
  intros Hms. induction ms as [|m ms IH]; intros [b l] Hsub Hacc; [exact Hacc|].
  simpl. apply IH; [intros m' Hm'; apply Hsub; right; exact Hm'|].
  destruct (api.GetBestShareInRange store (Miner.IP m) ws now) as [s|] eqn:Hs; [|exact Hacc].
  destruct (b <? Share.Difficulty s)%float eqn:Hlt; [|exact Hacc].
  right. exists miners, m, s. repeat split; try done.
  - apply Hsub. left. reflexivity.
  - exact (ltb_not_nan _ _ Hlt).
Qed.

Lemma startup_seeded cfg store env :
  let w0 := api.startup cfg store env in
  config (engine w0) = cfg
  /\ seeded store (weekStartOf env (clock env 1%nat)) (clock env 1%nat)
       (weeklyBestDiff (engine w0), weeklyLeader (engine w0)).
Proof.
  unfold api.startup, api.initWeeklyLeader. rewrite run_now.
  unfold sundayMidnight. rewrite run_bind. cbn [fst snd newWorld ticks].
  destruct (api.GetMiners store) as [miners|] eqn:Hms.
  - pose proof (seed_fold store (weekStartOf env (clock env 1%nat)) (clock env 1%nat)
                  miners Hms miners (0%float, "") (fun m H => H) (or_introl eq_refl)) as H.
    destruct (fold_left _ miners _) as [b l].
    unfold InitWeeklyLeader, currentWeekStart, sundayMidnight, run, mbind, M_bind, bind,
      modify, when, emit, mret, M_ret, ret, time_Now. cbn.
    destruct (negb (String.eqb l "")); (split; [reflexivity|exact H]).
  - split; [reflexivity|]. left. reflexivity.
Qed.

(** ** The theorems at the sample data *)

(** C2 at the sample data: a second high-temperature alert for Ultra, one
    second after the first, changes nothing. *)
Lemma C2_witness_alert_inside_window_is_dropped :
  alertCooldown (engine ex_cooling) !! cooldownKey ex_alert = Some 0
  /\ clock ex_env (ticks ex_cooling) - 0 < 5 * Go.Minute
  /\ engine (run (sendAlert ex_alert) ex_env ex_cooling) = engine ex_cooling
  /\ trace (run (sendAlert ex_alert) ex_env ex_cooling) = trace ex_cooling.
Proof.
  split; [vm_compute; reflexivity|]. split; [vm_compute; reflexivity|].
  exact (proj1 (proj1 (proj1 (C2_cooldown_per_device_and_kind ex_env ex_cooling) ex_alert)
                  0 ltac:(vm_compute; reflexivity))
           ltac:(vm_compute; reflexivity)).
Defined.

(** C3 at a new engine. *)
Lemma C3_witness_new_engine :
  MinerSnapshot.MinerIP (ex_snap 300%float 3000) = MinerSnapshot.MinerIP (ex_snap 580%float 3000)
  /\ HashrateDropPercent (config (engine ex_world)) = 20%float
  /\ lastHashrate (engine ex_world) !! "192.168.1.42" = None
  /\ alertCooldown (engine ex_world) !! pairKey "192.168.1.42" AlertHashrateDrop = None
  /\ exists new a,
       trace (run (CheckSnapshot (ex_snap 580%float 3000) ;; CheckSnapshot (ex_snap 300%float 3000))
                ex_env ex_world) = trace ex_world ++ new
       /\ filter (fun x => delivers AlertHashrateDrop x = true) new = [deliver ex_cfg a]
       /\ Alert.Type_ a = AlertHashrateDrop
       /\ Alert.MinerIP a = "192.168.1.42"
       /\ Alert.Value a = ((580 - 300) / 580 * 100)%float
       /\ (48.25 <? Alert.Value a)%float = true
       /\ (Alert.Value a <? 48.3125)%float = true.
Proof.
  split; [reflexivity|]. split; [reflexivity|].
  split; [vm_compute; reflexivity|]. split; [vm_compute; reflexivity|].
  exact (proj1 (C3_hashrate_drop_580_then_300 ex_env ex_world
                  (ex_snap 580%float 3000) (ex_snap 300%float 3000)
                  eq_refl eq_refl eq_refl eq_refl
                  ltac:(vm_compute; reflexivity) ltac:(vm_compute; reflexivity))).
Defined.

(** C6 at the sample data: a fan at 500 RPM under a floor of 1000. *)
Lemma C6_witness_slow_fan :
  0 < FanRPMBelow (config (engine ex_world))
  /\ alertCooldown (engine ex_world) !! pairKey "192.168.1.42" AlertFanLow = None
  /\ exists new,
       trace (run (CheckSnapshot (ex_snap 580%float 500)) ex_env ex_world) = trace ex_world ++ new
       /\ (0 < 500 < 1000 <-> Exists (fun x => delivers AlertFanLow x = true) new)
       /\ (0 < 500 < 1000 ->
           exists now,
             In (deliver ex_cfg (Alert.mk AlertFanLow "192.168.1.42" "BitAxe-Ultra"
                                   (TxtFanRPM 500 1000) (Go.float64_of_int 500) now [])) new).
Proof.
  split; [reflexivity|]. split; [vm_compute; reflexivity|].
  apply (C6_low_fan_alert_iff_positive_rpm_below_floor ex_env ex_world (ex_snap 580%float 500)).
  - reflexivity.
  - intros last H. vm_compute in H. discriminate H.
Defined.

(** Against C6 as stated: a fan reading of 0 is below the floor and raises
    no alert. *)
Lemma C6_stopped_fan_raises_no_alert :
  0 < FanRPMBelow (config (engine ex_world))
  /\ MinerSnapshot.FanRPM (ex_snap 580%float 0) < FanRPMBelow (config (engine ex_world))
  /\ alertCooldown (engine ex_world) !! pairKey "192.168.1.42" AlertFanLow = None
  /\ trace (run (CheckSnapshot (ex_snap 580%float 0)) ex_env ex_world) = trace ex_world.
Proof. repeat split; vm_compute; reflexivity. Qed.

(** C10 at the sample data: a miner last seen at instant 0, swept 1000 s
    later under a threshold of 300 s. *)
Lemma C10_witness_sweep :
  MinerOfflineSeconds (config (engine ex_stale)) * Go.Second <= Go.MaxInt64
  /\ exists new,
       trace (run (CheckOffline [ex_miner]) ex_slow_clock ex_stale) = trace ex_stale ++ new
       /\ forall x, In x new ->
            exists a m seen i,
              alert_of x = Some a
              /\ Alert.Type_ a = AlertMinerOffline
              /\ Alert.MinerIP a = Miner.IP m
              /\ In m [ex_miner]
              /\ Miner.Enabled m = true
              /\ lastSeen (engine ex_stale) !! Miner.IP m = Some seen
              /\ (ticks ex_stale <= i)%nat
              /\ 0 < MinerOfflineSeconds (config (engine ex_stale))
              /\ (MinerOfflineSeconds (config (engine ex_stale)) * Go.Second <= Go.MaxInt64 ->
                  MinerOfflineSeconds (config (engine ex_stale)) * Go.Second
                  < clock ex_slow_clock i - seen).
Proof.
  split; [vm_compute; discriminate|].
  exact (proj2 (C10_offline_only_for_enabled_seen_and_stale ex_slow_clock ex_stale [ex_miner])).
Defined.

(** Against C10 as stated: with 9223372037 s configured the product with
    [time.Second] wraps around to a negative threshold, and a device seen
    one second ago is reported offline. *)
Lemma C10_wrapped_threshold_reports_fresh_device :
  MinerOfflineSeconds (config (engine ex_fresh)) = 9223372037
  /\ Miner.Enabled ex_miner = true
  /\ lastSeen (engine ex_fresh) !! Miner.IP ex_miner = Some 0
  /\ ticks ex_fresh = 1%nat
  /\ clock ex_env 4%nat - 0 = 4 * Go.Second
  /\ 4 * Go.Second < MinerOfflineSeconds (config (engine ex_fresh)) * Go.Second
  /\ Go.wrap64 (MinerOfflineSeconds (config (engine ex_fresh)) * Go.Second)
     = - 9223372036709551616
  /\ trace (run (CheckOffline [ex_miner]) ex_env ex_fresh)
     = [LogAlert (Alert.mk AlertMinerOffline "192.168.1.42" "BitAxe-Ultra"
                    (TxtOffline (2 * Go.Second)) 0%float (3 * Go.Second) [])].
Proof. repeat split; vm_compute; reflexivity. Qed.

End AlertFacts.

Section RegistryFacts.
Import collector.

Lemma registry_ok_new : registry_ok NewCollector.
Proof.
  split; simpl.
  - intros ip conn H. rewrite lookup_empty in H. discriminate.
  - intros x H. set_solver.
  - intros ip ip' conn conn' H. rewrite lookup_empty in H. discriminate.
  - intros ip. rewrite lookup_empty. reflexivity.
Qed.

Lemma live_session_loops c ctx ip ip' :
  filter (fun g => goroutine_ip g = ip' /\ goroutine_ctx g ∉ cancelled c)
    (session_loops ctx ip)
  = if decide (ip = ip' /\ ctx ∉ cancelled c) then session_loops ctx ip else [].
Proof.
  unfold session_loops.
  destruct (decide (ip = ip' /\ ctx ∉ cancelled c)) as [H|H].
  - rewrite !filter_cons_True by (simpl; exact H). reflexivity.
  - rewrite !filter_cons_False by (simpl; exact H). reflexivity.
Qed.

Lemma registry_ok_AddMiner ip c : registry_ok c -> registry_ok (AddMiner ip c).
Proof.
  intros [Hb Hc Hu Hl]. unfold AddMiner.
  destruct (miners c !! ip) as [conn|] eqn:E; [split; assumption|].
  split; simpl.
  - intros ip' conn' H. destruct (decide (ip = ip')) as [->|Hne].
    + rewrite lookup_insert_eq in H. injection H as <-. simpl. lia.
    + rewrite lookup_insert_ne in H by exact Hne. apply Hb in H. lia.
  - intros x H. apply Hc in H. lia.
  - intros ip1 ip2 c1 c2 H1 H2 Heq.
    destruct (decide (ip = ip1)) as [E1|N1], (decide (ip = ip2)) as [E2|N2];
      [congruence| subst ip1 | subst ip2 |].
    + rewrite lookup_insert_eq in H1. injection H1 as <-.
      rewrite lookup_insert_ne in H2 by exact N2. apply Hb in H2. simpl in Heq. lia.
    + rewrite lookup_insert_eq in H2. injection H2 as <-.
      rewrite lookup_insert_ne in H1 by exact N1. apply Hb in H1. simpl in Heq. lia.
    + rewrite lookup_insert_ne in H1 by exact N1.
      rewrite lookup_insert_ne in H2 by exact N2. eauto.
  - intros ip'. unfold live. simpl. rewrite filter_app.
    change [pollMiner (nextCtx c) ip; connectWebSocket (nextCtx c) ip]
      with (session_loops (nextCtx c) ip).
    rewrite (live_session_loops c).
    specialize (Hl ip'). unfold live in Hl. rewrite Hl.
    destruct (decide (ip = ip')) as [->|Hne].
    + rewrite E, lookup_insert_eq. simpl.
      rewrite decide_True; [reflexivity|]. split; [reflexivity|].
      intros Hin. apply Hc in Hin. lia.
    + rewrite lookup_insert_ne by exact Hne.
      rewrite decide_False by tauto. apply app_nil_r.
Qed.

Lemma filter_live_remove c ctx0 ip :
  filter (fun g => goroutine_ip g = ip /\ goroutine_ctx g ∉ {[ctx0]} ∪ cancelled c)
    (goroutines c)
  = filter (fun g => goroutine_ctx g <> ctx0) (live c ip).
Proof.
  unfold live. rewrite list_filter_filter. apply list_filter_iff.
  intros g. rewrite not_elem_of_union, not_elem_of_singleton. tauto.
Qed.

Lemma registry_ok_RemoveMiner ip c : registry_ok c -> registry_ok (RemoveMiner ip c).
Proof.
  intros [Hb Hc Hu Hl]. unfold RemoveMiner.
  destruct (miners c !! ip) as [conn|] eqn:E; [|split; assumption].
  split; simpl.
  - intros ip' conn' H. apply lookup_delete_Some in H as [_ H]. eauto.
  - intros x H. apply elem_of_union in H as [H|H]; [|eauto].
    apply elem_of_singleton in H as ->. eauto.
  - intros ip1 ip2 c1 c2 H1 H2.
    apply lookup_delete_Some in H1 as [_ H1]. apply lookup_delete_Some in H2 as [_ H2].
    eauto.
  - intros ip'. unfold live at 1. simpl. rewrite filter_live_remove, Hl.
    destruct (decide (ip = ip')) as [<-|Hne].
    + rewrite E, lookup_delete_eq. unfold session_loops.
      rewrite !filter_cons_False by (simpl; tauto). reflexivity.
    + rewrite lookup_delete_ne by exact Hne.
      destruct (miners c !! ip') as [conn'|] eqn:E'; [|reflexivity].
      assert (cancel conn' <> cancel conn).
      { intros Heq. apply Hne. symmetry. eapply Hu; eauto. }
      unfold session_loops. rewrite !filter_cons_True by (simpl; assumption).
      reflexivity.
Qed.

(** Replacing an entry by one with the same context keeps the invariant. *)
Lemma registry_ok_update ip conn conn' c :
  miners c !! ip = Some conn -> cancel conn' = cancel conn ->
  registry_ok c ->
  registry_ok (mkCollector (<[ip := conn']> (miners c)) (nextCtx c) (cancelled c)
                 (closedConns c) (goroutines c)).
Proof.
  intros E Hsame [Hb Hc Hu Hl]. split; simpl.
  - intros ip' c' H. destruct (decide (ip = ip')) as [->|Hne].
    + rewrite lookup_insert_eq in H. injection H as <-. rewrite Hsame. eauto.
    + rewrite lookup_insert_ne in H by exact Hne. eauto.
  - exact Hc.
  - intros ip1 ip2 c1 c2 H1 H2 Heq.
    destruct (decide (ip = ip1)) as [E1|N1], (decide (ip = ip2)) as [E2|N2];
      [congruence| subst ip1 | subst ip2 |].
    + rewrite lookup_insert_eq in H1. injection H1 as <-.
      rewrite lookup_insert_ne in H2 by exact N2. eapply Hu; eauto. congruence.
    + rewrite lookup_insert_eq in H2. injection H2 as <-.
      rewrite lookup_insert_ne in H1 by exact N1. eapply Hu; eauto. congruence.
    + rewrite lookup_insert_ne in H1 by exact N1.
      rewrite lookup_insert_ne in H2 by exact N2. eauto.
  - intros ip'. specialize (Hl ip'). unfold live in *. simpl. rewrite Hl.
    destruct (decide (ip = ip')) as [<-|Hne].
    + rewrite E, lookup_insert_eq, Hsame. reflexivity.
    + rewrite lookup_insert_ne by exact Hne. reflexivity.
Qed.

Lemma registry_ok_step c op : registry_ok c -> registry_ok (step c op).
Proof.
  intros H. destruct op as [ip|ip|ip now|ip ws]; simpl.
  - apply registry_ok_AddMiner, H.
  - apply registry_ok_RemoveMiner, H.
  - unfold updateLastSeen. destruct (miners c !! ip) as [conn|] eqn:E; [|exact H].
    eapply registry_ok_update; eauto.
  - unfold setWsConn. destruct (miners c !! ip) as [conn|] eqn:E; [|exact H].
    eapply registry_ok_update; eauto.
Qed.

Lemma registry_ok_exec ops : registry_ok (exec ops).
Proof.
  unfold exec. generalize registry_ok_new. generalize NewCollector.
  induction ops as [|op ops IH]; intros c H; [exact H|].
  simpl. apply IH, registry_ok_step, H.
Qed.

(** C9.  [AddMiner] on an address already in the map returns the registry
    as it was: no entry changed, no loop started.  On an absent address it
    adds exactly one entry, a fresh session, and starts its two loops.  And
    whatever the history of additions, removals, polls and dials, the loops
    still running for an address are those of its one entry: a poll loop
    and a stream loop when it has an entry, none when it has not. *)
Theorem C9_at_most_one_session_per_address :
  (forall ip c conn, miners c !! ip = Some conn -> AddMiner ip c = c)
  /\ (forall ip c,
         miners c !! ip = None ->
         miners (AddMiner ip c) = <[ip := fresh_session ip (nextCtx c)]> (miners c)
         /\ size (miners (AddMiner ip c)) = S (size (miners c))
         /\ goroutines (AddMiner ip c) = goroutines c ++ session_loops (nextCtx c) ip)
  /\ (forall ops ip,
         live (exec ops) ip =
         match miners (exec ops) !! ip with
         | Some conn => session_loops (cancel conn) ip
         | None => []
         end).
Proof.
  split; [|split].
  - intros ip c conn H. unfold AddMiner. rewrite H. reflexivity.
  - intros ip c H. unfold AddMiner. rewrite H. simpl.
    split; [reflexivity|]. split; [|reflexivity].
    apply map_size_insert_None. exact H.
  - intros ops ip. apply (ok_live _ (registry_ok_exec ops)).
Qed.

Lemma Broadcast_full msg h :
  Go.closed (api.broadcast h) = false ->
  (Go.capacity (api.broadcast h) <= length (Go.queued (api.broadcast h)))%nat ->
  Go.send msg (api.broadcast h) = Go.Blocks
  /\ api.Broadcast msg h
     = Go.Proceeds (api.mkHub (api.clients h) (api.broadcast h)
                      (api.log h ++ [api.LogBufferFull])).
Proof.
  intros Hopen Hfull. unfold api.Broadcast, Go.select_send, Go.send. rewrite Hopen.
  destruct (Nat.ltb_spec (length (Go.queued (api.broadcast h)))
              (Go.capacity (api.broadcast h))); [lia|].
  split; reflexivity.
Qed.

Lemma Broadcast_room msg h :
  Go.closed (api.broadcast h) = false ->
  (length (Go.queued (api.broadcast h)) < Go.capacity (api.broadcast h))%nat ->
  api.Broadcast msg h
  = Go.Proceeds (api.mkHub (api.clients h)
                   (Go.mkChan (Go.queued (api.broadcast h) ++ [msg])
                      (Go.capacity (api.broadcast h)) false)
                   (api.log h)).
Proof.
  intros Hopen Hroom. unfold api.Broadcast, Go.select_send, Go.send. rewrite Hopen.
  destruct (Nat.ltb_spec (length (Go.queued (api.broadcast h)))
              (Go.capacity (api.broadcast h))); [reflexivity|lia].
Qed.

(** Publishing fills the room there is and drops the rest, one log line
    for each event dropped. *)
Lemma publish_fills msgs :
  forall h,
    Go.closed (api.broadcast h) = false ->
    exists h',
      publish msgs h = Go.Proceeds h'
      /\ api.clients h' = api.clients h
      /\ Go.closed (api.broadcast h') = false
      /\ Go.capacity (api.broadcast h') = Go.capacity (api.broadcast h)
      /\ Go.queued (api.broadcast h')
         = Go.queued (api.broadcast h) ++ take (room (api.broadcast h)) msgs
      /\ api.log h'
         = api.log h ++ repeat api.LogBufferFull (length msgs - room (api.broadcast h)).
Proof.
  induction msgs as [|msg msgs IH]; intros h Hopen.
  - exists h. simpl. rewrite take_nil, !app_nil_r. repeat split; assumption.
  - cbn [publish].
    destruct (Nat.ltb_spec (length (Go.queued (api.broadcast h)))
                (Go.capacity (api.broadcast h))) as [Hroom|Hfull].
    + rewrite (Broadcast_room msg h Hopen Hroom).
      destruct (IH (api.mkHub (api.clients h)
                      (Go.mkChan (Go.queued (api.broadcast h) ++ [msg])
                         (Go.capacity (api.broadcast h)) false)
                      (api.log h)) eq_refl)
        as (h' & E & Hc & Ho & Hcap & Hq & Hl).
      exists h'. split; [exact E|]. split; [exact Hc|]. split; [exact Ho|].
      split; [exact Hcap|].
      unfold room in *. cbn [api.broadcast api.log Go.queued Go.capacity] in Hq, Hl.
      rewrite length_app in Hq, Hl. cbn [length] in Hq, Hl.
      replace (Go.capacity (api.broadcast h) - length (Go.queued (api.broadcast h)))%nat
        with (S (Go.capacity (api.broadcast h)
                 - (length (Go.queued (api.broadcast h)) + 1)))%nat by lia.
      split; [rewrite Hq, <- app_assoc; reflexivity|exact Hl].
    + destruct (Broadcast_full msg h Hopen Hfull) as [_ ->].
      destruct (IH (api.mkHub (api.clients h) (api.broadcast h)
                      (api.log h ++ [api.LogBufferFull])) Hopen)
        as (h' & E & Hc & Ho & Hcap & Hq & Hl).
      exists h'. split; [exact E|]. split; [exact Hc|]. split; [exact Ho|].
      split; [exact Hcap|].
      unfold room in *. cbn [api.broadcast api.log] in Hq, Hl.
      replace (Go.capacity (api.broadcast h) - length (Go.queued (api.broadcast h)))%nat
        with 0%nat in * by lia.
      split; [rewrite Hq; reflexivity|].
      rewrite Hl, <- app_assoc, Nat.sub_0_r. cbn [length]. rewrite Nat.sub_0_r.
      reflexivity.
Qed.

(** C7.  On a hub whose [broadcast] channel is open, which is how
    [NewWebSocketHub] makes it and how [Broadcast] leaves it, a call of
    [Broadcast] always completes: it neither waits nor panics.  With the
    queue full, where a plain send would wait, it leaves clients and queue
    as they are and writes one log line, the message being dropped; with
    room left it appends the message to the queue and changes nothing
    else.  However many events are published in a row, every call
    completes, the queue takes what it has room for, never more than its
    capacity, and each further event is dropped and logged. *)
Theorem C7_broadcast_drops_when_queue_full :
  forall msg h,
    Go.closed (api.broadcast h) = false ->
    ((Go.capacity (api.broadcast h) <= length (Go.queued (api.broadcast h)))%nat ->
     Go.send msg (api.broadcast h) = Go.Blocks
     /\ api.Broadcast msg h
        = Go.Proceeds (api.mkHub (api.clients h) (api.broadcast h)
                         (api.log h ++ [api.LogBufferFull])))
    /\ ((length (Go.queued (api.broadcast h)) < Go.capacity (api.broadcast h))%nat ->
        api.Broadcast msg h
        = Go.Proceeds (api.mkHub (api.clients h)
                         (Go.mkChan (Go.queued (api.broadcast h) ++ [msg])
                            (Go.capacity (api.broadcast h)) false)
                         (api.log h)))
    /\ (exists h',
          api.Broadcast msg h = Go.Proceeds h'
          /\ Go.closed (api.broadcast h') = false
          /\ Go.capacity (api.broadcast h') = Go.capacity (api.broadcast h)
          /\ ((length (Go.queued (api.broadcast h)) <= Go.capacity (api.broadcast h))%nat ->
              (length (Go.queued (api.broadcast h')) <= Go.capacity (api.broadcast h))%nat))
    /\ (forall msgs,
          exists h',
            publish msgs h = Go.Proceeds h'
            /\ api.clients h' = api.clients h
            /\ Go.queued (api.broadcast h')
               = Go.queued (api.broadcast h) ++ take (room (api.broadcast h)) msgs
            /\ api.log h'
               = api.log h
                   ++ repeat api.LogBufferFull (length msgs - room (api.broadcast h)))
    /\ Go.closed (api.broadcast api.NewWebSocketHub) = false
    /\ Go.capacity (api.broadcast api.NewWebSocketHub) = 256%nat
    /\ Go.queued (api.broadcast api.NewWebSocketHub) = [].
Proof.
  intros msg h Hopen.
  split; [exact (Broadcast_full msg h Hopen)|].
  split; [exact (Broadcast_room msg h Hopen)|].
  split.
  - destruct (Nat.ltb_spec (length (Go.queued (api.broadcast h)))
                (Go.capacity (api.broadcast h))) as [Hroom|Hfull].
    + eexists. split; [exact (Broadcast_room msg h Hopen Hroom)|].
      cbn [api.broadcast Go.closed Go.capacity Go.queued].
      split; [reflexivity|]. split; [reflexivity|]. intros _.
      rewrite length_app. simpl. lia.
    + eexists. split; [exact (proj2 (Broadcast_full msg h Hopen Hfull))|].
      cbn [api.broadcast]. split; [exact Hopen|]. split; [reflexivity|]. intros H. exact H.
  - split; [|repeat split].
    intros msgs. destruct (publish_fills msgs h Hopen) as (h' & E & Hc & _ & _ & Hq & Hl).
    exists h'. repeat split; assumption.
Qed.

(** C8 (as amended).  Whatever the session state of a device, removing it
    and adding it again leaves its address with a fresh session: no
    connection, no last-seen stamp, a new context, which is what a first
    addition gives; the old context is cancelled, the old connection is
    closed and two new loops are started.  The alert engine is not part of
    the round trip: removing and adding a device leaves the evaluator as
    it was. *)
Theorem C8_readd_gives_fresh_session :
  forall ip c,
    miners (AddMiner ip (RemoveMiner ip c)) !! ip = Some (fresh_session ip (nextCtx c))
    /\ (forall c0, miners c0 !! ip = None ->
                   miners (AddMiner ip c0) !! ip = Some (fresh_session ip (nextCtx c0)))
    /\ (forall conn,
           miners c !! ip = Some conn ->
           cancel conn ∈ cancelled (AddMiner ip (RemoveMiner ip c))
           /\ (forall ws, wsConn conn = Some ws ->
                          ws ∈ closedConns (AddMiner ip (RemoveMiner ip c)))
           /\ goroutines (AddMiner ip (RemoveMiner ip c))
              = goroutines c ++ session_loops (nextCtx c) ip)
    /\ (forall s, api.evaluator (api.handleAddMiner ip (api.handleRemoveMiner ip s))
                  = api.evaluator s).
Proof.
  intros ip c.
  assert (Hfirst : forall c0, miners c0 !! ip = None ->
                     AddMiner ip c0
                     = mkCollector (<[ip := fresh_session ip (nextCtx c0)]> (miners c0))
                         (S (nextCtx c0)) (cancelled c0) (closedConns c0)
                         (goroutines c0 ++ session_loops (nextCtx c0) ip)).
  { intros c0 H. unfold AddMiner. rewrite H. reflexivity. }
  assert (Hgone : miners (RemoveMiner ip c) !! ip = None).
  { unfold RemoveMiner. destruct (miners c !! ip) eqn:E; [|exact E].
    simpl. apply lookup_delete_eq. }
  assert (Hctx : nextCtx (RemoveMiner ip c) = nextCtx c).
  { unfold RemoveMiner. destruct (miners c !! ip); reflexivity. }
  split; [|split; [|split]].
  - rewrite (Hfirst _ Hgone), Hctx. simpl. apply lookup_insert_eq.
  - intros c0 H. rewrite (Hfirst _ H). simpl. apply lookup_insert_eq.
  - intros conn H. rewrite (Hfirst _ Hgone), Hctx. simpl.
    unfold RemoveMiner. rewrite H. simpl. split; [set_solver|]. split; [|reflexivity].
    intros ws ->. set_solver.
  - intros s. reflexivity.
Qed.

(** Against C8 as stated: after the round trip the session is the fresh
    one of a first addition, but the evaluator still holds the hashrate
    and the last-seen stamp recorded before the removal. *)
Lemma C8_evaluator_state_survives_removal :
  miners (api.sessions ex_round_trip) !! "192.168.1.42"
  = Some (fresh_session "192.168.1.42" 1)
  /\ miners (api.sessions ex_first_add) !! "192.168.1.42"
     = Some (fresh_session "192.168.1.42" 0)
  /\ alerts.lastHashrate (alerts.engine (api.evaluator ex_round_trip)) !! "192.168.1.42"
     = Some 580%float
  /\ alerts.lastHashrate (alerts.engine (api.evaluator ex_first_add)) !! "192.168.1.42"
     = None
  /\ alerts.lastSeen (alerts.engine (api.evaluator ex_round_trip)) !! "192.168.1.42"
     = Some Go.Second
  /\ alerts.lastSeen (alerts.engine (api.evaluator ex_first_add)) !! "192.168.1.42"
     = None.
Proof. repeat split; vm_compute; reflexivity. Qed.

(** C7 at a new hub: of 300 events published in a row, the first 256 are
    queued and the other 44 dropped, each with its log line. *)
Lemma C7_witness_300_events :
  Go.closed (api.broadcast api.NewWebSocketHub) = false
  /\ exists h',
       publish (repeat ex_message 300) api.NewWebSocketHub = Go.Proceeds h'
       /\ api.clients h' = api.clients api.NewWebSocketHub
       /\ Go.queued (api.broadcast h')
          = Go.queued (api.broadcast api.NewWebSocketHub)
              ++ take (room (api.broadcast api.NewWebSocketHub)) (repeat ex_message 300)
       /\ api.log h'
          = api.log api.NewWebSocketHub
              ++ repeat api.LogBufferFull
                   (length (repeat ex_message 300) - room (api.broadcast api.NewWebSocketHub)).
Proof.
  split; [reflexivity|].
  exact (proj1 (proj2 (proj2 (proj2
           (C7_broadcast_drops_when_queue_full ex_message api.NewWebSocketHub eq_refl))))
           (repeat ex_message 300)).
Defined.

Example publish_300_events :
  exists h',
    publish (repeat ex_message 300) api.NewWebSocketHub = Go.Proceeds h'
    /\ length (Go.queued (api.broadcast h')) = 256%nat
    /\ length (api.log h') = 44%nat.
Proof. eexists. split; [vm_compute; reflexivity|]. split; reflexivity. Qed.

(** C9 at the sample data: a second addition of Ultra changes nothing. *)
Lemma C9_witness_second_add :
  miners (api.sessions ex_first_add) !! "192.168.1.42" = Some (fresh_session "192.168.1.42" 0)
  /\ AddMiner "192.168.1.42" (api.sessions ex_first_add) = api.sessions ex_first_add.
Proof.
  split; [vm_compute; reflexivity|].
  exact (proj1 C9_at_most_one_session_per_address "192.168.1.42" (api.sessions ex_first_add)
           (fresh_session "192.168.1.42" 0) ltac:(vm_compute; reflexivity)).
Defined.

End RegistryFacts.

Section RoundingFacts.

(** ** The conversion of a ratio rounds to the nearest binary64 *)

Lemma located_shr_1 mrs N D : located mrs N D -> located (shr_1 mrs) N (2 * D).
Proof.
  destruct mrs as [m r s]. unfold located. simpl.
  intros (HD & Hm & HT & Hr & Hs). subst r s.
  destruct m as [|[p|p|]|p]; simpl; try lia;
    (split; [lia|]); (split; [lia|]); (split; [lia|]);
    bools; simpl; split; try reflexivity; try lia.
Qed.

Lemma pow2_xO p : 2 ^ Z.pos p~0 = 2 ^ Z.pos p * 2 ^ Z.pos p.
Proof. rewrite <- Z.pow_add_r by lia. f_equal. lia. Qed.

Lemma pow2_xI p : 2 ^ Z.pos p~1 = 2 ^ Z.pos p * 2 ^ Z.pos p * 2.
Proof.
  replace (Z.pos p~1) with (Z.pos p + Z.pos p + 1) by lia.
  rewrite !Z.pow_add_r by lia. reflexivity.
Qed.

Lemma located_iter p : forall mrs N D,
  located mrs N D -> located (SpecFloat.iter_pos shr_1 p mrs) N (2 ^ Zpos p * D).
Proof.
  induction p as [p IH|p IH|]; intros mrs N D H; simpl SpecFloat.iter_pos.
  - apply located_shr_1 in H. apply IH in H. apply IH in H.
    replace (2 ^ Z.pos p~1 * D) with (2 ^ Z.pos p * (2 ^ Z.pos p * (2 * D))); [exact H|].
    rewrite pow2_xI. ring.
  - apply IH in H. apply IH in H.
    replace (2 ^ Z.pos p~0 * D) with (2 ^ Z.pos p * (2 ^ Z.pos p * D)); [exact H|].
    rewrite pow2_xO. ring.
  - apply located_shr_1 in H. exact H.
Qed.

Lemma located_shr mrs e k N D :
  0 <= k -> located mrs N D ->
  snd (shr mrs e k) = e + k /\ located (fst (shr mrs e k)) N (2 ^ k * D).
Proof.
  intros Hk H. destruct k as [|p|p]; simpl; try lia.
  - split; [lia|]. replace (1 * D) with D by lia.
    destruct D; exact H.
  - split; [reflexivity|]. apply located_iter. exact H.
Qed.

Lemma digits2_bounds p :
  2 ^ (Zpos (digits2_pos p) - 1) <= Zpos p < 2 ^ Zpos (digits2_pos p).
Proof.
  induction p as [p IH|p IH|]; simpl digits2_pos.
  - rewrite Pos2Z.inj_succ.
    replace (Z.succ (Z.pos (digits2_pos p)) - 1) with (Z.succ (Z.pos (digits2_pos p) - 1)) by lia.
    rewrite !Z.pow_succ_r by lia. lia.
  - rewrite Pos2Z.inj_succ.
    replace (Z.succ (Z.pos (digits2_pos p)) - 1) with (Z.succ (Z.pos (digits2_pos p) - 1)) by lia.
    rewrite !Z.pow_succ_r by lia. lia.
  - simpl. lia.
Qed.

Lemma Zdigits2_bounds m :
  0 < m -> 2 ^ (Zdigits2 m - 1) <= m < 2 ^ Zdigits2 m.
Proof. destruct m as [|p|p]; try lia. intros _. apply digits2_bounds. Qed.

Lemma Zdigits2_nonneg m : 0 <= Zdigits2 m.
Proof. destruct m; simpl; lia. Qed.

Lemma Zdigits2_le m k : 0 <= k -> 0 <= m < 2 ^ k -> Zdigits2 m <= k.
Proof.
  intros Hk Hm. destruct (Z.eq_dec m 0) as [->|Hne]; [simpl; lia|].
  pose proof (Zdigits2_bounds m ltac:(lia)) as [Hlo _].
  destruct (Z_le_gt_dec (Zdigits2 m) k) as [|Hgt]; [assumption|exfalso].
  pose proof (Z.pow_le_mono_r 2 k (Zdigits2 m - 1) ltac:(lia) ltac:(lia)). lia.
Qed.

Lemma Zdigits2_ge m k : 0 <= k -> 2 ^ k <= m -> k + 1 <= Zdigits2 m.
Proof.
  intros Hk Hm.
  assert (0 < m) by (pose proof (Z.pow_pos_nonneg 2 k ltac:(lia) Hk); lia).
  pose proof (Zdigits2_bounds m ltac:(lia)) as [_ Hhi].
  pose proof (Zdigits2_nonneg m).
  destruct (Z_le_gt_dec (k + 1) (Zdigits2 m)) as [|Hgt]; [assumption|exfalso].
  pose proof (Z.pow_le_mono_r 2 (Zdigits2 m) k ltac:(lia) ltac:(lia)). lia.
Qed.

Lemma shr_record_of_loc_m m l : shr_m (shr_record_of_loc m l) = m.
Proof. destruct l as [|[]]; reflexivity. Qed.

Lemma located_new_location N d :
  0 <= N -> 0 < d ->
  located (shr_record_of_loc (N / d) (new_location d (N mod d))) N d.
Proof.
  intros HN Hd.
  pose proof (Z.div_mod N d ltac:(lia)) as E.
  pose proof (Z.mod_pos_bound N d Hd) as Hr.
  pose proof (Z.div_pos N d HN Hd) as Hq.
  set (q := N / d) in *. set (r := N mod d) in *.
  assert (HT : 2 * N - 2 * (q * d) = 2 * r) by lia.
  unfold located. rewrite shr_record_of_loc_m, HT.
  split; [exact Hd|]. split; [exact Hq|]. split; [lia|].
  unfold new_location.
  destruct (Z.even d) eqn:Ev.
  - unfold new_location_even.
    destruct (Z.eqb_spec r 0) as [->|Hne]; simpl.
    + bools; simpl; split; try reflexivity; lia.
    + destruct (Z.compare_spec (2 * r) d); simpl; bools; simpl; split; try reflexivity; lia.
  - assert (Hodd : Z.odd d = true) by (rewrite <- Z.negb_even, Ev; reflexivity).
    apply Z.odd_spec in Hodd as [k Hk].
    unfold new_location_odd.
    destruct (Z.eqb_spec r 0) as [->|Hne]; simpl.
    + bools; simpl; split; try reflexivity; lia.
    + destruct (Z.compare_spec (2 * r + 1) d); simpl; bools; simpl;
        split; try reflexivity; lia.
Qed.

Lemma round_nearest_even_located mrs N D :
  located mrs N D ->
  let m1 := round_nearest_even (shr_m mrs) (loc_of_shr_record mrs) in
  shr_m mrs <= m1 <= shr_m mrs + 1
  /\ Z.abs (2 * N - 2 * (m1 * D)) <= D
  /\ (m1 = shr_m mrs + 1 -> D <= 2 * N - 2 * (shr_m mrs * D)).
Proof.
  destruct mrs as [m r s]. unfold located. simpl.
  intros (HD & Hm & HT & Hr & Hs). subst r s.
  bools; simpl; try lia; try (destruct (Z.even m)); lia.
Qed.

Lemma shr_nonpos mrs e k : k <= 0 -> shr mrs e k = (mrs, e).
Proof. destruct k; try reflexivity. lia. Qed.

Lemma fexp_ge_emin e : -1074 <= fexp prec emax e.
Proof. unfold fexp, emin, prec, emax. lia. Qed.

Lemma fexp_eq e : fexp prec emax e = Z.max (e - 53) (-1074).
Proof. reflexivity. Qed.

Lemma pow2_pos k : 0 <= k -> 0 < 2 ^ k.
Proof. intros. apply Z.pow_pos_nonneg; lia. Qed.

Lemma pow2_le a b : 0 <= a <= b -> 2 ^ a <= 2 ^ b.
Proof. intros. apply Z.pow_le_mono_r; lia. Qed.

Lemma pow2_split a b : 0 <= a -> 0 <= b -> 2 ^ (a + b) = 2 ^ a * 2 ^ b.
Proof. intros. apply Z.pow_add_r; assumption. Qed.

Lemma located_floor mrs N D :
  located mrs N D -> 0 < D /\ 0 <= shr_m mrs /\ shr_m mrs * D <= N < (shr_m mrs + 1) * D.
Proof. unfold located. intros (HD & Hm & HT & _). lia. Qed.

(** After the first shift the mantissa has at most 53 bits, and exactly 53
    above the smallest exponent. *)
Lemma first_shift_bits q e0 l N D mrs1 :
  0 <= q ->
  located (shr_record_of_loc q l) N D ->
  0 <= fexp prec emax (Zdigits2 q + e0) - e0 ->
  located mrs1 N (2 ^ (fexp prec emax (Zdigits2 q + e0) - e0) * D) ->
  shr_m mrs1 < 2 ^ 53
  /\ (-1074 < fexp prec emax (Zdigits2 q + e0) -> 2 ^ 52 <= shr_m mrs1).
Proof.
  intros Hq Hpos Hk1 Hp1.
  apply located_floor in Hpos as (HD & _ & HqN). rewrite shr_record_of_loc_m in HqN.
  apply located_floor in Hp1 as (HD1 & Hm & HmN).
  set (m := shr_m mrs1) in *.
  rewrite fexp_eq in *.
  remember (Z.max (Zdigits2 q + e0 - 53) (-1074) - e0) as k1 eqn:Ek1.
  pose proof (pow2_pos k1 Hk1) as HP. remember (2 ^ k1) as P eqn:EP.
  destruct (Z.eq_dec q 0) as [->|Hq0].
  - simpl Zdigits2 in *.
    assert (Hm0 : m = 0) by nia. split; [lia|]. intros He1. lia.
  - pose proof (Zdigits2_bounds q ltac:(lia)) as [Hlo Hhi].
    pose proof (Zdigits2_nonneg q) as Hdq.
    set (dq := Zdigits2 q) in *.
    assert (Hdq1 : 1 <= dq).
    { destruct (Z_le_gt_dec 1 dq); [assumption|].
      assert (E0 : dq = 0) by lia. rewrite E0 in Hhi. simpl in Hhi. lia. }
    split.
    + assert (Hle : 2 ^ dq <= P * 2 ^ 53).
      { subst P. rewrite <- pow2_split by lia. apply pow2_le. lia. }
      assert (m * (P * D) < 2 ^ 53 * (P * D)) by nia.
      apply (Z.mul_lt_mono_pos_r (P * D)); [nia|assumption].
    + intros He1.
      assert (Ek : dq - 1 = k1 + 52) by lia.
      assert (Hge : P * 2 ^ 52 <= q).
      { subst P. rewrite <- pow2_split by lia. rewrite <- Ek. exact Hlo. }
      assert (2 ^ 52 * (P * D) < (m + 1) * (P * D)) by nia.
      assert (2 ^ 52 < m + 1).
      { apply (Z.mul_lt_mono_pos_r (P * D)); [nia|assumption]. }
      lia.
Qed.

Lemma binary_round_aux_spec q e0 l N D :
  0 <= q -> e0 <= 0 ->
  located (shr_record_of_loc q l) N D ->
  e0 <= fexp prec emax (Zdigits2 q + e0) ->
  match binary_round_aux prec emax false q e0 l with
  | S754_zero false => e0 <= -1074 /\ 2 * N <= 2 ^ (-1074 - e0) * D
  | S754_finite false m e =>
      bounded prec emax m e = true /\ e0 <= e
      /\ Z.abs (2 * N - 2 * (Zpos m * (2 ^ (e - e0) * D))) <= 2 ^ (e - e0) * D
  | S754_infinity false => (2 ^ 54 - 1) * (2 ^ (970 - e0) * D) <= N
  | _ => False
  end.
Proof.
  intros Hq He0 Hpos Hpre.
  unfold binary_round_aux, shr_fexp.
  assert (Hk1 : 0 <= fexp prec emax (Zdigits2 q + e0) - e0) by lia.
  destruct (located_shr (shr_record_of_loc q l) e0 _ N D Hk1 Hpos) as [He1 Hp1].
  destruct (shr (shr_record_of_loc q l) e0 (fexp prec emax (Zdigits2 q + e0) - e0))
    as [mrs1 e1].
  cbn [fst snd] in He1, Hp1.
  destruct (first_shift_bits q e0 l N D mrs1 Hq Hpos Hk1 Hp1) as [F1 F2].
  destruct (round_nearest_even_located mrs1 N _ Hp1) as (Hm1 & Hb & Hup).
  apply located_floor in Hp1 as (HD1 & Hm & HmN).
  assert (Ee1 : e1 = fexp prec emax (Zdigits2 q + e0)) by lia.
  pose proof (fexp_ge_emin (Zdigits2 q + e0)) as Hemin.
  rewrite <- Ee1 in F2, Hemin.
  assert (Ek : fexp prec emax (Zdigits2 q + e0) - e0 = e1 - e0) by lia.
  rewrite Ek in *. clear Ek Ee1 Hpre Hpos.
  remember (shr_m mrs1) as m eqn:Em.
  remember (round_nearest_even m (loc_of_shr_record mrs1)) as m1 eqn:Em1.
  clear Em Em1 mrs1.
  pose proof (pow2_pos (e1 - e0) Hk1) as HP.
  remember (2 ^ (e1 - e0)) as P eqn:EP.
  cbn [shr_record_of_loc].
  destruct (Z.eq_dec m1 (2 ^ 53)) as [E53|N53].
  - (* the rounding carried into a 54th bit *)
    subst m1. change (Zdigits2 (2 ^ 53)) with 54.
    replace (fexp prec emax (54 + e1) - e1) with 1 by (rewrite fexp_eq; lia).
    change (2 ^ 53) with 9007199254740992. cbn [shr SpecFloat.iter_pos shr_1 shr_m].
    destruct (Z.leb_spec (e1 + 1) (emax - prec)) as [Hfit|Hover].
    + split; [|split; [lia|]].
      * unfold bounded, canonical_mantissa.
        change (Z.pos (digits2_pos 4503599627370496)) with 53.
        rewrite fexp_eq. apply andb_true_intro. split; [apply Z.eqb_eq; lia|].
        apply Z.leb_le. exact Hfit.
      * replace (e1 + 1 - e0) with (e1 - e0 + 1) by lia.
        rewrite pow2_split, <- EP by lia. change (2 ^ 1) with 2.
        change (2 ^ 53) with 9007199254740992 in Hb. lia.
    + unfold emax, prec in Hover.
      assert (Hm53 : m = 2 ^ 53 - 1) by lia.
      assert (HT : P * D <= 2 * N - 2 * (m * (P * D))) by (apply Hup; lia).
      assert (HPge : 2 * 2 ^ (970 - e0) <= P).
      { subst P. change 2 with (2 ^ 1) at 1. rewrite <- pow2_split by lia.
        apply pow2_le. lia. }
      pose proof (pow2_pos (970 - e0) ltac:(lia)) as HQ.
      remember (2 ^ (970 - e0)) as Q eqn:EQ.
      change (2 ^ 54) with 18014398509481984. change (2 ^ 53) with 9007199254740992 in Hm53.
      subst m. nia.
  - (* no carry *)
    assert (Hlt : m1 < 2 ^ 53) by lia.
    assert (Hd1 : Zdigits2 m1 <= 53) by (apply Zdigits2_le; lia).
    rewrite shr_nonpos by (rewrite fexp_eq; lia).
    cbn [shr_m].
    destruct m1 as [|p|p]; [| |lia].
    + (* rounded to zero *)
      assert (e1 = -1074) by lia.
      split; [lia|]. subst e1. rewrite <- EP. lia.
    + destruct (Z.leb_spec e1 (emax - prec)) as [Hfit|Hover].
      * split; [|split; [lia|rewrite <- EP; exact Hb]].
        unfold bounded, canonical_mantissa.
        change (Z.pos (digits2_pos p)) with (Zdigits2 (Z.pos p)).
        apply andb_true_intro. split; [|apply Z.leb_le; exact Hfit].
        apply Z.eqb_eq. rewrite fexp_eq.
        destruct (Z.eq_dec e1 (-1074)) as [->|Hne]; [lia|].
        assert (53 <= Zdigits2 (Z.pos p)).
        { apply (Zdigits2_ge (Z.pos p) 52); lia. }
        lia.
      * unfold emax, prec in Hover.
        assert (Hm52 : 2 ^ 52 <= m) by (apply F2; lia).
        assert (HPge : 4 * 2 ^ (970 - e0) <= P).
        { subst P. change 4 with (2 ^ 2). rewrite <- pow2_split by lia.
          apply pow2_le. lia. }
        pose proof (pow2_pos (970 - e0) ltac:(lia)) as HQ.
        remember (2 ^ (970 - e0)) as Q eqn:EQ.
        change (2 ^ 54) with 18014398509481984. change (2 ^ 52) with 4503599627370496 in Hm52.
        nia.
Qed.

Lemma div_core_enough_bits n d :
  0 < n -> 0 < d ->
  let e0 := Z.min (fexp prec emax (Zdigits2 n - Zdigits2 d)) 0 in
  e0 <= fexp prec emax (Zdigits2 (n * 2 ^ (- e0) / d) + e0).
Proof.
  intros Hn Hd e0.
  pose proof (Zdigits2_bounds n Hn) as [Hnlo Hnhi].
  pose proof (Zdigits2_bounds d Hd) as [Hdlo Hdhi].
  pose proof (Zdigits2_nonneg n) as Hd1. pose proof (Zdigits2_nonneg d) as Hd2.
  assert (H1 : 1 <= Zdigits2 n).
  { destruct (Z_le_gt_dec 1 (Zdigits2 n)); [assumption|].
    assert (E0 : Zdigits2 n = 0) by lia. rewrite E0 in Hnhi. simpl in Hnhi. lia. }
  subst e0. rewrite !fexp_eq.
  remember (Zdigits2 n) as d1. remember (Zdigits2 d) as d2.
  destruct (Z_le_gt_dec (Z.min (Z.max (d1 - d2 - 53) (-1074)) 0) (-1074)) as [|Hgt]; [lia|].
  assert (Hs : 0 <= - Z.min (Z.max (d1 - d2 - 53) (-1074)) 0) by lia.
  remember (- Z.min (Z.max (d1 - d2 - 53) (-1074)) 0) as s eqn:Es.
  pose proof (pow2_pos s Hs) as HS.
  assert (Hq : 2 ^ 52 <= n * 2 ^ s / d).
  { apply Z.div_le_lower_bound; [exact Hd|].
    destruct (Z_le_gt_dec (d1 - d2 - 53) 0) as [Hle|Hg].
    - assert (Es' : s = 53 - d1 + d2) by lia.
      assert (Hp : 2 ^ (d2 + 52) = 2 ^ (d1 - 1) * 2 ^ s).
      { rewrite <- pow2_split by lia. f_equal; lia. }
      assert (Hp' : 2 ^ (d2 + 52) = 2 ^ d2 * 2 ^ 52) by (apply pow2_split; lia).
      remember (2 ^ s) as S. remember (2 ^ d2) as D2. remember (2 ^ (d1 - 1)) as D1.
      change (2 ^ 52) with 4503599627370496 in *. nia.
    - assert (Es' : s = 0) by lia. rewrite Es'. change (2 ^ 0) with 1.
      assert (Hp : 2 ^ d2 * 2 ^ 53 <= 2 ^ (d1 - 1)).
      { rewrite <- pow2_split by lia. apply pow2_le. lia. }
      remember (2 ^ d2) as D2. remember (2 ^ (d1 - 1)) as D1.
      change (2 ^ 53) with 9007199254740992 in *.
      change (2 ^ 52) with 4503599627370496 in *. nia. }
  assert (53 <= Zdigits2 (n * 2 ^ s / d)) by (apply (Zdigits2_ge _ 52); [lia|exact Hq]).
  replace (- - s) with s in * by lia.
  lia.
Qed.

Lemma iter_shr_1_zero p :
  SpecFloat.iter_pos shr_1 p (Build_shr_record 0 false false) = Build_shr_record 0 false false.
Proof. induction p as [p IH|p IH|]; simpl; rewrite ?IH; reflexivity. Qed.

Lemma shr_zero e k :
  fst (shr (Build_shr_record 0 false false) e k) = Build_shr_record 0 false false.
Proof. destruct k; simpl; try reflexivity. apply iter_shr_1_zero. Qed.

Lemma binary_round_aux_zero e : binary_round_aux prec emax false 0 e loc_Exact = S754_zero false.
Proof.
  unfold binary_round_aux, shr_fexp. cbn [shr_record_of_loc Zdigits2].
  pose proof (shr_zero e (fexp prec emax (0 + e) - e)) as H1.
  destruct (shr _ e _) as [mrs1 e1]. cbn [fst] in H1. subst mrs1.
  cbn [shr_m loc_of_shr_record round_nearest_even shr_record_of_loc Zdigits2].
  pose proof (shr_zero e1 (fexp prec emax (0 + e1) - e1)) as H2.
  destruct (shr _ e1 _) as [mrs2 e2]. cbn [fst] in H2. subst mrs2. reflexivity.
Qed.

Lemma div_core_eq n d :
  0 <= n -> 0 < d ->
  let e0 := Z.min (fexp prec emax (Zdigits2 n - Zdigits2 d)) 0 in
  SFdiv_core_binary prec emax n 0 d 0
  = (n * 2 ^ (- e0) / d, e0, new_location d ((n * 2 ^ (- e0)) mod d)).
Proof.
  intros Hn Hd e0. unfold SFdiv_core_binary.
  rewrite !Z.add_0_r, !Z.sub_0_r. fold e0.
  assert (He0 : e0 <= 0) by (subst e0; lia).
  replace (0 - e0) with (- e0) by lia.
  assert (Hm : match - e0 with
               | Z.pos _ => Z.shiftl n (- e0)
               | 0 => n
               | Z.neg _ => 0
               end = n * 2 ^ (- e0)).
  { destruct (- e0) as [|p|p] eqn:E; [simpl; lia| |lia].
    rewrite Z.shiftl_mul_pow2 by lia. reflexivity. }
  rewrite Hm.
  unfold Z.div, Z.modulo. destruct (Z.div_eucl (n * 2 ^ (- e0)) d) as [q r]. reflexivity.
Qed.

Lemma float64_of_ratio_half_ulp n d :
  0 <= n -> 0 < d -> within_half_ulp n d (Prim2SF (Go.float64_of_ratio n d)) = true.
Proof.
  intros Hn Hd. unfold Go.float64_of_ratio.
  rewrite (div_core_eq n d Hn Hd). cbv zeta.
  remember (Z.min (fexp prec emax (Zdigits2 n - Zdigits2 d)) 0) as e0 eqn:Ee0.
  assert (He0 : -1074 <= e0 <= 0).
  { subst e0. rewrite fexp_eq. lia. }
  destruct (Z.eq_dec n 0) as [->|Hn0].
  - rewrite Z.mul_0_l, Z.div_0_l, Z.mod_0_l by lia.
    assert (El : new_location d 0 = loc_Exact).
    { unfold new_location, new_location_even, new_location_odd.
      destruct (Z.even d); reflexivity. }
    rewrite El, binary_round_aux_zero, Prim2SF_SF2Prim by reflexivity.
    cbn [within_half_ulp]. apply Z.leb_le. lia.
  - assert (Hpre := div_core_enough_bits n d ltac:(lia) Hd). cbv zeta in Hpre.
    rewrite <- Ee0 in Hpre.
    assert (HP := pow2_pos (- e0) ltac:(lia)).
    assert (HN : 0 <= n * 2 ^ (- e0)) by nia.
    pose proof (binary_round_aux_spec _ e0 _ _ d
                  (Z.div_pos _ _ HN Hd) ltac:(lia)
                  (located_new_location (n * 2 ^ (- e0)) d HN Hd) Hpre) as H.
    destruct (binary_round_aux prec emax false _ e0 _) as [[]|[]| |[] m e];
      try contradiction.
    + (* zero *)
      rewrite Prim2SF_SF2Prim by reflexivity. cbn [within_half_ulp].
      destruct H as [H1 H2].
      replace (- e0) with 1074 in H2 by lia. replace (-1074 - e0) with 0 in H2 by lia.
      apply Z.leb_le. change (2 ^ 0) with 1 in H2. lia.
    + (* overflow *)
      rewrite Prim2SF_SF2Prim by reflexivity. cbn [within_half_ulp].
      apply Z.leb_le.
      assert (Hp : 2 ^ (970 - e0) = 2 ^ 970 * 2 ^ (- e0)).
      { rewrite <- pow2_split by lia. f_equal; lia. }
      rewrite Hp in H. remember (2 ^ (- e0)) as P.
      change (2 ^ 1024 - 2 ^ 970) with ((2 ^ 54 - 1) * 2 ^ 970).
      remember ((2 ^ 54 - 1) * 2 ^ 970) as K eqn:EK.
      assert (K * d * P <= n * P) by (subst K; nia).
      apply (Z.mul_le_mono_pos_r _ _ P); [exact HP|assumption].
    + (* a finite number *)
      destruct H as (Hb & Hge & Hab).
      rewrite Prim2SF_SF2Prim by exact Hb. cbn [within_half_ulp]. rewrite Hb. cbn [andb].
      destruct (Z.leb_spec 0 e) as [Hpos|Hneg]; apply Z.leb_le.
      * assert (Hp : 2 ^ (e - e0) = 2 ^ e * 2 ^ (- e0)).
        { rewrite <- pow2_split by lia. f_equal; lia. }
        rewrite Hp in Hab.
        pose proof (pow2_pos e Hpos) as HE.
        remember (2 ^ (- e0)) as P. remember (2 ^ e) as E.
        replace (2 * (n * P) - 2 * (Z.pos m * (E * P * d)))
          with ((2 * n - 2 * (Z.pos m * E * d)) * P) in Hab by ring.
        replace (E * P * d) with (E * d * P) in Hab by ring.
        rewrite Z.abs_mul, (Z.abs_eq P) in Hab by lia.
        apply (Z.mul_le_mono_pos_r _ _ P); [exact HP|assumption].
      * assert (Hp : 2 ^ (- e0) = 2 ^ (- e) * 2 ^ (e - e0)).
        { rewrite <- pow2_split by lia. f_equal; lia. }
        rewrite Hp in Hab.
        pose proof (pow2_pos (e - e0) ltac:(lia)) as HE.
        remember (2 ^ (e - e0)) as P'. remember (2 ^ (- e)) as E.
        replace (2 * (n * (E * P')) - 2 * (Z.pos m * (P' * d)))
          with ((2 * (n * E) - 2 * (Z.pos m * d)) * P') in Hab by ring.
        replace (P' * d) with (d * P') in Hab by ring.
        rewrite Z.abs_mul, (Z.abs_eq P') in Hab by lia.
        apply (Z.mul_le_mono_pos_r _ _ P'); [exact HE|assumption].
Qed.

End RoundingFacts.

Section ParserFacts.
Import storage regexp collector.

Lemma strip_prefix_app l s : strip_prefix l (l ++ s) = Some s.
Proof.
  induction l as [|a l IH]; [destruct s; reflexivity|].
  simpl. rewrite Ascii.eqb_refl. exact IH.
Qed.

Lemma strip_prefix_Some l s r : strip_prefix l s = Some r -> s = l ++ r.
Proof.
  revert s. induction l as [|a l IH]; intros s H.
  - destruct s; simpl in H; injection H as <-; reflexivity.
  - destruct s as [|b s]; simpl in H; [discriminate|].
    destruct (Ascii.eqb_spec a b) as [->|]; [|discriminate].
    rewrite (IH _ H). reflexivity.
Qed.

Lemma index_None l s : index l s = None -> forall p, strip_prefix l (drop p s) = None.
Proof.
  induction s as [|b s IH]; simpl; intros H p.
  - destruct (strip_prefix l []) eqn:E; [discriminate|]. rewrite drop_nil. exact E.
  - destruct (strip_prefix l (b :: s)) eqn:E; [discriminate|].
    destruct (index l s) eqn:E'; [discriminate|].
    destruct p as [|p]; [exact E|]. simpl. apply IH. reflexivity.
Qed.

Lemma index_Some_before l s n :
  index l s = Some n -> forall p, (p < n)%nat -> strip_prefix l (drop p s) = None.
Proof.
  revert n. induction s as [|b s IH]; simpl; intros n H p Hp.
  - destruct (strip_prefix l []); [|discriminate]. injection H as <-. lia.
  - destruct (strip_prefix l (b :: s)) eqn:E; [injection H as <-; lia|].
    destruct (index l s) as [m|] eqn:E'; [|discriminate]. injection H as <-.
    destruct p as [|p]; [exact E|]. simpl. apply (IH m eq_refl). lia.
Qed.

Lemma index_app_None l a b : index l (a ++ b) = None -> index l b = None.
Proof.
  induction a as [|x a IH]; [done|]. simpl.
  destruct (strip_prefix l (x :: a ++ b)); [discriminate|].
  destruct (index l (a ++ b)); [discriminate|]. intros _. apply IH. reflexivity.
Qed.

(** ** [span] *)

Lemma span_all c a b : all_in c a = true -> (length a <= span c (a ++ b))%nat.
Proof.
  induction a as [|x a IH]; simpl; [lia|].
  intros H. apply andb_prop in H as [H1 H2]. rewrite H1. specialize (IH H2). lia.
Qed.

Lemma span_exact c a b :
  all_in c a = true -> stops c b = true -> span c (a ++ b) = length a.
Proof.
  induction a as [|x a IH]; simpl.
  - intros _ H. destruct b as [|y b]; [reflexivity|]. simpl in *.
    destruct (in_class c y); [discriminate|reflexivity].
  - intros H Hb. apply andb_prop in H as [H1 H2]. rewrite H1, IH; done.
Qed.

Lemma span_le c s : (span c s <= length s)%nat.
Proof. induction s as [|x s IH]; simpl; [lia|]. destruct (in_class c x); lia. Qed.

Lemma span_take c s k : (k <= span c s)%nat -> all_in c (take k s) = true.
Proof.
  revert k. induction s as [|x s IH]; intros k H; [rewrite take_nil; reflexivity|].
  destruct k as [|k]; [reflexivity|]. simpl in *.
  destruct (in_class c x); [|lia]. simpl. apply IH. lia.
Qed.

(** ** [try_down] *)

Lemma try_down_at {A} (f : nat -> option A) lo n k r :
  (lo <= k <= n)%nat -> f k = Some r ->
  (forall j, (k < j <= n)%nat -> f j = None) ->
  try_down f lo n = Some r.
Proof.
  intros Hk Hf Hnone. induction n as [|n IH].
  - assert (k = 0)%nat as -> by lia. simpl.
    destruct (0 <? lo)%nat eqn:E; [apply Nat.ltb_lt in E; lia|]. rewrite Hf. reflexivity.
  - simpl. destruct (S n <? lo)%nat eqn:E; [apply Nat.ltb_lt in E; lia|].
    destruct (decide (k = S n)) as [->|Hne]; [rewrite Hf; reflexivity|].
    rewrite (Hnone (S n)) by lia. apply IH; [lia|]. intros j Hj. apply Hnone. lia.
Qed.

Lemma try_down_Some {A} (f : nat -> option A) lo n r :
  try_down f lo n = Some r -> exists k, (lo <= k <= n)%nat /\ f k = Some r.
Proof.
  induction n as [|n IH]; simpl.
  - destruct (0 <? lo)%nat eqn:E; [discriminate|]. apply Nat.ltb_ge in E.
    destruct (f 0%nat) eqn:F; [|discriminate]. intros [= <-]. exists 0%nat. split; [lia|exact F].
  - destruct (S n <? lo)%nat eqn:E; [discriminate|]. apply Nat.ltb_ge in E.
    destruct (f (S n)) eqn:F.
    + intros [= <-]. exists (S n). split; [lia|exact F].
    + intros H. destruct (IH H) as (k & Hk & Hf). exists k. split; [lia|exact Hf].
Qed.

Lemma try_down_None {A} (f : nat -> option A) lo n :
  (forall k, (lo <= k <= n)%nat -> f k = None) -> try_down f lo n = None.
Proof.
  intros H. destruct (try_down f lo n) as [r|] eqn:E; [|reflexivity].
  apply try_down_Some in E as (k & Hk & Hf). rewrite (H k Hk) in Hf. discriminate.
Qed.

(** ** One step of [match_here] *)

Lemma match_lit l re s : match_here (Lit l :: re) (l ++ s) = match_here re s.
Proof. simpl. rewrite strip_prefix_app. reflexivity. Qed.

Lemma match_lit_absent l re s :
  strip_prefix l s = None -> match_here (Lit l :: re) s = None.
Proof. simpl. intros ->. reflexivity. Qed.

(** A greedy [c*] gives back what it took too much: if the rest of the
    pattern matches right after [a] and nowhere later, the match is that one. *)
Lemma match_star_greedy c re a b r :
  all_in c a = true -> match_here re b = Some r ->
  (forall j, (0 < j)%nat -> match_here re (drop j b) = None) ->
  match_here (Star c :: re) (a ++ b) = Some r.
Proof.
  intros Ha Hb Hlater. simpl.
  apply (try_down_at _ 0 _ (length a)).
  - split; [lia|]. apply span_all. exact Ha.
  - rewrite drop_app_length. exact Hb.
  - intros j Hj. rewrite drop_app_ge by lia. apply Hlater. lia.
Qed.

Lemma match_star c re a b r :
  all_in c a = true -> stops c b = true -> match_here re b = Some r ->
  match_here (Star c :: re) (a ++ b) = Some r.
Proof.
  intros Ha Hs Hb. simpl. rewrite span_exact by assumption.
  apply (try_down_at _ 0 _ (length a)); [lia| |lia].
  rewrite drop_app_length. exact Hb.
Qed.

Lemma match_plus c re a b r :
  a <> [] -> all_in c a = true -> stops c b = true -> match_here re b = Some r ->
  match_here (Plus c :: re) (a ++ b) = Some r.
Proof.
  intros Hne Ha Hs Hb. simpl. rewrite span_exact by assumption.
  apply (try_down_at _ 1 _ (length a)); [|rewrite drop_app_length; exact Hb|lia].
  destruct a; [done|simpl; lia].
Qed.

Lemma match_group c re a b rest groups :
  a <> [] -> all_in c a = true -> stops c b = true ->
  match_here re b = Some (rest, groups) ->
  match_here (Group c :: re) (a ++ b) = Some (rest, a :: groups).
Proof.
  intros Hne Ha Hs Hb. simpl. rewrite span_exact by assumption.
  apply (try_down_at _ 1 _ (length a)); [| |lia].
  - destruct a; [done|simpl; lia].
  - rewrite drop_app_length, Hb, take_app_length. reflexivity.
Qed.

(** ** [find] *)

Lemma find_at re pre s rest groups :
  (forall p, (p < length pre)%nat -> match_here re (drop p (pre ++ s)) = None) ->
  match_here re s = Some (rest, groups) ->
  find re (pre ++ s) = Some (take (length s - length rest) s :: groups).
Proof.
  intros Hbefore Hs. induction pre as [|x pre IH]; simpl.
  - destruct s; simpl in *; rewrite Hs; reflexivity.
  - assert (H0 := Hbefore 0%nat). simpl in H0. rewrite H0 by lia. apply IH.
    intros p Hp. apply (Hbefore (S p)). simpl. lia.
Qed.

Lemma find_None re s :
  (forall p, match_here re (drop p s) = None) -> find re s = None.
Proof.
  induction s as [|x s IH]; intros H; simpl.
  - assert (H0 := H 0%nat). simpl in H0. rewrite H0. reflexivity.
  - assert (H0 := H 0%nat). simpl in H0. rewrite H0. apply IH.
    intros p. apply (H (S p)).
Qed.

Lemma bytes_app a b : bytes (a +:+ b) = bytes a ++ bytes b.
Proof. induction a as [|x a IH]; [reflexivity|]. cbn. rewrite <- IH. reflexivity. Qed.

(** ** Classes of bytes that exclude one another *)

Lemma digit_not_space x : in_class Digit x = true -> in_class Space x = false.
Proof. by_cases_on_byte x. Qed.
Lemma hex_not_space x : in_class HexDigit x = true -> in_class Space x = false.
Proof. by_cases_on_byte x. Qed.
Lemma digit_or_dot_not_space x : in_class DigitOrDot x = true -> in_class Space x = false.
Proof. by_cases_on_byte x. Qed.
Lemma space_not_digit x : in_class Space x = true -> in_class Digit x = false.
Proof. by_cases_on_byte x. Qed.
Lemma space_not_d x : in_class Space x = true -> Ascii.eqb x "d" = false.
Proof. by_cases_on_byte x. Qed.
Lemma digit_or_dot_not_d x : in_class DigitOrDot x = true -> Ascii.eqb x "d" = false.
Proof. by_cases_on_byte x. Qed.
Lemma digit_is_hex x : in_class Digit x = true -> in_class HexDigit x = true.
Proof. by_cases_on_byte x. Qed.

Lemma stops_after c c' a b :
  (forall x, in_class c' x = true -> in_class c x = false) ->
  a <> [] -> all_in c' a = true -> stops c (a ++ b) = true.
Proof.
  intros Hex Hne Ha. destruct a as [|x a]; [done|]. simpl in *.
  apply andb_prop in Ha as [Hx _]. rewrite (Hex x Hx). reflexivity.
Qed.

Lemma stops_app c a b : stops c a = true -> stops c b = true -> stops c (a ++ b) = true.
Proof. destruct a; simpl; auto. Qed.

(** ** A label that does not come again *)

Lemma none_is_class c ch s :
  (forall x, in_class c x = true -> Ascii.eqb x ch = false) ->
  all_in c s = true -> none_is ch s = true.
Proof.
  intros H. induction s as [|x s IH]; simpl; [done|].
  intros Hs. apply andb_prop in Hs as [Hx Hs]. rewrite (H x Hx), IH; done.
Qed.

Lemma none_is_app ch a b : none_is ch (a ++ b) = none_is ch a && none_is ch b.
Proof. apply forallb_app. Qed.

(** After bytes that all differ from the first byte of a label, the label
    occurs only where it occurs in what follows them. *)
Lemma label_not_inside ch l x y :
  none_is ch x = true -> index (ch :: l) y = None ->
  forall p, strip_prefix (ch :: l) (drop p (x ++ y)) = None.
Proof.
  intros Hx Hy. induction x as [|b x IH]; intros p.
  - apply index_None. exact Hy.
  - simpl in Hx. apply andb_prop in Hx as [Hb Hx].
    destruct p as [|p]; [|apply IH; exact Hx].
    simpl. rewrite Ascii.eqb_sym. apply negb_true_iff in Hb. rewrite Hb. reflexivity.
Qed.

(** The same for a text that starts with the label itself. *)
Lemma label_not_again ch l x y re :
  none_is ch (l ++ x) = true -> index (ch :: l) y = None ->
  forall j, (0 < j)%nat ->
            match_here (Lit (ch :: l) :: re) (drop j ((ch :: l) ++ x ++ y)) = None.
Proof.
  intros Hx Hy j Hj. apply match_lit_absent.
  destruct j as [|j]; [lia|]. simpl. rewrite app_assoc.
  apply label_not_inside; assumption.
Qed.

(** ** The part both share patterns end with: [.*diff\s+([\d.]+)] *)

Lemma match_diff_part middle sp4 diff tail :
  all_in AnyChar middle = true ->
  sp4 <> [] -> all_in Space sp4 = true ->
  diff <> [] -> all_in DigitOrDot diff = true ->
  stops DigitOrDot tail = true ->
  index (bytes "diff") tail = None ->
  match_here diff_part (middle ++ bytes "diff" ++ sp4 ++ diff ++ tail)
  = Some (tail, [diff]).
Proof.
  intros Hm Hs4 Hs4' Hd Hd' Ht Hi. unfold diff_part.
  apply match_star_greedy; [exact Hm| |].
  - unfold lit. rewrite match_lit.
    apply match_plus; [exact Hs4|exact Hs4'| |].
    + apply (stops_after _ DigitOrDot); [apply digit_or_dot_not_space|exact Hd|exact Hd'].
    + apply match_group; [exact Hd|exact Hd'|exact Ht|reflexivity].
  - unfold lit. change (bytes "diff") with ("d"%char :: bytes "iff").
    rewrite (app_assoc sp4 diff tail).
    apply label_not_again; [|exact Hi].
    rewrite !none_is_app.
    rewrite (none_is_class Space "d" sp4 space_not_d Hs4').
    rewrite (none_is_class DigitOrDot "d" diff digit_or_dot_not_d Hd').
    reflexivity.
Qed.

(** ** The NerdQAxe pattern on a NerdQAxe line *)

Lemma match_nerdqaxe gap sp1 job sp2 sp3 asic middle sp4 diff tail :
  all_in AnyChar gap = true ->
  index (bytes "Job ID:")
    (sp1 ++ job ++ sp2 ++ bytes "AsicNr:" ++ sp3 ++ asic ++ middle
         ++ bytes "diff" ++ sp4 ++ diff ++ tail) = None ->
  all_in Space sp1 = true ->
  job <> [] -> all_in Digit job = true ->
  sp2 <> [] -> all_in Space sp2 = true ->
  all_in Space sp3 = true ->
  asic <> [] -> all_in Digit asic = true ->
  stops Digit middle = true ->
  all_in AnyChar middle = true ->
  sp4 <> [] -> all_in Space sp4 = true ->
  diff <> [] -> all_in DigitOrDot diff = true ->
  stops DigitOrDot tail = true ->
  index (bytes "diff") tail = None ->
  match_here shareRegexNerdQAxe
    (bytes "asic_result:" ++ gap ++ bytes "Job ID:" ++ sp1 ++ job ++ sp2
       ++ bytes "AsicNr:" ++ sp3 ++ asic ++ middle ++ bytes "diff" ++ sp4 ++ diff ++ tail)
  = Some (tail, [job; asic; diff]).
Proof.
  intros Hgap Hjob Hsp1 Hj Hj' Hsp2 Hsp2' Hsp3 Ha Ha' Hmid Hmid' Hsp4 Hsp4' Hd Hd' Ht Hi.
  unfold shareRegexNerdQAxe, lit. rewrite match_lit.
  apply match_star_greedy; [exact Hgap| |].
  - rewrite match_lit.
    apply match_star; [exact Hsp1| |].
    { apply (stops_after _ Digit); [apply digit_not_space|exact Hj|exact Hj']. }
    apply match_group; [exact Hj|exact Hj'| |].
    { apply (stops_after _ Space); [apply space_not_digit|exact Hsp2|exact Hsp2']. }
    apply match_plus; [exact Hsp2|exact Hsp2'|reflexivity|].
    rewrite match_lit.
    apply match_star; [exact Hsp3| |].
    { apply (stops_after _ Digit); [apply digit_not_space|exact Ha|exact Ha']. }
    apply match_group; [exact Ha|exact Ha'| |].
    { apply stops_app; [exact Hmid|reflexivity]. }
    pose proof (match_diff_part middle sp4 diff tail Hmid' Hsp4 Hsp4' Hd Hd' Ht Hi) as H.
    unfold diff_part, lit in H. rewrite H. reflexivity.
  - change (bytes "Job ID:") with ("J"%char :: bytes "ob ID:").
    apply (label_not_again "J" (bytes "ob ID:") []); [reflexivity|exact Hjob].
Qed.

(** ** The AxeOS pattern on an AxeOS line *)

Lemma match_axeos gap sp1 job sp2 sp3 asic middle sp4 diff tail :
  all_in AnyChar gap = true ->
  index (bytes "ID:")
    (sp1 ++ job ++ bytes "," ++ sp2 ++ bytes "ASIC nr:" ++ sp3 ++ asic ++ middle
         ++ bytes "diff" ++ sp4 ++ diff ++ tail) = None ->
  all_in Space sp1 = true ->
  job <> [] -> all_in HexDigit job = true ->
  all_in Space sp2 = true ->
  all_in Space sp3 = true ->
  asic <> [] -> all_in Digit asic = true ->
  stops Digit middle = true ->
  all_in AnyChar middle = true ->
  sp4 <> [] -> all_in Space sp4 = true ->
  diff <> [] -> all_in DigitOrDot diff = true ->
  stops DigitOrDot tail = true ->
  index (bytes "diff") tail = None ->
  match_here shareRegexAxeOS
    (bytes "asic_result:" ++ gap ++ bytes "ID:" ++ sp1 ++ job ++ bytes "," ++ sp2
       ++ bytes "ASIC nr:" ++ sp3 ++ asic ++ middle ++ bytes "diff" ++ sp4 ++ diff ++ tail)
  = Some (tail, [job; asic; diff]).
Proof.
  intros Hgap Hjob Hsp1 Hj Hj' Hsp2 Hsp3 Ha Ha' Hmid Hmid' Hsp4 Hsp4' Hd Hd' Ht Hi.
  unfold shareRegexAxeOS, lit. rewrite match_lit.
  apply match_star_greedy; [exact Hgap| |].
  - rewrite match_lit.
    apply match_star; [exact Hsp1| |].
    { apply (stops_after _ HexDigit); [apply hex_not_space|exact Hj|exact Hj']. }
    apply match_group; [exact Hj|exact Hj'|reflexivity|].
    rewrite match_lit.
    apply match_star; [exact Hsp2|reflexivity|].
    rewrite match_lit.
    apply match_star; [exact Hsp3| |].
    { apply (stops_after _ Digit); [apply digit_not_space|exact Ha|exact Ha']. }
    apply match_group; [exact Ha|exact Ha'| |].
    { apply stops_app; [exact Hmid|reflexivity]. }
    pose proof (match_diff_part middle sp4 diff tail Hmid' Hsp4 Hsp4' Hd Hd' Ht Hi) as H.
    unfold diff_part, lit in H. rewrite H. reflexivity.
  - change (bytes "ID:") with ("I"%char :: bytes "D:").
    apply (label_not_again "I" (bytes "D:") []); [reflexivity|exact Hjob].
Qed.

Lemma digit_value_written a :
  is_digit a = true -> strconv.digit_value a = default 0 (digit_of a).
Proof. by_cases_on_byte a. Qed.

Lemma forallb_snoc {A} (f : A -> bool) l a :
  forallb f (l ++ [a]) = forallb f l && f a.
Proof. rewrite forallb_app. simpl. rewrite andb_true_r. reflexivity. Qed.

(** The parser's reading of a string of digits is the number written. *)
Lemma decimal_written ds : all_in Digit ds = true -> strconv.decimal ds = written ds.
Proof.
  unfold strconv.decimal, written, all_in.
  induction ds as [|a ds IH] using rev_ind; intros H; [reflexivity|].
  rewrite forallb_snoc in H. apply andb_prop in H as [Hds Ha].
  rewrite fold_left_app, rev_app_distr. simpl.
  rewrite (IH Hds), (digit_value_written a Ha). lia.
Qed.

Lemma scan_digits s :
  forall mant frac sd,
    all_in Digit s = true ->
    strconv.scan_decimal s true mant frac sd
    = if sd || nonempty s
      then Some (fold_left (fun n a => 10 * n + strconv.digit_value a) s mant,
                 frac + Z.of_nat (length s))
      else None.
Proof.
  induction s as [|a s IH]; intros mant frac sd H.
  - simpl. rewrite orb_false_r, Z.add_0_r. reflexivity.
  - change (all_in Digit (a :: s)) with (is_digit a && all_in Digit s) in H.
    apply andb_prop in H as [Ha Hs].
    cbn [strconv.scan_decimal]. rewrite Ha, (IH _ _ _ Hs).
    cbn [orb nonempty fold_left length]. rewrite orb_true_r.
    do 2 f_equal. lia.
Qed.

Lemma point_not_digit a : Ascii.eqb a "." = true -> is_digit a = false.
Proof. intros H. apply Ascii.eqb_eq in H. subst a. reflexivity. Qed.

Lemma scan_decimal_written s :
  forall mant sd,
    all_in Digit (before_point s) = true -> all_in Digit (after_point s) = true ->
    strconv.scan_decimal s false mant 0 sd
    = if sd || nonempty (before_point s ++ after_point s)
      then Some (fold_left (fun n a => 10 * n + strconv.digit_value a)
                   (before_point s ++ after_point s) mant,
                 Z.of_nat (length (after_point s)))
      else None.
Proof.
  induction s as [|a s IH]; intros mant sd Hb Ha.
  - simpl. rewrite orb_false_r. reflexivity.
  - cbn [before_point after_point] in *. cbn [strconv.scan_decimal].
    destruct (Ascii.eqb a ".") eqn:E.
    + rewrite (point_not_digit a E), (scan_digits s mant 0 sd Ha). reflexivity.
    + change (all_in Digit (a :: before_point s))
        with (is_digit a && all_in Digit (before_point s)) in Hb.
      apply andb_prop in Hb as [Hd Hb]. rewrite Hd, (IH _ _ Hb Ha).
      cbn [orb app nonempty fold_left]. rewrite orb_true_r. reflexivity.
Qed.

(** The parser scans a decimal to the number it writes. *)
Lemma is_decimal_scan s :
  is_decimal s = true ->
  strconv.scan_decimal s false 0 0 false
  = Some (decimal_num s, Z.of_nat (length (after_point s))).
Proof.
  unfold is_decimal, decimal_num. intros H.
  apply andb_prop in H as [H Hne]. apply andb_prop in H as [Hb Ha].
  rewrite (scan_decimal_written s 0 false Hb Ha), Hne. cbn [orb].
  rewrite <- decimal_written; [reflexivity|].
  unfold all_in in *. rewrite forallb_app, Hb, Ha. reflexivity.
Qed.

Lemma ParseFloat_written s :
  is_decimal (bytes s) = true ->
  strconv.ParseFloat s = Go.float64_of_ratio (decimal_num (bytes s)) (decimal_den (bytes s)).
Proof.
  intros H. unfold strconv.ParseFloat. rewrite (is_decimal_scan _ H). reflexivity.
Qed.

Lemma place_nonneg a s z : place a s = Some z -> 0 <= z.
Proof.
  revert z. induction s as [|b s IH]; intros z; simpl; [discriminate|].
  destruct (Ascii.eqb a b); [intros [= <-]; lia|].
  destruct (place a s) as [z'|]; [|discriminate].
  intros [= <-]. specialize (IH z' eq_refl). lia.
Qed.

Lemma written_rev_nonneg ds : 0 <= written_rev ds.
Proof.
  induction ds as [|a ds IH]; simpl; [lia|].
  unfold digit_of. destruct (place a _) as [z|] eqn:E; simpl; [|lia].
  apply place_nonneg in E. lia.
Qed.

Lemma decimal_num_nonneg s : 0 <= decimal_num s.
Proof. apply written_rev_nonneg. Qed.

Lemma decimal_den_pos s : 0 < decimal_den s.
Proof. unfold decimal_den. apply Z.pow_pos_nonneg; lia. Qed.

(** The difficulty read from a decimal lies within half a unit in the last
    place of the number written. *)
Lemma ParseFloat_nearest s :
  is_decimal (bytes s) = true ->
  within_half_ulp (decimal_num (bytes s)) (decimal_den (bytes s))
    (Prim2SF (strconv.ParseFloat s)) = true.
Proof.
  intros H. rewrite (ParseFloat_written s H).
  apply float64_of_ratio_half_ulp; [apply decimal_num_nonneg|apply decimal_den_pos].
Qed.

Lemma Atoi_written s :
  s <> [] -> all_in Digit s = true -> written s <= Go.MaxInt64 ->
  strconv.Atoi (string_of_list_ascii s) = written s.
Proof.
  intros Hne Hd Hfit. unfold strconv.Atoi. rewrite list_ascii_of_string_of_list_ascii.
  rewrite <- (decimal_written s Hd) in Hfit |- *.
  destruct s as [|a s]; [done|].
  assert (Ha : in_class Digit a = true) by (simpl in Hd; apply andb_prop in Hd; tauto).
  assert (Hm : Ascii.eqb a "-" = false /\ Ascii.eqb a "+" = false).
  { clear -Ha. destruct a as [[] [] [] [] [] [] [] []]; vm_compute in Ha |- *;
      (split; congruence). }
  destruct Hm as [-> ->].
  change (forallb is_digit (a :: s)) with (all_in Digit (a :: s)). rewrite Hd.
  destruct (Z.ltb_spec Go.MaxInt64 (strconv.decimal (a :: s))); [lia|reflexivity].
Qed.

Lemma nonempty_true s : nonempty s = true -> s <> [].
Proof. destruct s; [discriminate|done]. Qed.

Lemma absent_true l s : absent l s = true -> index l s = None.
Proof. unfold absent. destruct (index l s); [discriminate|done]. Qed.

Lemma first_at_true l s n : first_at l s n = true -> index l s = Some n.
Proof.
  unfold first_at. destruct (index l s) as [m|]; [|discriminate].
  intros H. apply Nat.eqb_eq in H. congruence.
Qed.

(** ** From the engine to [Parse] *)

Lemma string_of_bytes s : string_of_list_ascii (bytes s) = s.
Proof. apply string_of_list_ascii_of_string. Qed.

Lemma FindStringSubmatch_at re pre s rest groups line :
  bytes line = pre ++ s ->
  (forall p, (p < length pre)%nat -> match_here re (drop p (pre ++ s)) = None) ->
  match_here re s = Some (rest, groups) ->
  FindStringSubmatch re line
  = Some (map string_of_list_ascii (take (length s - length rest) s :: groups)).
Proof.
  intros E Hb Hs. unfold FindStringSubmatch. rewrite E.
  rewrite (find_at re pre s rest groups Hb Hs). reflexivity.
Qed.

Lemma index_app_Some l a b : index l b <> None -> index l (a ++ b) <> None.
Proof. intros H E. apply H. exact (index_app_None l a b E). Qed.

Lemma index_drop_Some l k s : index l (drop k s) <> None -> index l s <> None.
Proof. rewrite <- (take_drop k s) at 2. apply index_app_Some. Qed.

(** A match contains every literal of the pattern. *)
Lemma match_here_literals re :
  forall s r, match_here re s = Some r ->
              forall l, In l (literals re) -> index l s <> None.
Proof.
  induction re as [|it re IH]; intros s r H l Hin; [destruct Hin|].
  destruct it as [l0|c|c|c]; simpl in H, Hin.
  - destruct (strip_prefix l0 s) as [s'|] eqn:E; [|discriminate].
    apply strip_prefix_Some in E as ->. destruct Hin as [<-|Hin].
    + destruct l0, s'; simpl; rewrite ?Ascii.eqb_refl, ?strip_prefix_app; discriminate.
    + apply index_app_Some. exact (IH _ _ H l Hin).
  - apply try_down_Some in H as (k & _ & H). apply (index_drop_Some l k).
    exact (IH _ _ H l Hin).
  - apply try_down_Some in H as (k & _ & H). apply (index_drop_Some l k).
    exact (IH _ _ H l Hin).
  - apply try_down_Some in H as (k & _ & H).
    destruct (match_here re (drop k s)) as [[rest gs]|] eqn:E; [|discriminate].
    apply (index_drop_Some l k). exact (IH _ _ E l Hin).
Qed.

Lemma find_literals re s :
  forall l, In l (literals re) -> index l s = None -> find re s = None.
Proof.
  intros l Hin Habs. apply find_None. intros p.
  destruct (match_here re (drop p s)) as [r|] eqn:E; [|reflexivity].
  exfalso. apply (index_drop_Some l p s); [|exact Habs].
  exact (match_here_literals re _ _ E l Hin).
Qed.

Lemma FindStringSubmatch_absent re line l :
  In l (literals re) -> index l (bytes line) = None ->
  FindStringSubmatch re line = None.
Proof.
  intros Hin Habs. unfold FindStringSubmatch.
  rewrite (find_literals re _ l Hin Habs). reflexivity.
Qed.

Lemma Parse_nerdqaxe now minerIP line matches :
  FindStringSubmatch shareRegexNerdQAxe line = Some matches ->
  Parse now minerIP line = Some (share_of now minerIP matches).
Proof. unfold Parse. intros ->. reflexivity. Qed.

Lemma Parse_axeos now minerIP line matches :
  FindStringSubmatch shareRegexNerdQAxe line = None ->
  FindStringSubmatch shareRegexAxeOS line = Some matches ->
  Parse now minerIP line = Some (share_of now minerIP matches).
Proof. unfold Parse. intros -> ->. reflexivity. Qed.

Lemma Parse_none now minerIP line :
  FindStringSubmatch shareRegexNerdQAxe line = None ->
  FindStringSubmatch shareRegexAxeOS line = None ->
  Parse now minerIP line = None.
Proof. unfold Parse. intros -> ->. reflexivity. Qed.

(** C4.  A well-formed NerdQAxe line yields the share whose job id is the
    decimal counter of the line, whose ASIC index is the number written
    after [AsicNr:] and whose difficulty is the binary64 nearest to the
    decimal written after [diff], within half a unit in the last place of
    it; a well-formed AxeOS line yields the same with the hexadecimal token
    after [ID:] as job id.  The NerdQAxe pattern is tried first and its
    match returned; the AxeOS pattern is tried only when the first found
    nothing. *)
Theorem C4_share_line_yields_its_fields :
  (forall now minerIP l,
      nq_wf l = true ->
      exists difficulty,
        Parse now minerIP (nq_text l)
        = Some (Share.mk 0 minerIP "" now (written (bytes (nq_asic l))) difficulty (nq_job l))
        /\ difficulty = Go.float64_of_ratio (decimal_num (bytes (nq_diff l)))
                          (decimal_den (bytes (nq_diff l)))
        /\ within_half_ulp (decimal_num (bytes (nq_diff l))) (decimal_den (bytes (nq_diff l)))
             (Prim2SF difficulty) = true)
  /\ (forall now minerIP l,
         ax_wf l = true ->
         exists difficulty,
           Parse now minerIP (ax_text l)
           = Some (Share.mk 0 minerIP "" now (written (bytes (ax_asic l))) difficulty
                     (ax_job l))
           /\ difficulty = Go.float64_of_ratio (decimal_num (bytes (ax_diff l)))
                             (decimal_den (bytes (ax_diff l)))
           /\ within_half_ulp (decimal_num (bytes (ax_diff l)))
                (decimal_den (bytes (ax_diff l))) (Prim2SF difficulty) = true)
  /\ (forall now minerIP line matches,
         FindStringSubmatch shareRegexNerdQAxe line = Some matches ->
         Parse now minerIP line = Some (share_of now minerIP matches))
  /\ (forall now minerIP line matches,
         FindStringSubmatch shareRegexNerdQAxe line = None ->
         FindStringSubmatch shareRegexAxeOS line = Some matches ->
         Parse now minerIP line = Some (share_of now minerIP matches)).
Proof.
  split; [|split; [|split]].
  - intros now minerIP l H. split_wf H.
    apply first_at_true in H. apply absent_true in W17, W.
    apply nonempty_true in W15, W13, W10, W5, W3.
    apply Z.leb_le in W8.
    assert (Htext : bytes (nq_text l) =
              bytes (nq_prefix l) ++
              (bytes "asic_result:" ++ bytes (nq_gap l) ++ bytes "Job ID:"
                 ++ bytes (nq_sp1 l) ++ bytes (nq_job l) ++ bytes (nq_sp2 l)
                 ++ bytes "AsicNr:" ++ bytes (nq_sp3 l) ++ bytes (nq_asic l)
                 ++ bytes (nq_middle l) ++ bytes "diff" ++ bytes (nq_sp4 l)
                 ++ bytes (nq_diff l) ++ bytes (nq_tail l))).
    { unfold nq_text, nq_after_job. rewrite !bytes_app. reflexivity. }
    unfold nq_after_job in W17. rewrite !bytes_app in W17.
    exists (strconv.ParseFloat (nq_diff l)).
    rewrite (Parse_nerdqaxe now minerIP _ _
               (FindStringSubmatch_at _ _ _ _ _ _ Htext
                  ltac:(intros p Hp; rewrite <- Htext; unfold shareRegexNerdQAxe, lit;
                        apply match_lit_absent; exact (index_Some_before _ _ _ H p Hp))
                  (match_nerdqaxe _ _ _ _ _ _ _ _ _ _
                     W18 W17 W16 W15 W14 W13 W12 W11 W10 W9 W7 W6 W5 W4 W3 W2 W0 W))).
    unfold share_of, submatch. cbn [map nth].
    rewrite (Atoi_written _ W10 W9 W8), !string_of_bytes.
    split; [reflexivity|].
    split; [exact (ParseFloat_written _ W1)|exact (ParseFloat_nearest _ W1)].
  - intros now minerIP l H. split_wf H.
    apply first_at_true in H. apply absent_true in W18, W16, W.
    apply nonempty_true in W14, W10, W5, W3.
    apply Z.leb_le in W8.
    assert (Htext : bytes (ax_text l) =
              bytes (ax_prefix l) ++
              (bytes "asic_result:" ++ bytes (ax_gap l) ++ bytes "ID:"
                 ++ bytes (ax_sp1 l) ++ bytes (ax_job l) ++ bytes ","
                 ++ bytes (ax_sp2 l) ++ bytes "ASIC nr:" ++ bytes (ax_sp3 l)
                 ++ bytes (ax_asic l) ++ bytes (ax_middle l) ++ bytes "diff"
                 ++ bytes (ax_sp4 l) ++ bytes (ax_diff l) ++ bytes (ax_tail l))).
    { unfold ax_text, ax_after_id. rewrite !bytes_app. reflexivity. }
    unfold ax_after_id in W16. rewrite !bytes_app in W16.
    exists (strconv.ParseFloat (ax_diff l)).
    rewrite (Parse_axeos now minerIP _ _
               (FindStringSubmatch_absent shareRegexNerdQAxe _ (bytes "Job ID:")
                  ltac:(right; left; reflexivity) W18)
               (FindStringSubmatch_at _ _ _ _ _ _ Htext
                  ltac:(intros p Hp; rewrite <- Htext; unfold shareRegexAxeOS, lit;
                        apply match_lit_absent; exact (index_Some_before _ _ _ H p Hp))
                  (match_axeos _ _ _ _ _ _ _ _ _ _
                     W17 W16 W15 W14 W13 W12 W11 W10 W9 W7 W6 W5 W4 W3 W2 W0 W))).
    unfold share_of, submatch. cbn [map nth].
    rewrite (Atoi_written _ W10 W9 W8), !string_of_bytes.
    split; [reflexivity|].
    split; [exact (ParseFloat_written _ W1)|exact (ParseFloat_nearest _ W1)].
  - intros now minerIP line matches. apply Parse_nerdqaxe.
  - intros now minerIP line matches. apply Parse_axeos.
Qed.

(** ** Fields a line must carry *)

Lemma has_field_drop l blanks c k s :
  has_field l blanks c (drop k s) = true -> has_field l blanks c s = true.
Proof.
  revert s. induction k as [|k IH]; intros s H; [rewrite drop_0 in H; exact H|].
  destruct s as [|x s]; [exact H|]. simpl in H. apply IH in H.
  simpl. rewrite H. apply orb_true_r.
Qed.

Lemma has_field_here l blanks c s :
  field_here l blanks c s = true -> has_field l blanks c s = true.
Proof. intros H. destruct s; simpl; rewrite H; reflexivity. Qed.

Lemma span_pos c s k : (0 < k <= span c s)%nat -> exists x s', s = x :: s' /\ in_class c x = true.
Proof.
  destruct s as [|x s]; simpl; [lia|]. destruct (in_class c x) eqn:E; [eauto|lia].
Qed.

Lemma span_drop_lt c s k :
  (k < span c s)%nat -> exists x s', drop k s = x :: s' /\ in_class c x = true.
Proof.
  revert k. induction s as [|x s IH]; intros k H; simpl in H; [lia|].
  destruct (in_class c x) eqn:E; [|lia].
  destruct k as [|k]; [simpl; eauto|]. simpl. apply IH. lia.
Qed.

(** A group of a class that excludes blanks, matched after [k] blanks,
    was matched after all the blanks. *)
Lemma value_after_blanks c s k k' :
  (forall x, in_class c x = true -> in_class Space x = false) ->
  (k <= span Space s)%nat -> (1 <= k' <= span c (drop k s))%nat ->
  k = span Space s.
Proof.
  intros Hdisj Hk Hk'. destruct (decide (k = span Space s)) as [|Hne]; [done|].
  exfalso. destruct (span_drop_lt Space s k) as (x & s' & E & Hx); [lia|].
  destruct (span_pos c (drop k s) k' Hk') as (y & s'' & E' & Hy).
  rewrite E in E'. injection E' as -> _. rewrite (Hdisj _ Hy) in Hx. discriminate.
Qed.

Lemma match_field_here l blanks c re s r :
  (blanks <= 1)%nat ->
  (forall x, in_class c x = true -> in_class Space x = false) ->
  match_here (Lit l :: Blanks blanks :: Group c :: re) s = Some r ->
  field_here l blanks c s = true.
Proof.
  intros Hb Hdisj H. unfold field_here.
  cbn [match_here] in H. destruct (strip_prefix l s) as [s'|]; [|discriminate].
  assert (H' : exists k, (blanks <= k <= span Space s')%nat
                         /\ match_here (Group c :: re) (drop k s') = Some r).
  { destruct blanks as [|[|b]]; [| |lia]; cbn [Blanks match_here] in H;
      apply try_down_Some in H as (k & Hk & H); exists k; split; [lia|exact H| lia|exact H]. }
  destruct H' as (k & Hk & H'). cbn [match_here] in H'.
  apply try_down_Some in H' as (k' & Hk' & _).
  assert (k = span Space s') as <- by (apply (value_after_blanks c s' k k'); [done|lia|lia]).
  apply andb_true_intro. split; [apply Nat.leb_le; lia|apply Nat.ltb_lt; lia].
Qed.

(** A match of a pattern that holds [label blanks (value)] contains the field. *)
Lemma match_has_field l blanks c re2 :
  (blanks <= 1)%nat ->
  (forall x, in_class c x = true -> in_class Space x = false) ->
  forall re1 s r,
    match_here (re1 ++ Lit l :: Blanks blanks :: Group c :: re2) s = Some r ->
    has_field l blanks c s = true.
Proof.
  intros Hb Hdisj. induction re1 as [|it re1 IH]; intros s r H.
  - apply has_field_here. exact (match_field_here l blanks c re2 s r Hb Hdisj H).
  - destruct it as [l0|c0|c0|c0]; simpl in H.
    + destruct (strip_prefix l0 s) as [s'|] eqn:E; [|discriminate].
      apply strip_prefix_Some in E as ->.
      apply (has_field_drop _ _ _ (length l0)). rewrite drop_app_length. exact (IH _ _ H).
    + apply try_down_Some in H as (k & _ & H). exact (has_field_drop _ _ _ k _ (IH _ _ H)).
    + apply try_down_Some in H as (k & _ & H). exact (has_field_drop _ _ _ k _ (IH _ _ H)).
    + apply try_down_Some in H as (k & _ & H).
      destruct (match_here _ (drop k s)) as [[rest gs]|] eqn:E; [|discriminate].
      exact (has_field_drop _ _ _ k _ (IH _ _ E)).
Qed.

Lemma find_without_field l blanks c re1 re2 s :
  (blanks <= 1)%nat ->
  (forall x, in_class c x = true -> in_class Space x = false) ->
  has_field l blanks c s = false ->
  find (re1 ++ Lit l :: Blanks blanks :: Group c :: re2) s = None.
Proof.
  intros Hb Hdisj Hno. apply find_None. intros p.
  destruct (match_here _ (drop p s)) as [r|] eqn:E; [|reflexivity].
  apply (match_has_field l blanks c re2 Hb Hdisj) in E.
  apply has_field_drop in E. congruence.
Qed.

Lemma has_token_drop l blanks c f k s :
  has_token l blanks c f (drop k s) = true -> has_token l blanks c f s = true.
Proof.
  revert s. induction k as [|k IH]; intros s H; [rewrite drop_0 in H; exact H|].
  destruct s as [|x s]; [exact H|]. simpl in H. apply IH in H.
  simpl. rewrite H. apply orb_true_r.
Qed.

Lemma has_token_here l blanks c f s :
  token_here l blanks c f s = true -> has_token l blanks c f s = true.
Proof. intros H. destruct s; simpl; rewrite H; reflexivity. Qed.

(** What follows a value cannot start with a byte of the value's class:
    the value matched is the longest there is, and the follower is there. *)
Lemma follower_after_value c f re v k r :
  f <> AnyFollow ->
  (forall x, in_class c x = true -> follows f [x] = false) ->
  (1 <= k <= span c v)%nat ->
  match_here (next_item f ++ re) (drop k v) = Some r ->
  k = span c v /\ follows f (drop (span c v) v) = true.
Proof.
  intros Hf Hdisj Hk H.
  assert (Hfol : follows f (drop k v) = true).
  { destruct f; [congruence| |]; cbn [next_item app match_here lit] in H.
    - apply try_down_Some in H as (j & Hj & _).
      destruct (span_pos Space (drop k v) j Hj) as (y & s' & -> & Hy). exact Hy.
    - destruct (drop k v) as [|y s']; [discriminate|].
      change (match (if Ascii.eqb "," y then Some s' else None) with
              | Some s'' => match_here re s''
              | None => None
              end = Some r) in H.
      cbn [follows]. destruct (Ascii.eqb "," y); [reflexivity|discriminate]. }
  destruct (decide (k = span c v)) as [->|Hne]; [split; [reflexivity|exact Hfol]|].
  exfalso. destruct (span_drop_lt c v k) as (x & s' & E & Hx); [lia|].
  rewrite E in Hfol. pose proof (Hdisj x Hx) as Hno.
  destruct f; [congruence| |]; simpl in Hfol, Hno; congruence.
Qed.

Lemma match_token_here l blanks c f re s r :
  (blanks <= 1)%nat ->
  (forall x, in_class c x = true -> in_class Space x = false) ->
  f <> AnyFollow ->
  (forall x, in_class c x = true -> follows f [x] = false) ->
  match_here (Lit l :: Blanks blanks :: Group c :: next_item f ++ re) s = Some r ->
  token_here l blanks c f s = true.
Proof.
  intros Hb Hdisj Hf Hfol H. unfold token_here.
  cbn [match_here] in H. destruct (strip_prefix l s) as [s'|]; [|discriminate].
  assert (H' : exists k, (blanks <= k <= span Space s')%nat
                         /\ match_here (Group c :: next_item f ++ re) (drop k s') = Some r).
  { destruct blanks as [|[|b]]; [| |lia]; cbn [Blanks match_here] in H;
      apply try_down_Some in H as (k & Hk & H); exists k; split; [lia|exact H| lia|exact H]. }
  destruct H' as (k & Hk & H'). cbn [match_here] in H'.
  apply try_down_Some in H' as (k' & Hk' & H').
  assert (k = span Space s') as <- by (apply (value_after_blanks c s' k k'); [done|lia|lia]).
  destruct (match_here (next_item f ++ re) (drop k' (drop k s'))) as [r'|] eqn:E;
    [|discriminate].
  destruct (follower_after_value c f re (drop k s') k' r' Hf Hfol Hk' E) as [_ Hfo].
  cbv zeta. rewrite Hfo.
  apply andb_true_intro. split; [|reflexivity].
  apply andb_true_intro. split; [apply Nat.leb_le; lia|apply Nat.ltb_lt; lia].
Qed.

(** A match of a pattern that holds [label blanks (value) follower]
    contains the token. *)
Lemma match_has_token l blanks c f re2 :
  (blanks <= 1)%nat ->
  (forall x, in_class c x = true -> in_class Space x = false) ->
  f <> AnyFollow ->
  (forall x, in_class c x = true -> follows f [x] = false) ->
  forall re1 s r,
    match_here (re1 ++ Lit l :: Blanks blanks :: Group c :: next_item f ++ re2) s = Some r ->
    has_token l blanks c f s = true.
Proof.
  intros Hb Hdisj Hf Hfol. induction re1 as [|it re1 IH]; intros s r H.
  - apply has_token_here. exact (match_token_here l blanks c f re2 s r Hb Hdisj Hf Hfol H).
  - destruct it as [l0|c0|c0|c0]; simpl in H.
    + destruct (strip_prefix l0 s) as [s'|] eqn:E; [|discriminate].
      apply strip_prefix_Some in E as ->.
      apply (has_token_drop _ _ _ _ (length l0)). rewrite drop_app_length. exact (IH _ _ H).
    + apply try_down_Some in H as (k & _ & H). exact (has_token_drop _ _ _ _ k _ (IH _ _ H)).
    + apply try_down_Some in H as (k & _ & H). exact (has_token_drop _ _ _ _ k _ (IH _ _ H)).
    + apply try_down_Some in H as (k & _ & H).
      destruct (match_here _ (drop k s)) as [[rest gs]|] eqn:E; [|discriminate].
      exact (has_token_drop _ _ _ _ k _ (IH _ _ E)).
Qed.

Lemma find_without_token l blanks c f re1 re2 s :
  (blanks <= 1)%nat ->
  (forall x, in_class c x = true -> in_class Space x = false) ->
  f <> AnyFollow ->
  (forall x, in_class c x = true -> follows f [x] = false) ->
  has_token l blanks c f s = false ->
  find (re1 ++ Lit l :: Blanks blanks :: Group c :: next_item f ++ re2) s = None.
Proof.
  intros Hb Hdisj Hf Hfol Hno. apply find_None. intros p.
  destruct (match_here _ (drop p s)) as [r|] eqn:E; [|reflexivity].
  apply (match_has_token l blanks c f re2 Hb Hdisj Hf Hfol) in E.
  apply has_token_drop in E. congruence.
Qed.

Lemma digit_not_blank_follower x : in_class Digit x = true -> follows BlankFollows [x] = false.
Proof. by_cases_on_byte x. Qed.
Lemma hex_not_comma_follower x : in_class HexDigit x = true -> follows CommaFollows [x] = false.
Proof. by_cases_on_byte x. Qed.

(** A line that lacks a field of a form is not matched by its pattern. *)
Lemma nerdqaxe_lacks_no_match s :
  nerdqaxe_lacks s = true -> find shareRegexNerdQAxe s = None.
Proof.
  unfold nerdqaxe_lacks. intros H.
  apply orb_prop in H as [H|H]; [apply orb_prop in H as [H|H]|]; apply negb_true_iff in H.
  - apply (find_without_token (bytes "Job ID:") 0 Digit BlankFollows nerdqaxe_until_job);
      [lia|apply digit_not_space|discriminate|apply digit_not_blank_follower|exact H].
  - apply (find_without_field (bytes "AsicNr:") 0 Digit nerdqaxe_until_asic);
      [lia|apply digit_not_space|exact H].
  - apply (find_without_field (bytes "diff") 1 DigitOrDot nerdqaxe_until_diff);
      [lia|apply digit_or_dot_not_space|exact H].
Qed.

Lemma axeos_lacks_no_match s :
  axeos_lacks s = true -> find shareRegexAxeOS s = None.
Proof.
  unfold axeos_lacks. intros H.
  apply orb_prop in H as [H|H]; [apply orb_prop in H as [H|H]|]; apply negb_true_iff in H.
  - apply (find_without_token (bytes "ID:") 0 HexDigit CommaFollows nerdqaxe_until_job);
      [lia|apply hex_not_space|discriminate|apply hex_not_comma_follower|exact H].
  - apply (find_without_field (bytes "ASIC nr:") 0 Digit axeos_until_asic);
      [lia|apply digit_not_space|exact H].
  - apply (find_without_field (bytes "diff") 1 DigitOrDot axeos_until_diff);
      [lia|apply digit_or_dot_not_space|exact H].
Qed.

(** ** The number of entries of a match *)

Lemma match_here_groups re :
  forall s rest gs, match_here re s = Some (rest, gs) -> length gs = groups re.
Proof.
  induction re as [|it re IH]; intros s rest gs H; simpl in H.
  - injection H as _ <-. reflexivity.
  - destruct it as [l0|c0|c0|c0]; simpl.
    + destruct (strip_prefix l0 s); [eauto|discriminate].
    + apply try_down_Some in H as (k & _ & H). eauto.
    + apply try_down_Some in H as (k & _ & H). eauto.
    + apply try_down_Some in H as (k & _ & H).
      destruct (match_here re (drop k s)) as [[rest' gs']|] eqn:E; [|discriminate].
      injection H as _ <-. simpl. f_equal. eauto.
Qed.

Lemma find_length re s ms : find re s = Some ms -> length ms = S (groups re).
Proof.
  induction s as [|x s IH]; simpl.
  - destruct (match_here re []) as [[rest gs]|] eqn:E; [|discriminate].
    intros [= <-]. simpl. f_equal. exact (match_here_groups _ _ _ _ E).
  - destruct (match_here re (x :: s)) as [[rest gs]|] eqn:E; [|exact IH].
    intros [= <-]. simpl. f_equal. exact (match_here_groups _ _ _ _ E).
Qed.

Lemma FindStringSubmatch_length re line matches :
  FindStringSubmatch re line = Some matches -> length matches = S (groups re).
Proof.
  unfold FindStringSubmatch. destruct (find re (bytes line)) as [ms|] eqn:E; [|discriminate].
  intros [= <-]. rewrite length_map. exact (find_length _ _ _ E).
Qed.

Lemma blank_line_no_tag s : all_in Space s = true -> index (bytes "asic_result:") s = None.
Proof.
  induction s as [|x s IH]; [reflexivity|]. intros H.
  change (all_in Space (x :: s)) with (in_class Space x && all_in Space s) in H.
  apply andb_prop in H as [Hx Hs].
  assert (Ha : Ascii.eqb "a" x = false).
  { clear -Hx. destruct x as [[] [] [] [] [] [] [] []]; vm_compute in Hx |- *; congruence. }
  change (index (bytes "asic_result:") (x :: s))
    with (match (if Ascii.eqb "a" x then strip_prefix (bytes "sic_result:") s else None) with
          | Some _ => Some O
          | None => option_map S (index (bytes "asic_result:") s)
          end).
  rewrite Ha, (IH Hs). reflexivity.
Qed.

(** C5 (as amended).  [Parse] returns no share for the empty line, for a
    line of blanks only, for a line without the tag, and for a line that
    lacks a field in each of the two forms; in particular for a line
    without a job id (neither [Job ID:] with a decimal counter and a blank
    after it, nor [ID:] with a hexadecimal token and a comma after it),
    without an ASIC index (neither [AsicNr:] nor [ASIC nr:] with a digit),
    or without a difficulty ([diff], a blank and a digit or point).  When
    a pattern does match, the match has the four entries [Parse] reads, so
    no index is out of range. *)
Theorem C5_incomplete_lines_yield_no_share :
  forall now minerIP line,
    (line = "" -> Parse now minerIP line = None)
    /\ (all_in Space (bytes line) = true -> Parse now minerIP line = None)
    /\ (index (bytes "asic_result:") (bytes line) = None -> Parse now minerIP line = None)
    /\ (nerdqaxe_lacks (bytes line) = true -> axeos_lacks (bytes line) = true ->
        Parse now minerIP line = None)
    /\ (has_token (bytes "Job ID:") 0 Digit BlankFollows (bytes line) = false ->
        has_token (bytes "ID:") 0 HexDigit CommaFollows (bytes line) = false ->
        Parse now minerIP line = None)
    /\ (has_field (bytes "AsicNr:") 0 Digit (bytes line) = false ->
        has_field (bytes "ASIC nr:") 0 Digit (bytes line) = false ->
        Parse now minerIP line = None)
    /\ (has_field (bytes "diff") 1 DigitOrDot (bytes line) = false ->
        Parse now minerIP line = None)
    /\ (forall matches,
           FindStringSubmatch shareRegexNerdQAxe line = Some matches
           \/ FindStringSubmatch shareRegexAxeOS line = Some matches ->
           length matches = 4%nat).
Proof.
  intros now minerIP line.
  assert (Htag : index (bytes "asic_result:") (bytes line) = None ->
                 Parse now minerIP line = None).
  { intros H. apply Parse_none;
      apply (FindStringSubmatch_absent _ _ (bytes "asic_result:")); try exact H;
      left; reflexivity. }
  assert (Hfind : forall re, find re (bytes line) = None -> FindStringSubmatch re line = None).
  { intros re H. unfold FindStringSubmatch. rewrite H. reflexivity. }
  assert (Hlacks : nerdqaxe_lacks (bytes line) = true -> axeos_lacks (bytes line) = true ->
                   Parse now minerIP line = None).
  { intros H1 H2. apply Parse_none; apply Hfind;
      [apply nerdqaxe_lacks_no_match, H1|apply axeos_lacks_no_match, H2]. }
  split; [|split; [|split; [|split; [|split; [|split; [|split]]]]]].
  - intros ->. reflexivity.
  - intros H. apply Htag, blank_line_no_tag, H.
  - exact Htag.
  - exact Hlacks.
  - intros H1 H2. apply Hlacks; [unfold nerdqaxe_lacks|unfold axeos_lacks].
    + rewrite H1. reflexivity.
    + rewrite H2. reflexivity.
  - intros H1 H2. apply Hlacks; [unfold nerdqaxe_lacks|unfold axeos_lacks].
    + rewrite H1. apply orb_true_iff. left. apply orb_true_r.
    + rewrite H2. apply orb_true_iff. left. apply orb_true_r.
  - intros H. apply Hlacks; [unfold nerdqaxe_lacks|unfold axeos_lacks];
      rewrite H; apply orb_true_r.
  - intros matches [H|H]; apply FindStringSubmatch_length in H; exact H.
Qed.

(** ** The theorems at the lines of the parser's tests *)

Example ParseFloat_5894_3 : strconv.ParseFloat "5894.3" = 0x1.7064ccccccccdp+12%float.
Proof. vm_compute. reflexivity. Qed.

Example Parse_nerdqaxe_test_line :
  Parse 7 "192.168.1.100" (nq_text ex_nerdqaxe)
  = Some (Share.mk 0 "192.168.1.100" "" 7 3 0x1.7064ccccccccdp+12%float "18").
Proof. vm_compute. reflexivity. Qed.

Example Parse_axeos_test_line :
  Parse 7 "192.168.1.23" (ax_text ex_axeos)
  = Some (Share.mk 0 "192.168.1.23" "" 7 0 0x1.b0ccccccccccdp+8%float "69868e2b00000b0b").
Proof. vm_compute. reflexivity. Qed.

(** Where both patterns match, the NerdQAxe fields are returned. *)
Example Parse_prefers_nerdqaxe :
  FindStringSubmatch shareRegexAxeOS ex_both
  = Some ["asic_result: ID: ab, ASIC nr: 1 Job ID: 7 AsicNr: 2 diff 5"; "ab"; "1"; "5"]
  /\ Parse 7 "10.0.0.1" ex_both = Some (Share.mk 0 "10.0.0.1" "" 7 2 5%float "7").
Proof. split; vm_compute; reflexivity. Qed.

(** C4 at the two well-formed test lines: ASIC 3 and 58943/10 for job 18,
    ASIC 0 and 4328/10 for job 69868e2b00000b0b. *)
Lemma C4_witness_test_lines :
  nq_wf ex_nerdqaxe = true
  /\ ax_wf ex_axeos = true
  /\ (exists difficulty,
        Parse 7 "192.168.1.100" (nq_text ex_nerdqaxe)
        = Some (Share.mk 0 "192.168.1.100" "" 7 (written (bytes (nq_asic ex_nerdqaxe)))
                  difficulty (nq_job ex_nerdqaxe))
        /\ difficulty = Go.float64_of_ratio (decimal_num (bytes (nq_diff ex_nerdqaxe)))
                          (decimal_den (bytes (nq_diff ex_nerdqaxe)))
        /\ within_half_ulp (decimal_num (bytes (nq_diff ex_nerdqaxe)))
             (decimal_den (bytes (nq_diff ex_nerdqaxe))) (Prim2SF difficulty) = true)
  /\ (exists difficulty,
        Parse 7 "192.168.1.23" (ax_text ex_axeos)
        = Some (Share.mk 0 "192.168.1.23" "" 7 (written (bytes (ax_asic ex_axeos)))
                  difficulty (ax_job ex_axeos))
        /\ difficulty = Go.float64_of_ratio (decimal_num (bytes (ax_diff ex_axeos)))
                          (decimal_den (bytes (ax_diff ex_axeos)))
        /\ within_half_ulp (decimal_num (bytes (ax_diff ex_axeos)))
             (decimal_den (bytes (ax_diff ex_axeos))) (Prim2SF difficulty) = true)
  /\ (written (bytes (nq_asic ex_nerdqaxe)), decimal_num (bytes (nq_diff ex_nerdqaxe)),
      decimal_den (bytes (nq_diff ex_nerdqaxe))) = (3, 58943, 10)
  /\ (written (bytes (ax_asic ex_axeos)), decimal_num (bytes (ax_diff ex_axeos)),
      decimal_den (bytes (ax_diff ex_axeos))) = (0, 4328, 10)
  /\ Parse 7 "192.168.1.100" (nq_text ex_nerdqaxe)
     = Some (Share.mk 0 "192.168.1.100" "" 7 3 0x1.7064ccccccccdp+12%float "18")
  /\ Parse 7 "192.168.1.23" (ax_text ex_axeos)
     = Some (Share.mk 0 "192.168.1.23" "" 7 0 0x1.b0ccccccccccdp+8%float
               "69868e2b00000b0b").
Proof.
  split; [vm_compute; reflexivity|]. split; [vm_compute; reflexivity|].
  split; [exact (proj1 C4_share_line_yields_its_fields 7 "192.168.1.100" ex_nerdqaxe
                   ltac:(vm_compute; reflexivity))|].
  split; [exact (proj1 (proj2 C4_share_line_yields_its_fields) 7 "192.168.1.23" ex_axeos
                   ltac:(vm_compute; reflexivity))|].
  repeat split; vm_compute; reflexivity.
Defined.

(** C5 at a line whose job label carries no job id. *)
Lemma C5_witness_no_job_id :
  has_token (bytes "Job ID:") 0 Digit BlankFollows (bytes ex_empty_job_id) = false
  /\ has_token (bytes "ID:") 0 HexDigit CommaFollows (bytes ex_empty_job_id) = false
  /\ Parse 7 "192.168.1.1" ex_empty_job_id = None.
Proof.
  split; [vm_compute; reflexivity|]. split; [vm_compute; reflexivity|].
  exact (proj1 (proj2 (proj2 (proj2 (proj2 (C5_incomplete_lines_yield_no_share 7 "192.168.1.1"
                                             ex_empty_job_id)))))
           ltac:(vm_compute; reflexivity) ltac:(vm_compute; reflexivity)).
Defined.

(** The test line without a job label is covered as well. *)
Example Parse_no_job_label :
  nerdqaxe_lacks (bytes ex_no_job_id) = true
  /\ axeos_lacks (bytes ex_no_job_id) = true
  /\ Parse 7 "192.168.1.1" ex_no_job_id = None.
Proof. repeat split; vm_compute; reflexivity. Qed.

(** Against C5 as stated: a line with the tag whose difficulty is a lone
    point carries no number after [diff], and yet the parser returns a
    share, of difficulty 0: [[\d.]+] takes the point, and the error of
    [ParseFloat] is dropped. *)
Lemma C5_point_difficulty_yields_share :
  index (bytes "asic_result:") (bytes ex_point_difficulty) = Some 0%nat
  /\ existsb is_digit (drop 34 (bytes ex_point_difficulty)) = false
  /\ drop 34 (bytes ex_point_difficulty) = bytes "diff ."
  /\ Parse 7 "192.168.1.1" ex_point_difficulty
     = Some (Share.mk 0 "192.168.1.1" "" 7 3 0%float "18").
Proof. repeat split; vm_compute; reflexivity. Qed.

End ParserFacts.

Section SnapshotFacts.
Import storage alerts.

(** ** The alerting stages, one by one *)

Lemma cooled_calm hit k env w w' :
  cooled env w k -> calm hit k w w' -> cooled env w' k.
Proof.
  intros Hc [_ Hk Ht _] last Hl i Hi. rewrite Hk in Hl. apply (Hc last Hl). lia.
Qed.

(** A guarded [sendAlert] whose guard holds, for a pair out of cooldown. *)
Lemma guarded_send_fires (mk : Z -> Alert.t) k env w :
  (forall now, cooldownKey (mk now) = k) ->
  cooled env w k ->
  run (when true (now ← time_Now; sendAlert (mk now))) env w
  = fire (mk (clock env (ticks w))) env
      (match alertCooldown (engine w) !! k with Some _ => tick (tick w) | None => tick w end).
Proof.
  intros Hk Hc. rewrite run_when_true, run_now, sendAlert_unfold. simpl engine. simpl ticks.
  rewrite Hk.
  change (mkWorld (engine w) (S (ticks w)) (trace w)) with (tick w).
  destruct (alertCooldown (engine w) !! k) as [last|] eqn:E; [|reflexivity].
  specialize (Hc last E (S (ticks w))).
  destruct (Z.ltb_spec (clock env (S (ticks w)) - last) (5 * Go.Minute)); [lia|].
  reflexivity.
Qed.

Lemma guarded_send_trace (mk : Z -> Alert.t) k env w :
  (forall now, cooldownKey (mk now) = k) ->
  cooled env w k ->
  trace (run (when true (now ← time_Now; sendAlert (mk now))) env w)
  = trace w ++ [deliver (config (engine w)) (mk (clock env (ticks w)))].
Proof.
  intros Hk Hc. rewrite (guarded_send_fires mk k) by assumption.
  destruct (alertCooldown (engine w) !! k); reflexivity.
Qed.

(** Whatever a guarded [sendAlert] does, it adds at most the one alert. *)
Lemma guarded_send_at_most (b : bool) (mk : Z -> Alert.t) env w :
  exists l,
    trace (run (when b (now ← time_Now; sendAlert (mk now))) env w) = trace w ++ l
    /\ (l = [] \/ l = [deliver (config (engine w)) (mk (clock env (ticks w)))]).
Proof.
  destruct b; [|exists []; rewrite app_nil_r; auto].
  rewrite run_when_true, run_now, sendAlert_unfold. simpl engine. simpl ticks.
  destruct (alertCooldown (engine w) !! _) as [last|];
    [destruct (_ <? _)|]; simpl;
    first [ exists []; rewrite app_nil_r; split; [reflexivity|auto]
          | eexists; split; [reflexivity|auto] ].
Qed.

(** What a stage that is calm before and after adds for the kind [T]. *)
Lemma filter_stage T k w0 w1 w2 w3 l :
  calm (delivers T) k w0 w1 -> trace w2 = trace w1 ++ l ->
  calm (delivers T) k w2 w3 ->
  exists new,
    trace w3 = trace w0 ++ new
    /\ filter (fun x => delivers T x = true) new = filter (fun x => delivers T x = true) l.
Proof.
  intros [_ _ _ (n1 & E1 & F1)] E2 [_ _ _ (n3 & E3 & F3)].
  exists (n1 ++ l ++ n3). split.
  - rewrite E3, E2, E1, <- !app_assoc. reflexivity.
  - rewrite !filter_app, (filter_none _ _ F1), (filter_none _ _ F3), app_nil_r. reflexivity.
Qed.

Lemma filter_deliver T cfg a :
  Alert.Type_ a = T ->
  filter (fun x => delivers T x = true) [deliver cfg a] = [deliver cfg a].
Proof.
  intros <-. rewrite filter_cons_True; [reflexivity|].
  rewrite delivers_deliver. apply AlertType_eqb_eq. reflexivity.
Qed.

Ltac calm_stages :=
  repeat first
    [ apply calm_refl
    | apply calm_updateLastSeen
    | apply calm_checkTemperature; [apply muted_other_kind; congruence|]
    | apply calm_checkHashrateDrop; [apply muted_other_kind; congruence|]
    | apply calm_checkFanRPM; [apply muted_other_kind; congruence|]
    | apply calm_checkWifiSignal; [apply muted_other_kind; congruence|]
    | apply calm_checkPoolConnection; [apply muted_other_kind; congruence|]
    | apply calm_checkNewBestDiff; [apply muted_other_kind; congruence|] ].

(** X1.  For a (device, temp_high) pair out of cooldown, [CheckSnapshot]
    delivers exactly one high-temperature alert when the threshold is
    positive and the snapshot's temperature is above it, and none
    otherwise; the alert carries the temperature as its value.  A threshold
    of 0 turns the check off. *)
Theorem X1_high_temperature_alert :
  forall env w snap,
    let cfg := config (engine w) in
    let ip := MinerSnapshot.MinerIP snap in
    let temp := MinerSnapshot.Temperature snap in
    cooled env w (pairKey ip AlertTempHigh) ->
    exists new now,
      trace (run (CheckSnapshot snap) env w) = trace w ++ new
      /\ filter (fun x => delivers AlertTempHigh x = true) new
         = if ((0 <? TempAbove cfg) && (TempAbove cfg <? temp))%float
           then [deliver cfg (Alert.mk AlertTempHigh ip (MinerSnapshot.Hostname snap)
                                (TxtTemperature temp (TempAbove cfg)) temp now [])]
           else [].
Proof.
  intros env w snap cfg ip temp Hcd.
  rewrite CheckSnapshot_stages.
  set (w1 := run (updateLastSeen snap) env w).
  set (w2 := run (checkTemperature snap) env w1).
  assert (H1 : calm (delivers AlertTempHigh) (pairKey ip AlertTempHigh) w w1)
    by (subst w1; calm_stages).
  assert (H3 : calm (delivers AlertTempHigh) (pairKey ip AlertTempHigh) w2
                 (run (checkNewBestDiff snap) env
                    (run (checkPoolConnection snap) env
                       (run (checkWifiSignal snap) env
                          (run (checkFanRPM snap) env
                             (run (checkHashrateDrop snap) env w2))))))
    by calm_stages.
  pose proof (calm_config _ _ _ _ H1) as Hc.
  assert (H2 : trace w2 = trace w1 ++
                 if ((0 <? TempAbove cfg) && (TempAbove cfg <? temp))%float
                 then [deliver cfg (Alert.mk AlertTempHigh ip (MinerSnapshot.Hostname snap)
                                      (TxtTemperature temp (TempAbove cfg)) temp
                                      (clock env (ticks w1)) [])]
                 else []).
  { subst w2. unfold checkTemperature. rewrite run_get, Hc. fold cfg temp ip.
    destruct ((0 <? TempAbove cfg) && (TempAbove cfg <? temp))%float.
    - rewrite (guarded_send_trace
                 (fun now => Alert.mk AlertTempHigh ip _ _ _ now []) (pairKey ip AlertTempHigh));
        [rewrite Hc; reflexivity | reflexivity | exact (cooled_calm _ _ _ _ _ Hcd H1)].
    - rewrite run_when_false, app_nil_r. reflexivity. }
  destruct (filter_stage _ _ _ _ _ _ _ H1 H2 H3) as (new & En & Ef).
  exists new, (clock env (ticks w1)). split; [exact En|]. rewrite Ef.
  destruct ((0 <? TempAbove cfg) && (TempAbove cfg <? temp))%float; [|reflexivity].
  apply filter_deliver. reflexivity.
Qed.

(** X2.  For a (device, wifi_weak) pair out of cooldown, [CheckSnapshot]
    delivers exactly one weak-signal alert when the configured floor is
    negative and the snapshot's RSSI is below it, and none otherwise.  A
    floor of 0 or above turns the check off. *)
Theorem X2_weak_wifi_alert :
  forall env w snap,
    let cfg := config (engine w) in
    let ip := MinerSnapshot.MinerIP snap in
    let rssi := MinerSnapshot.WifiRSSI snap in
    cooled env w (pairKey ip AlertWifiWeak) ->
    exists new now,
      trace (run (CheckSnapshot snap) env w) = trace w ++ new
      /\ filter (fun x => delivers AlertWifiWeak x = true) new
         = if (WifiSignalBelow cfg <? 0) && (rssi <? WifiSignalBelow cfg)
           then [deliver cfg (Alert.mk AlertWifiWeak ip (MinerSnapshot.Hostname snap)
                                (TxtWifi rssi (WifiSignalBelow cfg))
                                (Go.float64_of_int rssi) now [])]
           else [].
Proof.
  intros env w snap cfg ip rssi Hcd.
  rewrite CheckSnapshot_stages.
  set (w1 := run (checkFanRPM snap) env _).
  set (w2 := run (checkWifiSignal snap) env w1).
  assert (H1 : calm (delivers AlertWifiWeak) (pairKey ip AlertWifiWeak) w w1)
    by (subst w1; calm_stages).
  assert (H3 : calm (delivers AlertWifiWeak) (pairKey ip AlertWifiWeak) w2
                 (run (checkNewBestDiff snap) env (run (checkPoolConnection snap) env w2)))
    by calm_stages.
  pose proof (calm_config _ _ _ _ H1) as Hc.
  assert (H2 : trace w2 = trace w1 ++
                 if (WifiSignalBelow cfg <? 0) && (rssi <? WifiSignalBelow cfg)
                 then [deliver cfg (Alert.mk AlertWifiWeak ip (MinerSnapshot.Hostname snap)
                                      (TxtWifi rssi (WifiSignalBelow cfg))
                                      (Go.float64_of_int rssi) (clock env (ticks w1)) [])]
                 else []).
  { subst w2. unfold checkWifiSignal. rewrite run_get, Hc. fold cfg rssi ip.
    destruct ((WifiSignalBelow cfg <? 0) && (rssi <? WifiSignalBelow cfg)).
    - rewrite (guarded_send_trace
                 (fun now => Alert.mk AlertWifiWeak ip _ _ _ now []) (pairKey ip AlertWifiWeak));
        [rewrite Hc; reflexivity | reflexivity | exact (cooled_calm _ _ _ _ _ Hcd H1)].
    - rewrite run_when_false, app_nil_r. reflexivity. }
  destruct (filter_stage _ _ _ _ _ _ _ H1 H2 H3) as (new & En & Ef).
  exists new, (clock env (ticks w1)). split; [exact En|]. rewrite Ef.
  destruct ((WifiSignalBelow cfg <? 0) && (rssi <? WifiSignalBelow cfg)); [|reflexivity].
  apply filter_deliver. reflexivity.
Qed.

(** X3.  For a (device, pool_disconnected) pair out of cooldown,
    [CheckSnapshot] delivers exactly one pool-disconnected alert when the
    feature is on and the snapshot reports the pool as not connected, and
    none otherwise. *)
Theorem X3_pool_disconnected_alert :
  forall env w snap,
    let cfg := config (engine w) in
    let ip := MinerSnapshot.MinerIP snap in
    cooled env w (pairKey ip AlertPoolDisconnected) ->
    exists new now,
      trace (run (CheckSnapshot snap) env w) = trace w ++ new
      /\ filter (fun x => delivers AlertPoolDisconnected x = true) new
         = if OnPoolDisconnected cfg && negb (MinerSnapshot.PoolConnected snap)
           then [deliver cfg (Alert.mk AlertPoolDisconnected ip (MinerSnapshot.Hostname snap)
                                TxtPoolDisconnected 0%float now [])]
           else [].
Proof.
  intros env w snap cfg ip Hcd.
  rewrite CheckSnapshot_stages.
  set (w1 := run (checkWifiSignal snap) env _).
  set (w2 := run (checkPoolConnection snap) env w1).
  assert (H1 : calm (delivers AlertPoolDisconnected) (pairKey ip AlertPoolDisconnected) w w1)
    by (subst w1; calm_stages).
  assert (H3 : calm (delivers AlertPoolDisconnected) (pairKey ip AlertPoolDisconnected) w2
                 (run (checkNewBestDiff snap) env w2))
    by calm_stages.
  pose proof (calm_config _ _ _ _ H1) as Hc.
  assert (H2 : trace w2 = trace w1 ++
                 if OnPoolDisconnected cfg && negb (MinerSnapshot.PoolConnected snap)
                 then [deliver cfg (Alert.mk AlertPoolDisconnected ip
                                      (MinerSnapshot.Hostname snap)
                                      TxtPoolDisconnected 0%float (clock env (ticks w1)) [])]
                 else []).
  { subst w2. unfold checkPoolConnection. rewrite run_get, Hc. fold cfg ip.
    destruct (OnPoolDisconnected cfg && negb (MinerSnapshot.PoolConnected snap)).
    - rewrite (guarded_send_trace
                 (fun now => Alert.mk AlertPoolDisconnected ip _ _ _ now [])
                 (pairKey ip AlertPoolDisconnected));
        [rewrite Hc; reflexivity | reflexivity | exact (cooled_calm _ _ _ _ _ Hcd H1)].
    - rewrite run_when_false, app_nil_r. reflexivity. }
  destruct (filter_stage _ _ _ _ _ _ _ H1 H2 H3) as (new & En & Ef).
  exists new, (clock env (ticks w1)). split; [exact En|]. rewrite Ef.
  destruct (OnPoolDisconnected cfg && negb (MinerSnapshot.PoolConnected snap)); [|reflexivity].
  apply filter_deliver. reflexivity.
Qed.

(** ** What each stage keeps *)

Section Keeps.
Context {A : Type} (p : AlertEngine -> A).
Hypothesis p_cooldown : forall k v e, p (set_alertCooldown k v e) = p e.

Lemma keeps_sendAlert a env w : p (engine (run (sendAlert a) env w)) = p (engine w).
Proof using p_cooldown.
  rewrite sendAlert_unfold.
  destruct (alertCooldown (engine w) !! cooldownKey a); [destruct (_ <? _)|];
    simpl; rewrite ?p_cooldown; reflexivity.
Qed.

Lemma keeps_guarded_send (b : bool) (mk : Z -> Alert.t) env w :
  p (engine (run (when b (now ← time_Now; sendAlert (mk now))) env w)) = p (engine w).
Proof using p_cooldown.
  destruct b; [|reflexivity].
  rewrite run_when_true, run_now, keeps_sendAlert. reflexivity.
Qed.

Lemma keeps_updateLastSeen snap env w :
  (forall k v e, p (set_lastSeen k v e) = p e) ->
  p (engine (run (updateLastSeen snap) env w)) = p (engine w).
Proof. intros H. unfold updateLastSeen. rewrite run_now. simpl. apply H. Qed.

Lemma keeps_checkTemperature snap env w :
  p (engine (run (checkTemperature snap) env w)) = p (engine w).
Proof using p_cooldown.
  unfold checkTemperature. rewrite run_get.
  apply (keeps_guarded_send _ (fun now => Alert.mk AlertTempHigh _ _ _ _ now [])).
Qed.

Lemma keeps_checkHashrateDrop snap env w :
  (forall k v e, p (set_lastHashrate k v e) = p e) ->
  p (engine (run (checkHashrateDrop snap) env w)) = p (engine w).
Proof using p_cooldown.
  intros H. unfold checkHashrateDrop. rewrite run_get, run_seq.
  change (p (engine (run (modify ?f) env ?w'))) with (p (f (engine w'))). rewrite H.
  destruct (lastHashrate (engine w) !! MinerSnapshot.MinerIP snap) as [lastHash|];
    [|reflexivity].
  destruct (0 <? lastHash)%float; [|reflexivity].
  rewrite run_when_true.
  apply (keeps_guarded_send _ (fun now => Alert.mk AlertHashrateDrop _ _ _ _ now [])).
Qed.

Lemma keeps_checkFanRPM snap env w :
  p (engine (run (checkFanRPM snap) env w)) = p (engine w).
Proof using p_cooldown.
  unfold checkFanRPM. rewrite run_get.
  apply (keeps_guarded_send _ (fun now => Alert.mk AlertFanLow _ _ _ _ now [])).
Qed.

Lemma keeps_checkWifiSignal snap env w :
  p (engine (run (checkWifiSignal snap) env w)) = p (engine w).
Proof using p_cooldown.
  unfold checkWifiSignal. rewrite run_get.
  apply (keeps_guarded_send _ (fun now => Alert.mk AlertWifiWeak _ _ _ _ now [])).
Qed.

Lemma keeps_checkPoolConnection snap env w :
  p (engine (run (checkPoolConnection snap) env w)) = p (engine w).
Proof using p_cooldown.
  unfold checkPoolConnection. rewrite run_get.
  apply (keeps_guarded_send _ (fun now => Alert.mk AlertPoolDisconnected _ _ _ _ now [])).
Qed.

(** The last stage stores the session best difficulty on top of what it
    found. *)
Lemma checkNewBestDiff_engine snap env w :
  p (engine (run (checkNewBestDiff snap) env w))
  = p (set_lastBestDiff (MinerSnapshot.MinerIP snap) (MinerSnapshot.BestDiffSess snap)
         (engine (run (when (OnNewBestDiff (config (engine w)))
                         (match lastBestDiff (engine w) !! MinerSnapshot.MinerIP snap with
                          | Some lastBest =>
                              when (lastBest <? MinerSnapshot.BestDiffSess snap)%float
                                (now ← time_Now;
                                 sendAlert (Alert.mk AlertNewBestDiff (MinerSnapshot.MinerIP snap)
                                   (MinerSnapshot.Hostname snap)
                                   (TxtNewBestDiff (MinerSnapshot.BestDiffSess snap))
                                   (MinerSnapshot.BestDiffSess snap) now []))
                          | None => mret tt
                          end)) env w))).
Proof. unfold checkNewBestDiff. rewrite run_get, run_seq. reflexivity. Qed.

Lemma keeps_checkNewBestDiff snap env w :
  (forall k v e, p (set_lastBestDiff k v e) = p e) ->
  p (engine (run (checkNewBestDiff snap) env w)) = p (engine w).
Proof using p_cooldown.
  intros H. rewrite checkNewBestDiff_engine, H.
  destruct (OnNewBestDiff (config (engine w))); [|reflexivity].
  rewrite run_when_true.
  destruct (lastBestDiff (engine w) !! MinerSnapshot.MinerIP snap); [|reflexivity].
  apply (keeps_guarded_send _ (fun now => Alert.mk AlertNewBestDiff _ _ _ _ now [])).
Qed.

End Keeps.

(** X4.  For a (device, new_best_diff) pair out of cooldown,
    [CheckSnapshot] delivers exactly one new-best-difficulty alert when the
    feature is on, a session best was recorded for the device before, and
    the snapshot's session best is above it; none otherwise, so never on
    the first snapshot of a device.  The session best is recorded whether
    the feature is on or off. *)
Theorem X4_new_best_diff_alert :
  forall env w snap,
    let cfg := config (engine w) in
    let ip := MinerSnapshot.MinerIP snap in
    let best := MinerSnapshot.BestDiffSess snap in
    cooled env w (pairKey ip AlertNewBestDiff) ->
    exists new now,
      trace (run (CheckSnapshot snap) env w) = trace w ++ new
      /\ filter (fun x => delivers AlertNewBestDiff x = true) new
         = (if OnNewBestDiff cfg
               && match lastBestDiff (engine w) !! ip with
                  | Some lastBest => (lastBest <? best)%float
                  | None => false
                  end
            then [deliver cfg (Alert.mk AlertNewBestDiff ip (MinerSnapshot.Hostname snap)
                                 (TxtNewBestDiff best) best now [])]
            else [])
      /\ lastBestDiff (engine (run (CheckSnapshot snap) env w)) !! ip = Some best.
Proof.
  intros env w snap cfg ip best Hcd.
  rewrite CheckSnapshot_stages.
  set (w1 := run (checkPoolConnection snap) env _).
  set (w2 := run (checkNewBestDiff snap) env w1).
  assert (H1 : calm (delivers AlertNewBestDiff) (pairKey ip AlertNewBestDiff) w w1)
    by (subst w1; calm_stages).
  pose proof (calm_config _ _ _ _ H1) as Hc.
  assert (Hb : lastBestDiff (engine w1) = lastBestDiff (engine w)).
  { subst w1.
    rewrite keeps_checkPoolConnection, keeps_checkWifiSignal, keeps_checkFanRPM,
      keeps_checkHashrateDrop, keeps_checkTemperature, keeps_updateLastSeen;
      intros; reflexivity. }
  assert (H2 : trace w2 = trace w1 ++
                 if OnNewBestDiff cfg
                    && match lastBestDiff (engine w) !! ip with
                       | Some lastBest => (lastBest <? best)%float
                       | None => false
                       end
                 then [deliver cfg (Alert.mk AlertNewBestDiff ip (MinerSnapshot.Hostname snap)
                                      (TxtNewBestDiff best) best (clock env (ticks w1)) [])]
                 else []).
  { subst w2. unfold checkNewBestDiff. rewrite run_get, run_seq, Hc, Hb. fold cfg ip best.
    change (trace (run (modify ?f) env ?w')) with (trace w').
    destruct (OnNewBestDiff cfg); simpl andb;
      [rewrite run_when_true | rewrite run_when_false, app_nil_r; reflexivity].
    destruct (lastBestDiff (engine w) !! ip) as [lastBest|];
      [|rewrite run_ret, app_nil_r; reflexivity].
    destruct (lastBest <? best)%float.
    - rewrite (guarded_send_trace
                 (fun now => Alert.mk AlertNewBestDiff ip _ _ _ now [])
                 (pairKey ip AlertNewBestDiff));
        [rewrite Hc; reflexivity | reflexivity | exact (cooled_calm _ _ _ _ _ Hcd H1)].
    - rewrite run_when_false, app_nil_r. reflexivity. }
  destruct (filter_stage _ _ _ _ _ _ _ H1 H2 (calm_refl _ _ w2)) as (new & En & Ef).
  exists new, (clock env (ticks w1)). split; [exact En|]. split.
  - rewrite Ef.
    destruct (OnNewBestDiff cfg && _); [|reflexivity].
    apply filter_deliver. reflexivity.
  - subst w2. rewrite (checkNewBestDiff_engine (fun e => lastBestDiff e !! ip)).
    apply lookup_insert_eq.
Qed.

(** X5.  [CheckSnapshot] stamps the device of the snapshot as seen at the
    clock reading it starts with, and records its hashrate and its session
    best difficulty; the configuration and the weekly leader state stay as
    they were, and so does every cooldown stamp that is not one of this
    device.  Entries of other devices are not touched. *)
Theorem X5_snapshot_bookkeeping :
  forall env w snap,
    let ip := MinerSnapshot.MinerIP snap in
    let e := engine w in
    let e' := engine (run (CheckSnapshot snap) env w) in
    lastSeen e' = <[ip := clock env (ticks w)]> (lastSeen e)
    /\ lastHashrate e' = <[ip := MinerSnapshot.HashRate snap]> (lastHashrate e)
    /\ lastBestDiff e' = <[ip := MinerSnapshot.BestDiffSess snap]> (lastBestDiff e)
    /\ config e' = config e
    /\ (weeklyBestDiff e', weeklyLeader e', weekStart e')
       = (weeklyBestDiff e, weeklyLeader e, weekStart e)
    /\ (forall k, (forall T, k <> pairKey ip T) ->
                  alertCooldown e' !! k = alertCooldown e !! k).
Proof.
  intros env w snap ip e e'. subst e e'.
  repeat split.
  - rewrite CheckSnapshot_stages.
    rewrite keeps_checkNewBestDiff, keeps_checkPoolConnection, keeps_checkWifiSignal,
      keeps_checkFanRPM, keeps_checkHashrateDrop, keeps_checkTemperature;
      intros; reflexivity.
  - rewrite CheckSnapshot_stages, lastHashrate_after, checkHashrateDrop_lastHashrate,
      lastHashrate_before. reflexivity.
  - rewrite CheckSnapshot_stages, (checkNewBestDiff_engine lastBestDiff).
    change (lastBestDiff (set_lastBestDiff ?k ?v ?e')) with (<[k:=v]> (lastBestDiff e')).
    f_equal.
    transitivity (lastBestDiff
                    (engine (run (checkPoolConnection snap) env
                       (run (checkWifiSignal snap) env
                          (run (checkFanRPM snap) env
                             (run (checkHashrateDrop snap) env
                                (run (checkTemperature snap) env
                                   (run (updateLastSeen snap) env w))))))));
      [|rewrite keeps_checkPoolConnection, keeps_checkWifiSignal, keeps_checkFanRPM,
          keeps_checkHashrateDrop, keeps_checkTemperature, keeps_updateLastSeen;
          intros; reflexivity].
    destruct (OnNewBestDiff _); [|reflexivity]. rewrite run_when_true.
    destruct (lastBestDiff _ !! _); [|reflexivity].
    apply (keeps_guarded_send lastBestDiff); intros; reflexivity.
  - rewrite CheckSnapshot_stages.
    rewrite keeps_checkNewBestDiff, keeps_checkPoolConnection, keeps_checkWifiSignal,
      keeps_checkFanRPM, keeps_checkHashrateDrop, keeps_checkTemperature,
      keeps_updateLastSeen; intros; reflexivity.
  - rewrite CheckSnapshot_stages.
    rewrite (keeps_checkNewBestDiff (fun e => (weeklyBestDiff e, weeklyLeader e, weekStart e))),
      (keeps_checkPoolConnection (fun e => (weeklyBestDiff e, weeklyLeader e, weekStart e))),
      (keeps_checkWifiSignal (fun e => (weeklyBestDiff e, weeklyLeader e, weekStart e))),
      (keeps_checkFanRPM (fun e => (weeklyBestDiff e, weeklyLeader e, weekStart e))),
      (keeps_checkHashrateDrop (fun e => (weeklyBestDiff e, weeklyLeader e, weekStart e))),
      (keeps_checkTemperature (fun e => (weeklyBestDiff e, weeklyLeader e, weekStart e))),
      (keeps_updateLastSeen (fun e => (weeklyBestDiff e, weeklyLeader e, weekStart e)));
      intros; reflexivity.
  - intros k Hk.
    apply (calm_cooldown (fun _ => false) k w).
    apply calm_CheckSnapshot; [|apply calm_refl].
    intros T a w' Ha Hip _. left. split; [|reflexivity].
    rewrite cooldownKey_pairKey, Ha, Hip. intros E. exact (Hk T (eq_sym E)).
Qed.

(** One alerting stage adds nothing, or one alert of its kind for the
    device of the snapshot. *)
Lemma guarded_send_kind T snap (b : bool) (mk : Z -> Alert.t) env w :
  (forall now, Alert.Type_ (mk now) = T
               /\ Alert.MinerIP (mk now) = MinerSnapshot.MinerIP snap
               /\ Alert.MinerName (mk now) = MinerSnapshot.Hostname snap) ->
  exists l,
    trace (run (when b (now ← time_Now; sendAlert (mk now))) env w) = trace w ++ l
    /\ omap delivered_type l `sublist_of` [T]
    /\ Forall (about snap) l.
Proof.
  intros Hmk. destruct (guarded_send_at_most b mk env w) as (l & El & [->| ->]).
  - exists []. split; [exact El|]. split; [apply sublist_nil_l|constructor].
  - eexists. split; [exact El|].
    destruct (Hmk (clock env (ticks w))) as (HT & Hip & Hn).
    unfold deliver. destruct (String.eqb _ _); simpl; rewrite HT;
      (split; [reflexivity|]); constructor; try constructor;
      eexists; (split; [reflexivity|]); split; assumption.
Qed.

(** X6.  The alerts one [CheckSnapshot] delivers are all for the device of
    the snapshot and come in the order of the stages: high temperature,
    hashrate drop, low fan, weak signal, pool disconnected, new best
    difficulty, each at most once.  It never delivers an offline, a
    rejected-share, a block or a leader alert. *)
Theorem X6_snapshot_alerts_in_stage_order :
  forall env w snap,
    exists new,
      trace (run (CheckSnapshot snap) env w) = trace w ++ new
      /\ omap delivered_type new `sublist_of` snapshot_kinds
      /\ Forall (about snap) new.
Proof.
  intros env w snap. rewrite CheckSnapshot_stages.
  set (w0 := run (updateLastSeen snap) env w).
  assert (E0 : trace w0 = trace w) by reflexivity.
  (* temperature *)
  destruct (guarded_send_kind AlertTempHigh snap
              ((0 <? TempAbove (config (engine w0)))%float
               && (TempAbove (config (engine w0)) <? MinerSnapshot.Temperature snap)%float)
              (fun now => Alert.mk AlertTempHigh (MinerSnapshot.MinerIP snap)
                            (MinerSnapshot.Hostname snap)
                            (TxtTemperature (MinerSnapshot.Temperature snap)
                               (TempAbove (config (engine w0))))
                            (MinerSnapshot.Temperature snap) now []) env w0)
    as (l1 & E1 & S1 & F1); [auto|].
  change (run (when _ _) env w0) with (run (checkTemperature snap) env w0) in E1.
  set (w1 := run (checkTemperature snap) env w0) in *.
  (* hashrate *)
  assert (exists l2, trace (run (checkHashrateDrop snap) env w1) = trace w1 ++ l2
                     /\ omap delivered_type l2 `sublist_of` [AlertHashrateDrop]
                     /\ Forall (about snap) l2) as (l2 & E2 & S2 & F2).
  { unfold checkHashrateDrop. rewrite run_get, run_seq.
    change (trace (run (modify ?f) env ?w')) with (trace w').
    destruct (lastHashrate (engine w1) !! MinerSnapshot.MinerIP snap) as [lastHash|];
      [|exists []; rewrite app_nil_r; repeat split; [apply sublist_nil_l|constructor]].
    destruct (0 <? lastHash)%float;
      [rewrite run_when_true
      |exists []; rewrite app_nil_r; repeat split; [apply sublist_nil_l|constructor]].
    apply (guarded_send_kind AlertHashrateDrop snap _
             (fun now => Alert.mk AlertHashrateDrop _ _ _ _ now [])). auto. }
  set (w2 := run (checkHashrateDrop snap) env w1) in *.
  (* fan *)
  destruct (guarded_send_kind AlertFanLow snap
              ((0 <? FanRPMBelow (config (engine w2)))
               && (MinerSnapshot.FanRPM snap <? FanRPMBelow (config (engine w2)))
               && (0 <? MinerSnapshot.FanRPM snap))
              (fun now => Alert.mk AlertFanLow (MinerSnapshot.MinerIP snap)
                            (MinerSnapshot.Hostname snap)
                            (TxtFanRPM (MinerSnapshot.FanRPM snap)
                               (FanRPMBelow (config (engine w2))))
                            (Go.float64_of_int (MinerSnapshot.FanRPM snap)) now []) env w2)
    as (l3 & E3 & S3 & F3); [auto|].
  change (run (when _ _) env w2) with (run (checkFanRPM snap) env w2) in E3.
  set (w3 := run (checkFanRPM snap) env w2) in *.
  (* wifi *)
  destruct (guarded_send_kind AlertWifiWeak snap
              ((WifiSignalBelow (config (engine w3)) <? 0)
               && (MinerSnapshot.WifiRSSI snap <? WifiSignalBelow (config (engine w3))))
              (fun now => Alert.mk AlertWifiWeak (MinerSnapshot.MinerIP snap)
                            (MinerSnapshot.Hostname snap)
                            (TxtWifi (MinerSnapshot.WifiRSSI snap)
                               (WifiSignalBelow (config (engine w3))))
                            (Go.float64_of_int (MinerSnapshot.WifiRSSI snap)) now []) env w3)
    as (l4 & E4 & S4 & F4); [auto|].
  change (run (when _ _) env w3) with (run (checkWifiSignal snap) env w3) in E4.
  set (w4 := run (checkWifiSignal snap) env w3) in *.
  (* pool *)
  destruct (guarded_send_kind AlertPoolDisconnected snap
              (OnPoolDisconnected (config (engine w4))
               && negb (MinerSnapshot.PoolConnected snap))
              (fun now => Alert.mk AlertPoolDisconnected (MinerSnapshot.MinerIP snap)
                            (MinerSnapshot.Hostname snap) TxtPoolDisconnected 0%float now [])
              env w4)
    as (l5 & E5 & S5 & F5); [auto|].
  change (run (when _ _) env w4) with (run (checkPoolConnection snap) env w4) in E5.
  set (w5 := run (checkPoolConnection snap) env w4) in *.
  (* best difficulty *)
  assert (exists l6, trace (run (checkNewBestDiff snap) env w5) = trace w5 ++ l6
                     /\ omap delivered_type l6 `sublist_of` [AlertNewBestDiff]
                     /\ Forall (about snap) l6) as (l6 & E6 & S6 & F6).
  { unfold checkNewBestDiff. rewrite run_get, run_seq.
    change (trace (run (modify ?f) env ?w')) with (trace w').
    destruct (OnNewBestDiff (config (engine w5)));
      [rewrite run_when_true
      |exists []; rewrite app_nil_r; repeat split; [apply sublist_nil_l|constructor]].
    destruct (lastBestDiff (engine w5) !! MinerSnapshot.MinerIP snap) as [lastBest|];
      [|exists []; rewrite app_nil_r; repeat split; [apply sublist_nil_l|constructor]].
    apply (guarded_send_kind AlertNewBestDiff snap _
             (fun now => Alert.mk AlertNewBestDiff _ _ _ _ now [])). auto. }
  exists (l1 ++ l2 ++ l3 ++ l4 ++ l5 ++ l6). split; [|split].
  - rewrite E6, E5, E4, E3, E2, E1, E0, <- !app_assoc. reflexivity.
  - rewrite !omap_app.
    change snapshot_kinds with
      ([AlertTempHigh] ++ [AlertHashrateDrop] ++ [AlertFanLow] ++ [AlertWifiWeak]
         ++ [AlertPoolDisconnected] ++ [AlertNewBestDiff]).
    repeat apply sublist_app; assumption.
  - rewrite !Forall_app. repeat split; assumption.
Qed.

(** A kind that is none of the six is not raised by [CheckSnapshot]. *)
Lemma CheckSnapshot_calm_for T snap env w :
  ~ In T snapshot_kinds ->
  calm (delivers T) (pairKey (MinerSnapshot.MinerIP snap) T) w
    (run (CheckSnapshot snap) env w).
Proof.
  intros Hn. rewrite CheckSnapshot_stages.
  assert (T <> AlertTempHigh /\ T <> AlertHashrateDrop /\ T <> AlertFanLow
          /\ T <> AlertWifiWeak /\ T <> AlertPoolDisconnected /\ T <> AlertNewBestDiff)
    as (H1 & H2 & H3 & H4 & H5 & H6)
    by (repeat split; intros ->; apply Hn; simpl; tauto).
  calm_stages.
Qed.

(** ** The stage theorems at the sample data *)

Lemma ex_seen_cooled k : cooled ex_env ex_seen k.
Proof.
  assert (E : alertCooldown (engine ex_seen) = ∅) by (vm_compute; reflexivity).
  intros last H. rewrite E, lookup_empty in H. discriminate H.
Qed.

(** X1 at the sample data: 72.5 degrees over a threshold of 65. *)
Lemma X1_witness_hot_miner :
  cooled ex_env ex_seen (pairKey "192.168.1.42" AlertTempHigh)
  /\ exists new now,
       trace (run (CheckSnapshot ex_hot) ex_env ex_seen) = trace ex_seen ++ new
       /\ filter (fun x => delivers AlertTempHigh x = true) new
          = [LogAlert (Alert.mk AlertTempHigh "192.168.1.42" "BitAxe-Ultra"
                         (TxtTemperature 72.5%float 65%float) 72.5%float now [])].
Proof.
  split; [apply ex_seen_cooled|].
  exact (X1_high_temperature_alert ex_env ex_seen ex_hot (ex_seen_cooled _)).
Defined.

(** X2 at the sample data: -78 dBm under a floor of -70. *)
Lemma X2_witness_weak_signal :
  cooled ex_env ex_seen (pairKey "192.168.1.42" AlertWifiWeak)
  /\ exists new now,
       trace (run (CheckSnapshot ex_hot) ex_env ex_seen) = trace ex_seen ++ new
       /\ filter (fun x => delivers AlertWifiWeak x = true) new
          = [LogAlert (Alert.mk AlertWifiWeak "192.168.1.42" "BitAxe-Ultra"
                         (TxtWifi (-78) (-70)) (Go.float64_of_int (-78)) now [])].
Proof.
  split; [apply ex_seen_cooled|].
  exact (X2_weak_wifi_alert ex_env ex_seen ex_hot (ex_seen_cooled _)).
Defined.

(** X3 at the sample data: the pool is reported as not connected. *)
Lemma X3_witness_pool_lost :
  cooled ex_env ex_seen (pairKey "192.168.1.42" AlertPoolDisconnected)
  /\ exists new now,
       trace (run (CheckSnapshot ex_hot) ex_env ex_seen) = trace ex_seen ++ new
       /\ filter (fun x => delivers AlertPoolDisconnected x = true) new
          = [LogAlert (Alert.mk AlertPoolDisconnected "192.168.1.42" "BitAxe-Ultra"
                         TxtPoolDisconnected 0%float now [])].
Proof.
  split; [apply ex_seen_cooled|].
  exact (X3_pool_disconnected_alert ex_env ex_seen ex_hot (ex_seen_cooled _)).
Defined.

(** X4 at the sample data: a session best of 2000 after one of 1000. *)
Lemma X4_witness_new_best :
  cooled ex_env ex_seen (pairKey "192.168.1.42" AlertNewBestDiff)
  /\ exists new now,
       trace (run (CheckSnapshot ex_hot) ex_env ex_seen) = trace ex_seen ++ new
       /\ filter (fun x => delivers AlertNewBestDiff x = true) new
          = [LogAlert (Alert.mk AlertNewBestDiff "192.168.1.42" "BitAxe-Ultra"
                         (TxtNewBestDiff 2000%float) 2000%float now [])]
       /\ lastBestDiff (engine (run (CheckSnapshot ex_hot) ex_env ex_seen)) !! "192.168.1.42"
          = Some 2000%float.
Proof.
  split; [apply ex_seen_cooled|].
  exact (X4_new_best_diff_alert ex_env ex_seen ex_hot (ex_seen_cooled _)).
Defined.

End SnapshotFacts.

Section FloatOrder.

(** ** The order of binary64 numbers *)

Lemma SFcompare_le_trans x y z :
  SFleb x y = true -> SFleb y z = true ->
  SFleb x z = true
  /\ (SFltb x y = true \/ SFltb y z = true -> SFltb x z = true).
Proof.
  unfold SFleb, SFltb.
  destruct x as [sx|sx| |sx mx ex], y as [sy|sy| |sy my ey], z as [sz|sz| |sz mz ez];
    simpl; try (intros; discriminate);
    try (destruct sx; simpl; try (intros; discriminate));
    try (destruct sy; simpl; try (intros; discriminate));
    try (destruct sz; simpl; try (intros; discriminate));
    try (intros; split; [reflexivity|intros [?|?]; congruence]).
  all: change (PosDef.Pos.compare_cont Eq) with Pos.compare.
  all: destruct (Z.compare_spec ex ey), (Z.compare_spec ey ez), (Z.compare_spec ex ez);
       try lia; simpl; try (intros; discriminate);
       try (intros; split; [reflexivity|intros [?|?]; congruence]).
  all: destruct (Pos.compare_spec mx my), (Pos.compare_spec my mz), (Pos.compare_spec mx mz);
       try lia; simpl; try (intros; discriminate);
       try (intros; split; [reflexivity|intros [?|?]; congruence]).
Qed.

Lemma leb_trans x y z :
  (x <=? y)%float = true -> (y <=? z)%float = true -> (x <=? z)%float = true.
Proof.
  rewrite !FloatAxioms.leb_spec. intros H1 H2.
  exact (proj1 (SFcompare_le_trans _ _ _ H1 H2)).
Qed.

Lemma ltb_leb x y : (x <? y)%float = true -> (x <=? y)%float = true.
Proof.
  rewrite FloatAxioms.ltb_spec, FloatAxioms.leb_spec. unfold SFltb, SFleb.
  destruct (SFcompare _ _) as [[]|]; congruence.
Qed.

Lemma leb_refl x : is_nan x = false -> (x <=? x)%float = true.
Proof.
  intros H. rewrite FloatAxioms.leb_spec. unfold SFleb.
  rewrite SFcompare_refl by exact (is_nan_false _ H). reflexivity.
Qed.

Lemma leb_not_nan_l x y : (x <=? y)%float = true -> is_nan x = false.
Proof.
  rewrite FloatAxioms.leb_spec. unfold SFleb. intros H. apply not_nan_is_nan.
  intros E. rewrite E in H. discriminate.
Qed.

Lemma leb_not_nan_r x y : (x <=? y)%float = true -> is_nan y = false.
Proof.
  rewrite FloatAxioms.leb_spec. unfold SFleb. intros H. apply not_nan_is_nan.
  intros E. rewrite E in H. destruct (Prim2SF x); discriminate.
Qed.

End FloatOrder.

Section ShareAndBlockFacts.
Import storage alerts.

(** X7.  [CheckShare] does nothing at all unless rejected-share alerts are
    on and the share was rejected; then, for a (device, share_rejected)
    pair out of cooldown, it delivers one alert that carries the share's
    difficulty and the clock reading the call starts with. *)
Theorem X7_rejected_share_alert :
  forall env w share rejected,
    let cfg := config (engine w) in
    let ip := Share.MinerIP share in
    let d := Share.Difficulty share in
    cooled env w (pairKey ip AlertShareRejected) ->
    (OnShareRejected cfg && rejected = false -> run (CheckShare share rejected) env w = w)
    /\ trace (run (CheckShare share rejected) env w)
       = trace w ++ if OnShareRejected cfg && rejected
                    then [deliver cfg (Alert.mk AlertShareRejected ip (Share.Hostname share)
                                         (TxtShareRejected d) d (clock env (ticks w)) [])]
                    else [].
Proof.
  intros env w share rejected cfg ip d Hcd.
  unfold CheckShare. rewrite run_get. fold cfg.
  destruct (OnShareRejected cfg), rejected; simpl negb; simpl orb; simpl andb;
    try (split; [intros _; reflexivity | rewrite run_ret, app_nil_r; reflexivity]).
  split; [discriminate|].
  exact (guarded_send_trace
           (fun now => Alert.mk AlertShareRejected ip (Share.Hostname share)
                         (TxtShareRejected d) d now [])
           (pairKey ip AlertShareRejected) env w (fun _ => eq_refl) Hcd).
Qed.

(** One [CheckBlock]: the engine and the clock are left alone, and the
    trace gains one block alert when the feature is on, nothing otherwise. *)
Lemma CheckBlock_step blk env w :
  exists l,
    run (CheckBlock blk) env w = mkWorld (engine w) (ticks w) (trace w ++ l)
    /\ Forall (fun x => delivers AlertBlockFound x = true) l
    /\ length l = if OnBlockFound (config (engine w)) then 1%nat else 0%nat.
Proof.
  unfold CheckBlock. rewrite run_get.
  destruct (OnBlockFound (config (engine w))); simpl negb; cbv iota.
  - destruct (String.eqb (WebhookURL (config (engine w))) "");
      (eexists; split; [reflexivity|]; split; [repeat constructor|reflexivity]).
  - exists []. rewrite app_nil_r. destruct w; repeat split. constructor.
Qed.

(** X8.  Block alerts are not deduplicated: with the feature on, a run of
    [CheckBlock] over any list of blocks delivers one block-found alert per
    block, whatever the miner and however close in time; with the feature
    off it delivers nothing.  Either way the engine, its cooldown stamps
    included, and the clock are left as they were. *)
Theorem X8_one_alert_per_block :
  forall env blocks w,
    let w' := run (forEach blocks CheckBlock) env w in
    engine w' = engine w
    /\ ticks w' = ticks w
    /\ exists new,
         trace w' = trace w ++ new
         /\ Forall (fun x => delivers AlertBlockFound x = true) new
         /\ length new = if OnBlockFound (config (engine w)) then length blocks else 0%nat.
Proof.
  intros env blocks. induction blocks as [|b bs IH]; intros w; simpl.
  - repeat split. exists []. rewrite app_nil_r.
    repeat split; [constructor | destruct (OnBlockFound _); reflexivity].
  - rewrite run_seq.
    destruct (CheckBlock_step b env w) as (l & E & F & L). rewrite E.
    destruct (IH (mkWorld (engine w) (ticks w) (trace w ++ l))) as (He & Ht & new & En & Fn & Ln).
    simpl in He, Ht, En, Ln.
    split; [exact He|]. split; [exact Ht|].
    exists (l ++ new). split; [rewrite En, app_assoc; reflexivity|].
    split; [apply Forall_app; split; assumption|].
    rewrite length_app, L, Ln. destruct (OnBlockFound _); reflexivity.
Qed.

End ShareAndBlockFacts.

Section LeaderFacts.
Import storage alerts.

(** ** The weekly leader state *)

Lemma CheckLeaderChange_engine share env w :
  OnNewLeader (config (engine w)) = true ->
  engine (run (CheckLeaderChange share) env w)
  = (let e0 := if rolled env w
               then set_weekStart (weekStartOf env (clock env (ticks w)))
                      (set_weekly 0%float "" (engine w))
               else engine w in
     if (Share.Difficulty share <=? weeklyBestDiff e0)%float then e0
     else set_weekly (Share.Difficulty share) (Share.Hostname share) e0)
  /\ ticks (run (CheckLeaderChange share) env w) = S (ticks w).
Proof.
  intros Hon. unfold rolled.
  unfold CheckLeaderChange, run, currentWeekStart, sundayMidnight, mbind, M_bind, bind,
    get, when, modify, emit, mret, M_ret, ret, time_Now.
  rewrite Hon. cbn.
  destruct (weekStart (engine w) <? weekStartOf env (clock env (ticks w))); cbn.
  - destruct (Share.Difficulty share <=? 0)%float; cbn; [split; reflexivity|].
    destruct (String.eqb (WebhookURL (config (engine w))) ""); split; reflexivity.
  - destruct (Share.Difficulty share <=? weeklyBestDiff (engine w))%float; cbn;
      [split; reflexivity|].
    destruct (String.eqb (weeklyLeader (engine w)) ""
              || String.eqb (weeklyLeader (engine w)) (Share.Hostname share));
      cbn; [split; reflexivity|].
    destruct (String.eqb (WebhookURL (config (engine w))) ""); split; reflexivity.
Qed.

Lemma CheckLeaderChange_off share env w :
  OnNewLeader (config (engine w)) = false -> run (CheckLeaderChange share) env w = w.
Proof.
  intros Hoff. unfold CheckLeaderChange. rewrite run_get, Hoff. reflexivity.
Qed.

(** X9.  Within one week the recorded weekly best is a running maximum:
    after any sequence of shares went through [CheckLeaderChange] (feature
    on, difficulties being numbers, the clock staying in the week of the
    engine), the recorded best is at least what it was and at least every
    share's difficulty, and best and leader are either what they were or
    the difficulty and the host of one of the shares. *)
Theorem X9_weekly_best_is_running_maximum :
  forall env shares w,
    OnNewLeader (config (engine w)) = true ->
    is_nan (weeklyBestDiff (engine w)) = false ->
    Forall (fun s => is_nan (Share.Difficulty s) = false) shares ->
    (forall i, weekStartOf env (clock env i) <= weekStart (engine w)) ->
    let e' := engine (run (forEach shares CheckLeaderChange) env w) in
    (weeklyBestDiff (engine w) <=? weeklyBestDiff e')%float = true
    /\ Forall (fun s => (Share.Difficulty s <=? weeklyBestDiff e')%float = true) shares
    /\ ((weeklyBestDiff e', weeklyLeader e')
        = (weeklyBestDiff (engine w), weeklyLeader (engine w))
        \/ Exists (fun s => (weeklyBestDiff e', weeklyLeader e')
                            = (Share.Difficulty s, Share.Hostname s)) shares).
Proof.
  intros env shares. induction shares as [|s ss IH]; intros w Hon Hb Hs Hweek; simpl.
  - split; [apply leb_refl; exact Hb|]. split; [constructor|]. left. reflexivity.
  - rewrite run_seq.
    destruct (CheckLeaderChange_engine s env w Hon) as [He _].
    assert (Hroll : rolled env w = false).
    { unfold rolled. apply Z.ltb_ge. apply Hweek. }
    rewrite Hroll in He. cbv zeta in He.
    inversion Hs as [|? ? Hd Hss]; subst.
    set (w1 := run (CheckLeaderChange s) env w) in *.
    destruct (Share.Difficulty s <=? weeklyBestDiff (engine w))%float eqn:E.
    + (* the share does not beat the best *)
      destruct (IH w1) as (H1 & H2 & H3);
        [rewrite He; exact Hon | rewrite He; exact Hb | exact Hss
        | rewrite He; exact Hweek |].
      rewrite He in H1, H3.
      split; [exact H1|]. split.
      * constructor; [exact (leb_trans _ _ _ E H1)|exact H2].
      * destruct H3 as [H3|H3]; [left; exact H3|right; apply Exists_cons_tl; exact H3].
    + (* the share is the new best *)
      apply leb_false_ltb in E; [|exact Hd|exact Hb].
      destruct (IH w1) as (H1 & H2 & H3);
        [rewrite He; exact Hon | rewrite He; exact Hd | exact Hss
        | rewrite He; exact Hweek |].
      rewrite He in H1, H3. simpl in H1, H3.
      split; [exact (leb_trans _ _ _ (ltb_leb _ _ E) H1)|]. split.
      * constructor; [exact H1|exact H2].
      * right. destruct H3 as [H3|H3];
          [apply Exists_cons_hd; exact H3|apply Exists_cons_tl; exact H3].
Qed.

(** X10.  The first share that [CheckLeaderChange] sees after the clock
    has entered a later week starts the week afresh: the engine's week
    start moves to the new week, the share becomes best and leader when its
    difficulty is above zero (best 0 and no leader otherwise), and no
    alert is raised, whoever led the week before. *)
Theorem X10_new_week_starts_afresh :
  forall env w share,
    OnNewLeader (config (engine w)) = true ->
    weekStart (engine w) < weekStartOf env (clock env (ticks w)) ->
    let w' := run (CheckLeaderChange share) env w in
    weekStart (engine w') = weekStartOf env (clock env (ticks w))
    /\ (weeklyBestDiff (engine w'), weeklyLeader (engine w'))
       = (if (Share.Difficulty share <=? 0)%float then (0%float, "")
          else (Share.Difficulty share, Share.Hostname share))
    /\ trace w' = trace w.
Proof.
  intros env w share Hon Hlt w'. subst w'.
  destruct (CheckLeaderChange_engine share env w Hon) as [He _].
  assert (Hroll : rolled env w = true) by (unfold rolled; apply Z.ltb_lt; exact Hlt).
  rewrite Hroll in He. cbv zeta in He.
  rewrite (CheckLeaderChange_trace share env w Hon).
  unfold week_best, week_leader. rewrite Hroll, He.
  change (weeklyBestDiff (set_weekStart _ (set_weekly 0%float "" _))) with 0%float.
  destruct (Share.Difficulty share <=? 0)%float; repeat split; reflexivity.
Qed.

(** The running maximum of the seeding loop is at least every stored best
    it has gone through. *)
Lemma seed_fold_upper store ws now ms :
  Forall (fun m => forall s, api.GetBestShareInRange store (Miner.IP m) ws now = Some s ->
                             is_nan (Share.Difficulty s) = false) ms ->
  forall acc,
    is_nan acc.1 = false ->
    let r := fold_left
               (fun '(bestDiff, leader) m =>
                  match api.GetBestShareInRange store (Miner.IP m) ws now with
                  | None => (bestDiff, leader)
                  | Some share =>
                      if (bestDiff <? Share.Difficulty share)%float
                      then (Share.Difficulty share, Share.Hostname share)
                      else (bestDiff, leader)
                  end) ms acc in
    (acc.1 <=? r.1)%float = true
    /\ Forall (fun m => forall s, api.GetBestShareInRange store (Miner.IP m) ws now = Some s ->
                                  (Share.Difficulty s <=? r.1)%float = true) ms.
Proof.
  induction 1 as [|m ms Hm Hms IH]; intros [b l] Hb; simpl.
  - split; [apply leb_refl; exact Hb|constructor].
  - destruct (api.GetBestShareInRange store (Miner.IP m) ws now) as [s|] eqn:E.
    + destruct (b <? Share.Difficulty s)%float eqn:Hlt.
      * destruct (IH (Share.Difficulty s, Share.Hostname s)) as [H1 H2];
          [exact (Hm s eq_refl)|]. simpl in H1.
        split; [exact (leb_trans _ _ _ (ltb_leb _ _ Hlt) H1)|].
        constructor; [|exact H2]. intros s' Es'.
        assert (s' = s) by congruence. subst s'. exact H1.
      * destruct (IH (b, l) Hb) as [H1 H2]. simpl in H1.
        split; [exact H1|]. constructor; [|exact H2].
        intros s' Es'. assert (s' = s) by congruence. subst s'.
        destruct (Share.Difficulty s <=? b)%float eqn:Hle.
        -- exact (leb_trans _ _ _ Hle H1).
        -- apply leb_false_ltb in Hle; [congruence|exact (Hm s eq_refl)|exact Hb].
    + destruct (IH (b, l) Hb) as [H1 H2].
      split; [exact H1|]. constructor; [|exact H2]. intros s' Es'. congruence.
Qed.

Lemma startup_upper cfg store env miners :
  let ws := weekStartOf env (clock env 1%nat) in
  let now := clock env 1%nat in
  let w0 := api.startup cfg store env in
  api.GetMiners store = Some miners ->
  Forall (fun m => forall s, api.GetBestShareInRange store (Miner.IP m) ws now = Some s ->
                             is_nan (Share.Difficulty s) = false) miners ->
  Forall (fun m => forall s,
             api.GetBestShareInRange store (Miner.IP m) ws now = Some s ->
             (Share.Difficulty s <=? weeklyBestDiff (engine w0))%float = true) miners.
Proof.
  intros ws now w0 Hms Hnum.
  subst w0. unfold api.startup, api.initWeeklyLeader. rewrite run_now.
  unfold sundayMidnight. rewrite run_bind. cbn [fst snd newWorld ticks]. rewrite Hms.
  pose proof (seed_fold_upper store ws now miners Hnum (0%float, "") eq_refl) as [_ H].
  fold ws now. cbv zeta in H.
  destruct (fold_left _ miners _) as [b l]. simpl in H.
  unfold InitWeeklyLeader, currentWeekStart, sundayMidnight, run, mbind, M_bind, bind,
    modify, when, emit, mret, M_ret, ret, time_Now. cbn.
  destruct (negb (String.eqb l "")); exact H.
Qed.

(** C1 (as amended).  With the new-leader feature on and the difficulties
    being numbers, [CheckLeaderChange] delivers at most one effect, and it
    delivers the new-weekly-leader alert exactly when the share's
    difficulty strictly exceeds the week's recorded best, a leader was
    recorded for the week, and that leader is not the share's host.  The
    first share after a restart is judged by the same rule against the
    state seeded from the store: that state holds the largest difficulty
    among the stored best shares of the week, with the host of a stored
    share of that difficulty as leader (or 0 and no leader), so an alert on
    the first share has a stored share of another host and of strictly
    smaller difficulty behind it. *)
Theorem C1_new_leader_alert_iff_exceeds_and_differs :
  forall env share,
    is_nan (Share.Difficulty share) = false ->
    (forall w,
        OnNewLeader (config (engine w)) = true ->
        is_nan (weeklyBestDiff (engine w)) = false ->
        exists new,
          trace (run (CheckLeaderChange share) env w) = trace w ++ new
          /\ (new = [] \/ new = [announce (config (engine w)) share (week_leader env w)])
          /\ (Exists (fun x => delivers AlertNewLeader x = true) new <->
              (week_best env w <? Share.Difficulty share)%float = true
              /\ week_leader env w <> ""
              /\ week_leader env w <> Share.Hostname share))
    /\ (forall cfg store,
           OnNewLeader cfg = true ->
           let w0 := api.startup cfg store env in
           let ws := weekStartOf env (clock env 1%nat) in
           let now := clock env 1%nat in
           exists new,
             trace (run (CheckLeaderChange share) env w0) = trace w0 ++ new
             /\ (Exists (fun x => delivers AlertNewLeader x = true) new <->
                 (week_best env w0 <? Share.Difficulty share)%float = true
                 /\ week_leader env w0 <> ""
                 /\ week_leader env w0 <> Share.Hostname share)
             /\ seeded store ws now (weeklyBestDiff (engine w0), weeklyLeader (engine w0))
             /\ (forall miners,
                    api.GetMiners store = Some miners ->
                    Forall (fun m => forall s,
                               api.GetBestShareInRange store (Miner.IP m) ws now = Some s ->
                               is_nan (Share.Difficulty s) = false) miners ->
                    Forall (fun m => forall s,
                               api.GetBestShareInRange store (Miner.IP m) ws now = Some s ->
                               (Share.Difficulty s <=? weeklyBestDiff (engine w0))%float = true)
                      miners)
             /\ (Exists (fun x => delivers AlertNewLeader x = true) new ->
                 exists miners m s,
                   api.GetMiners store = Some miners
                   /\ In m miners
                   /\ api.GetBestShareInRange store (Miner.IP m) ws now = Some s
                   /\ Share.Hostname s <> Share.Hostname share
                   /\ (Share.Difficulty s <? Share.Difficulty share)%float = true)).
Proof.
  intros env share Hd.
  assert (A : forall w,
             OnNewLeader (config (engine w)) = true ->
             is_nan (weeklyBestDiff (engine w)) = false ->
             exists new,
               trace (run (CheckLeaderChange share) env w) = trace w ++ new
               /\ (new = [] \/ new = [announce (config (engine w)) share (week_leader env w)])
               /\ (Exists (fun x => delivers AlertNewLeader x = true) new <->
                   (week_best env w <? Share.Difficulty share)%float = true
                   /\ week_leader env w <> ""
                   /\ week_leader env w <> Share.Hostname share)).
  { intros w Hon Hb. rewrite (CheckLeaderChange_trace share env w Hon).
    assert (Hwb : is_nan (week_best env w) = false).
    { unfold week_best. destruct (rolled env w); [reflexivity|exact Hb]. }
    pose proof (leb_false_ltb _ _ Hd Hwb) as Hcmp.
    destruct (Share.Difficulty share <=? week_best env w)%float eqn:Hle.
    - exists []. rewrite app_nil_r. split; [reflexivity|]. split; [left; reflexivity|].
      split; [intros H; inversion H|].
      intros (Hlt & _). apply Hcmp in Hlt. discriminate.
    - destruct (String.eqb_spec (week_leader env w) "") as [E1|E1]; simpl orb.
      + exists []. rewrite app_nil_r. split; [reflexivity|]. split; [left; reflexivity|].
        split; [intros H; inversion H|]. tauto.
      + destruct (String.eqb_spec (week_leader env w) (Share.Hostname share)) as [E2|E2].
        * exists []. rewrite app_nil_r. split; [reflexivity|]. split; [left; reflexivity|].
          split; [intros H; inversion H|]. tauto.
        * eexists. split; [reflexivity|]. split; [right; reflexivity|].
          split; [intros _|intros _].
          -- split; [apply Hcmp; reflexivity|]. split; assumption.
          -- apply Exists_cons_hd. apply delivers_announce. }
  split; [exact A|].
  intros cfg store Hon w0 ws now.
  destruct (startup_seeded cfg store env) as [Hcfg Hseed]. fold w0 ws now in Hcfg, Hseed.
  assert (Hb : is_nan (weeklyBestDiff (engine w0)) = false).
  { destruct Hseed as [E|(ms & m & s & _ & _ & _ & E & Hn)];
      injection E as -> _; [reflexivity|exact Hn]. }
  destruct (A w0) as (new & Htr & _ & Hiff); [rewrite Hcfg; exact Hon|exact Hb|].
  exists new. split; [exact Htr|]. split; [exact Hiff|]. split; [exact Hseed|]. split.
  - intros miners Hms Hnum. exact (startup_upper cfg store env miners Hms Hnum).
  - intros Hex. apply Hiff in Hex as (Hlt & Hne & Hdiff).
    unfold week_best, week_leader in *. destruct (rolled env w0); [congruence|].
    destruct Hseed as [E|(ms & m & s & H1 & H2 & H3 & E & Hn)]; injection E as Eb El.
    + congruence.
    + exists ms, m, s. rewrite <- Eb, <- El. repeat split; assumption.
Qed.

(** C1 at the sample restart: Supra's first share beats Ultra's stored one. *)
Lemma C1_witness_supra_takes_the_lead :
  is_nan (Share.Difficulty ex_share) = false
  /\ OnNewLeader ex_cfg = true
  /\ exists new,
       trace (run (CheckLeaderChange ex_share) ex_env (api.startup ex_cfg ex_store ex_env))
       = trace (api.startup ex_cfg ex_store ex_env) ++ new
       /\ Exists (fun x => delivers AlertNewLeader x = true) new.
Proof.
  split; [reflexivity|]. split; [reflexivity|].
  destruct (proj2 (C1_new_leader_alert_iff_exceeds_and_differs ex_env ex_share eq_refl)
              ex_cfg ex_store eq_refl) as (new & Htr & Hiff & _).
  exists new. split; [exact Htr|]. apply Hiff.
  split; [vm_compute; reflexivity|].
  split; intros H; vm_compute in H; discriminate H.
Defined.

(** Against C1 as stated: the first share after a restart does raise the
    alert when it beats the stored best of another device. *)
Lemma C1_first_share_after_restart_fires :
  OnNewLeader ex_cfg = true
  /\ trace (run (CheckLeaderChange ex_share) ex_env (api.startup ex_cfg ex_store ex_env))
     = trace (api.startup ex_cfg ex_store ex_env)
         ++ [LogNewLeader "BitAxe-Supra" "BitAxe-Ultra" 200%float].
Proof. split; vm_compute; reflexivity. Qed.

(** And it stays silent when another stored share is larger: with Ultra at
    100 and Gamma at 500 in the store, Supra's 200 is not the week's best. *)
Example first_share_below_stored_best_is_silent :
  trace (run (CheckLeaderChange ex_share) ex_env (api.startup ex_cfg ex_store_two ex_env))
  = trace (api.startup ex_cfg ex_store_two ex_env).
Proof. vm_compute. reflexivity. Qed.

(** X11.  The seeding at start-up leaves as weekly best the largest
    difficulty among the best shares of the week the store holds for its
    miners: it is at least 0 and at least every such share's difficulty,
    and it is 0 with no leader or the difficulty and host of one of them;
    a leader found is logged.  When the miners cannot be read, the engine
    stays as it was created and the failure is logged. *)
Theorem X11_seeded_best_is_stored_maximum :
  forall cfg store env,
    let ws := weekStartOf env (clock env 1%nat) in
    let now := clock env 1%nat in
    let w0 := api.startup cfg store env in
    (forall miners,
        api.GetMiners store = Some miners ->
        Forall (fun m => forall s, api.GetBestShareInRange store (Miner.IP m) ws now = Some s ->
                                   is_nan (Share.Difficulty s) = false) miners ->
        (0 <=? weeklyBestDiff (engine w0))%float = true
        /\ Forall (fun m => forall s,
                      api.GetBestShareInRange store (Miner.IP m) ws now = Some s ->
                      (Share.Difficulty s <=? weeklyBestDiff (engine w0))%float = true) miners
        /\ seeded store ws now (weeklyBestDiff (engine w0), weeklyLeader (engine w0))
        /\ trace w0 = (if String.eqb (weeklyLeader (engine w0)) "" then []
                       else [LogLeaderInit (weeklyLeader (engine w0))
                               (weeklyBestDiff (engine w0))]))
    /\ (api.GetMiners store = None ->
        engine w0 = engine (newWorld cfg env) /\ trace w0 = [LogLoadMinersFailed]).
Proof.
  intros cfg store env ws now w0. split.
  - intros miners Hms Hnum.
    pose proof (proj2 (startup_seeded cfg store env)) as Hseed. fold ws now w0 in Hseed.
    split; [|split; [|split; [exact Hseed|]]].
    3: { subst w0. unfold api.startup, api.initWeeklyLeader. rewrite run_now.
         unfold sundayMidnight. rewrite run_bind. cbn [fst snd newWorld ticks]. rewrite Hms.
         destruct (fold_left _ miners _) as [b l].
         unfold InitWeeklyLeader, currentWeekStart, sundayMidnight, run, mbind, M_bind, bind,
           modify, when, emit, mret, M_ret, ret, time_Now. cbn.
         destruct (String.eqb l "") eqn:E; cbn; rewrite E; reflexivity. }
    + subst w0. unfold api.startup, api.initWeeklyLeader. rewrite run_now.
      unfold sundayMidnight. rewrite run_bind. cbn [fst snd newWorld ticks]. rewrite Hms.
      pose proof (seed_fold_upper store ws now miners Hnum (0%float, "") eq_refl) as [H _].
      fold ws now. cbv zeta in H.
      destruct (fold_left _ miners _) as [b l]. simpl in H.
      unfold InitWeeklyLeader, currentWeekStart, sundayMidnight, run, mbind, M_bind, bind,
        modify, when, emit, mret, M_ret, ret, time_Now. cbn.
      destruct (negb (String.eqb l "")); exact H.
    + exact (startup_upper cfg store env miners Hms Hnum).
  - intros Hnone. subst w0. unfold api.startup, api.initWeeklyLeader. rewrite run_now.
    unfold sundayMidnight. rewrite run_bind. cbn [fst snd newWorld ticks]. rewrite Hnone.
    split; reflexivity.
Qed.

(** X7 at the sample data: a rejected share of Supra. *)
Lemma X7_witness_rejected_share :
  cooled ex_env ex_seen (pairKey "192.168.1.43" AlertShareRejected)
  /\ trace (run (CheckShare ex_share true) ex_env ex_seen)
     = trace ex_seen
         ++ [LogAlert (Alert.mk AlertShareRejected "192.168.1.43" "BitAxe-Supra"
                         (TxtShareRejected 200%float) 200%float
                         (clock ex_env (ticks ex_seen)) [])].
Proof.
  split; [apply ex_seen_cooled|].
  exact (proj2 (X7_rejected_share_alert ex_env ex_seen ex_share true (ex_seen_cooled _))).
Defined.

(** X9 at the sample data: Supra's share of 200, then one of 150 by Ultra. *)
Lemma X9_witness_two_shares :
  OnNewLeader (config (engine ex_world)) = true
  /\ (forall i, weekStartOf ex_env (clock ex_env i) <= weekStart (engine ex_world))
  /\ Forall (fun s => (Share.Difficulty s
                       <=? weeklyBestDiff
                             (engine (run (forEach
                                             [ex_share;
                                              Share.mk 0 "192.168.1.42" "BitAxe-Ultra" 0 0
                                                150%float "19"]
                                             CheckLeaderChange) ex_env ex_world)))%float = true)
       [ex_share; Share.mk 0 "192.168.1.42" "BitAxe-Ultra" 0 0 150%float "19"].
Proof.
  split; [reflexivity|]. split; [intros i; vm_compute; discriminate|].
  exact (proj1 (proj2 (X9_weekly_best_is_running_maximum ex_env
                         [ex_share; Share.mk 0 "192.168.1.42" "BitAxe-Ultra" 0 0 150%float "19"]
                         ex_world eq_refl eq_refl
                         ltac:(repeat constructor)
                         ltac:(intros i; vm_compute; discriminate)))).
Defined.

(** X10 at the sample data: the engine's week began at 0, the clock is in
    the week that began seven days later. *)
Lemma X10_witness_next_week :
  OnNewLeader (config (engine ex_world)) = true
  /\ weekStart (engine ex_world)
     < weekStartOf (mkEnv (clock ex_env) (fun _ => 604800 * Go.Second)) (clock ex_env 1%nat)
  /\ trace (run (CheckLeaderChange ex_share)
              (mkEnv (clock ex_env) (fun _ => 604800 * Go.Second)) ex_world)
     = trace ex_world.
Proof.
  split; [reflexivity|]. split; [reflexivity|].
  exact (proj2 (proj2 (X10_new_week_starts_afresh
                         (mkEnv (clock ex_env) (fun _ => 604800 * Go.Second))
                         ex_world ex_share eq_refl eq_refl))).
Defined.

End LeaderFacts.

Section SweepFacts.
Import storage alerts.

(** ** The offline sweep, entry by entry *)

Lemma delivers_to_deliver T ip cfg a :
  delivers_to T ip (deliver cfg a)
  = AlertType_eqb T (Alert.Type_ a) && String.eqb ip (Alert.MinerIP a).
Proof. unfold deliver. destruct (String.eqb _ _); reflexivity. Qed.

(** An entry for another address, or a disabled one, leaves the pair of
    [ip] alone. *)
Lemma checkOfflineMiner_other ip env threshold x w :
  Miner.Enabled x && String.eqb (Miner.IP x) ip = false ->
  calm (delivers_to AlertMinerOffline ip) (pairKey ip AlertMinerOffline) w
    (run (checkOfflineMiner threshold x) env w)
  /\ lastSeen (engine (run (checkOfflineMiner threshold x) env w)) = lastSeen (engine w).
Proof.
  intros Hx. unfold checkOfflineMiner.
  destruct (Miner.Enabled x); simpl negb; cbv iota; [|split; [apply calm_refl|reflexivity]].
  simpl in Hx. apply String.eqb_neq in Hx.
  rewrite run_get.
  destruct (lastSeen (engine w) !! Miner.IP x) as [seen|]; [|split; [apply calm_refl|reflexivity]].
  rewrite run_since.
  destruct (threshold <? _); [|split; [apply calm_tick|reflexivity]].
  rewrite run_when_true, run_since, run_now. split.
  - eapply calm_trans; [apply calm_tick|].
    eapply calm_trans; [apply calm_tick|].
    eapply calm_trans; [apply (calm_tick _ _ (tick (tick w)))|].
    apply calm_sendAlert. left. split.
    + rewrite cooldownKey_pairKey. simpl. intros E. apply pairKey_inj in E. tauto.
    + intros cfg. rewrite delivers_to_deliver. simpl.
      apply String.eqb_neq. congruence.
  - rewrite (keeps_sendAlert lastSeen); [reflexivity|intros; reflexivity].
Qed.

(** An enabled entry of [ip] whose stamp is stale, the pair being out of
    cooldown, is reported. *)
Lemma checkOfflineMiner_reports env threshold x seen w :
  Miner.Enabled x = true ->
  lastSeen (engine w) !! Miner.IP x = Some seen ->
  threshold < Go.Time_Sub (clock env (ticks w)) seen ->
  cooled env w (pairKey (Miner.IP x) AlertMinerOffline) ->
  exists e,
    trace (run (checkOfflineMiner threshold x) env w) = trace w ++ [e]
    /\ delivers_to AlertMinerOffline (Miner.IP x) e = true.
Proof.
  intros Hen Hseen Hstale Hcd. unfold checkOfflineMiner.
  rewrite Hen. simpl negb. cbv iota. rewrite run_get, Hseen, run_since.
  apply Z.ltb_lt in Hstale. rewrite Hstale, run_when_true, run_since.
  pose proof (guarded_send_trace
                (fun now => Alert.mk AlertMinerOffline (Miner.IP x) (Miner.Hostname x)
                              (TxtOffline (Go.Duration_Round
                                             (Go.Time_Sub (clock env (ticks (tick w))) seen)
                                             Go.Second)) 0%float now [])
                (pairKey (Miner.IP x) AlertMinerOffline) env (tick (tick w))
                (fun _ => eq_refl)) as H.
  rewrite run_when_true in H. rewrite H.
  - eexists. split; [reflexivity|].
    rewrite delivers_to_deliver. simpl. rewrite String.eqb_refl. reflexivity.
  - eapply cooled_calm; [exact Hcd|].
    eapply calm_trans; apply (calm_tick (fun _ => false)).
Qed.

Lemma sweep_appends env threshold ms w :
  Go.minDuration <= threshold ->
  exists new, trace (run (forEach ms (checkOfflineMiner threshold)) env w) = trace w ++ new.
Proof.
  intros Hthr.
  destruct (sweeping_forEach env ms threshold w Hthr ms w (fun _ H => H)
              (sweeping_refl _ _ _ _)) as [_ _ (new & E & _)].
  exists new. exact E.
Qed.

Lemma sweep_finds env threshold m seen w0 :
  Go.minDuration <= threshold ->
  Miner.Enabled m = true ->
  (forall i, (ticks w0 <= i)%nat -> threshold < Go.Time_Sub (clock env i) seen) ->
  forall ms w,
    In m ms ->
    lastSeen (engine w) !! Miner.IP m = Some seen ->
    (ticks w0 <= ticks w)%nat ->
    cooled env w (pairKey (Miner.IP m) AlertMinerOffline) ->
    exists new,
      trace (run (forEach ms (checkOfflineMiner threshold)) env w) = trace w ++ new
      /\ Exists (fun x => delivers_to AlertMinerOffline (Miner.IP m) x = true) new.
Proof.
  intros Hthr Hen Hstale ms. induction ms as [|x ms IH]; intros w Hin Hseen Ht Hcd.
  - destruct Hin.
  - simpl forEach. rewrite run_seq.
    destruct (Miner.Enabled x && String.eqb (Miner.IP x) (Miner.IP m)) eqn:Hx.
    + apply andb_prop in Hx as [Hxe Hxi]. apply String.eqb_eq in Hxi.
      destruct (checkOfflineMiner_reports env threshold x seen w) as (e & Ee & He);
        [exact Hxe | rewrite Hxi; exact Hseen | apply Hstale; exact Ht
        | rewrite Hxi; exact Hcd |].
      destruct (sweep_appends env threshold ms (run (checkOfflineMiner threshold x) env w) Hthr)
        as (new & En).
      exists (e :: new). split.
      * rewrite En, Ee, <- app_assoc. reflexivity.
      * apply Exists_cons_hd. rewrite <- Hxi. exact He.
    + destruct (checkOfflineMiner_other (Miner.IP m) env threshold x w Hx) as [Hc Hl].
      assert (Hin' : In m ms).
      { destruct Hin as [->|Hin]; [|exact Hin].
        rewrite Hen, String.eqb_refl in Hx. discriminate. }
      destruct (IH (run (checkOfflineMiner threshold x) env w)) as (new & En & Hex);
        [exact Hin' | rewrite Hl; exact Hseen
        | pose proof (calm_ticks _ _ _ _ Hc); lia
        | exact (cooled_calm _ _ _ _ _ Hcd Hc) |].
      destruct Hc as [_ _ _ (n & En' & _)].
      exists (n ++ new). split.
      * rewrite En, En', <- app_assoc. reflexivity.
      * apply Exists_app. right. exact Hex.
Qed.

(** X12.  The offline sweep reports what it should: when the setting is
    positive, an enabled miner of the list whose recorded last-seen stamp
    is older than the threshold at every clock reading of the sweep is
    given a miner-offline alert, provided its (device, miner_offline) pair
    is out of cooldown. *)
Theorem X12_stale_enabled_miner_is_reported :
  forall env w miners m seen,
    let secs := MinerOfflineSeconds (config (engine w)) in
    let threshold := Go.wrap64 (secs * Go.Second) in
    let ip := Miner.IP m in
    0 < secs ->
    In m miners ->
    Miner.Enabled m = true ->
    lastSeen (engine w) !! ip = Some seen ->
    (forall i, (ticks w <= i)%nat -> threshold < Go.Time_Sub (clock env i) seen) ->
    cooled env w (pairKey ip AlertMinerOffline) ->
    exists new,
      trace (run (CheckOffline miners) env w) = trace w ++ new
      /\ Exists (fun x => delivers_to AlertMinerOffline ip x = true) new.
Proof.
  intros env w miners m seen secs threshold ip Hpos Hin Hen Hseen Hstale Hcd.
  unfold CheckOffline. rewrite run_get. fold secs.
  destruct (Z.leb_spec secs 0) as [Hle|_]; [lia|]. fold threshold.
  apply (sweep_finds env threshold m seen w); try assumption.
  - apply wrap64_range.
  - lia.
Qed.

(** X12 at the sample data: Ultra, seen at 0, swept 1000 s later with a
    threshold of 300 s. *)
Lemma X12_witness_stale_ultra :
  0 < MinerOfflineSeconds (config (engine ex_stale))
  /\ lastSeen (engine ex_stale) !! "192.168.1.42" = Some 0
  /\ (forall i, (ticks ex_stale <= i)%nat ->
         Go.wrap64 (300 * Go.Second) < Go.Time_Sub (clock ex_slow_clock i) 0)
  /\ exists new,
       trace (run (CheckOffline [ex_miner]) ex_slow_clock ex_stale) = trace ex_stale ++ new
       /\ Exists (fun x => delivers_to AlertMinerOffline "192.168.1.42" x = true) new.
Proof.
  assert (Hstale : forall i, (ticks ex_stale <= i)%nat ->
                     Go.wrap64 (300 * Go.Second) < Go.Time_Sub (clock ex_slow_clock i) 0).
  { intros i Hi. change (ticks ex_stale) with 1%nat in Hi.
    change (Go.wrap64 (300 * Go.Second)) with 300000000000.
    unfold Go.Time_Sub, Go.maxDuration, Go.minDuration, Go.MaxInt64, Go.MinInt64.
    change (clock ex_slow_clock i) with (Z.of_nat i * 1000000000000).
    destruct (_ <? _); [lia|]. destruct (_ <? _) eqn:E; [apply Z.ltb_lt in E; lia|lia]. }
  split; [reflexivity|]. split; [reflexivity|]. split; [exact Hstale|].
  apply (X12_stale_enabled_miner_is_reported ex_slow_clock ex_stale [ex_miner] ex_miner 0);
    [reflexivity | left; reflexivity | reflexivity | reflexivity | exact Hstale |].
  intros last H. vm_compute in H. discriminate H.
Defined.

End SweepFacts.

Section ForwardingFacts.
Import storage alerts api.

(** ** What the forwarding loop hands to the alert engine *)

Lemma delivers_unique T T' x :
  delivers T x = true -> delivers T' x = true -> T = T'.
Proof.
  unfold delivers. destruct (delivered_type x) as [U|]; [|discriminate].
  intros H H'. apply AlertType_eqb_eq in H, H'. congruence.
Qed.

Lemma initWeeklyLeader_trace store env w :
  exists l,
    trace (run (initWeeklyLeader store) env w) = trace w ++ l
    /\ Forall (fun x => delivered_type x = None) l.
Proof.
  unfold initWeeklyLeader. rewrite run_now. unfold sundayMidnight. rewrite run_bind.
  cbn [fst snd ticks].
  destruct (GetMiners store) as [miners|].
  - destruct (fold_left _ miners _) as [b l].
    unfold InitWeeklyLeader, currentWeekStart, sundayMidnight, run, mbind, M_bind, bind,
      modify, when, emit, mret, M_ret, ret, time_Now. cbn.
    destruct (negb (String.eqb l "")).
    + eexists. split; [reflexivity|]. repeat constructor.
    + exists []. rewrite app_nil_r. split; [reflexivity|constructor].
  - exists [LogLoadMinersFailed]. split; [reflexivity|]. repeat constructor.
Qed.

Lemma delivers_other T T' x :
  T <> T' -> delivers T' x = true -> delivers T x = false.
Proof.
  intros Hne H'. destruct (delivers T x) eqn:E; [|reflexivity].
  exfalso. apply Hne. exact (delivers_unique _ _ _ E H').
Qed.

(** One turn of the loop raises no alert of a kind that is neither one of
    the six snapshot kinds nor block-found nor new-leader, and leaves the
    hub's clients alone. *)
Lemma Broadcast_clients msg h h' :
  Broadcast msg h = Go.Proceeds h' -> clients h' = clients h.
Proof.
  unfold Broadcast, Go.select_send. destruct (Go.send msg (broadcast h));
    intros E; inversion E; reflexivity.
Qed.

Lemma hubBroadcast_keeps msg s s' :
  hubBroadcast msg s = Go.Proceeds s' ->
  clients (hub s') = clients (hub s) /\ alertEngine s' = alertEngine s.
Proof.
  unfold hubBroadcast. destruct (Broadcast msg (hub s)) as [h'| |] eqn:E;
    intros E'; inversion E'. simpl. split; [exact (Broadcast_clients _ _ _ E)|reflexivity].
Qed.

(** What the three checks of the loop add to the trace. *)
Lemma loop_check_quiet T env w (check : M unit) :
  ~ In T snapshot_kinds -> T <> AlertBlockFound -> T <> AlertNewLeader ->
  (exists share, check = CheckLeaderChange share)
  \/ (exists snap, check = CheckSnapshot snap)
  \/ (exists blk, check = CheckBlock blk) ->
  exists new,
    trace (run check env w) = trace w ++ new
    /\ Forall (fun x => delivers T x = false) new.
Proof.
  intros Hsnap Hblock Hleader [(share & ->)|[(snap & ->)|(blk & ->)]].
  - (* a share: the leader check *)
    destruct (OnNewLeader (config (engine w))) eqn:Hon.
    + exists (if (Share.Difficulty share <=? week_best env w)%float then []
              else if String.eqb (week_leader env w) ""
                      || String.eqb (week_leader env w) (Share.Hostname share)
                   then []
                   else [announce (config (engine w)) share (week_leader env w)]).
      rewrite (CheckLeaderChange_trace share env w Hon).
      destruct (_ <=? _)%float; [rewrite app_nil_r; split; [reflexivity|constructor]|].
      destruct (_ || _); [rewrite app_nil_r; split; [reflexivity|constructor]|].
      split; [reflexivity|]. repeat constructor.
      apply (delivers_other _ AlertNewLeader); [exact Hleader|apply delivers_announce].
    + exists []. rewrite (CheckLeaderChange_off share env w Hon), app_nil_r.
      split; [reflexivity|constructor].
  - (* a snapshot *)
    destruct (CheckSnapshot_calm_for T snap env w Hsnap) as [_ _ _ (new & En & Fn)].
    exists new. split; [exact En|exact Fn].
  - (* a block *)
    destruct (CheckBlock_step blk env w) as (l & E & F & _).
    exists l. rewrite E. split; [reflexivity|].
    eapply Forall_impl; [exact F|]. intros x Hx. simpl in Hx.
    exact (delivers_other _ AlertBlockFound _ Hblock Hx).
Qed.

(** One turn of the loop raises no alert of a kind that is neither one of
    the six snapshot kinds nor block-found nor new-leader, and leaves the
    hub's clients alone. *)
Lemma forwardEvent_quiet T env r s w :
  ~ In T snapshot_kinds -> T <> AlertBlockFound -> T <> AlertNewLeader ->
  alertEngine s = Some w ->
  let s' := turn_server (forwardEvent env r s) in
  clients (hub s') = clients (hub s)
  /\ exists w' new,
       alertEngine s' = Some w'
       /\ trace w' = trace w ++ new
       /\ Forall (fun x => delivers T x = false) new.
Proof.
  intros Hsnap Hblock Hleader Hw.
  assert (Hnone : clients (hub s) = clients (hub s)
                  /\ exists w' new,
                       alertEngine s = Some w'
                       /\ trace w' = trace w ++ new
                       /\ Forall (fun x => delivers T x = false) new).
  { split; [reflexivity|]. exists w, []. rewrite app_nil_r.
    split; [exact Hw|]. split; [reflexivity|constructor]. }
  assert (Hcheck : forall check s0,
             (exists share, check = CheckLeaderChange share)
             \/ (exists snap, check = CheckSnapshot snap)
             \/ (exists blk, check = CheckBlock blk) ->
             clients (hub s0) = clients (hub s) -> alertEngine s0 = Some w ->
             clients (hub (withAlerts check env s0)) = clients (hub s)
             /\ exists w' new,
                  alertEngine (withAlerts check env s0) = Some w'
                  /\ trace w' = trace w ++ new
                  /\ Forall (fun x => delivers T x = false) new).
  { intros check s0 Hk Hc H0. unfold withAlerts. cbn [hub alertEngine]. rewrite H0.
    split; [exact Hc|].
    destruct (loop_check_quiet T env w check Hsnap Hblock Hleader Hk) as (new & E & F).
    exists (run check env w), new. split; [reflexivity|]. split; [exact E|exact F]. }
  destruct r as [share|snap|blk|]; cbn [forwardEvent]; cbv zeta.
  - destruct (hubBroadcast _ s) as [s1| |] eqn:Eb; cbn [turn_server]; try exact Hnone.
    destruct (hubBroadcast_keeps _ _ _ Eb) as [Hc He].
    apply Hcheck; [left; eauto|exact Hc|congruence].
  - destruct (Hcheck (CheckSnapshot snap) s (or_intror (or_introl (ex_intro _ snap eq_refl)))
                eq_refl Hw) as (Hc1 & w1 & n1 & E1 & T1 & F1).
    destruct (hubBroadcast _ (withAlerts (CheckSnapshot snap) env s)) as [s2| |] eqn:Eb;
      cbn [turn_server]; try (split; [exact Hc1|]; exists w1, n1; repeat split; assumption).
    destruct (hubBroadcast_keeps _ _ _ Eb) as [Hc He].
    split; [congruence|]. exists w1, n1. split; [congruence|]. split; assumption.
  - destruct (hubBroadcast _ (logPrintf _ s)) as [s2| |] eqn:Eb; cbn [turn_server];
      try exact Hnone.
    destruct (hubBroadcast_keeps _ _ _ Eb) as [Hc He]. cbn [logPrintf hub alertEngine] in Hc, He.
    apply Hcheck; [right; right; eauto|exact Hc|congruence].
  - exact Hnone.
Qed.

(** X13.  The forwarding loop never raises a miner-offline or a
    rejected-share alert: whatever the collector sends, the effects the
    alert engine produces from start-up on are seeding log lines and alerts
    of the six snapshot kinds, block-found and new-leader.  The loop also
    leaves the hub's client set alone and keeps the engine it was given. *)
Theorem X13_pipeline_never_raises_offline_or_rejected :
  forall env store rs h w0 lg,
    let s' := forwardEvents env store rs (mkServer h (Some w0) lg) in
    clients (hub s') = clients h
    /\ exists w' new,
         alertEngine s' = Some w'
         /\ trace w' = trace w0 ++ new
         /\ Forall (fun x => delivers AlertMinerOffline x = false
                             /\ delivers AlertShareRejected x = false) new.
Proof.
  intros env store rs h w0 lg. unfold forwardEvents, withAlerts. simpl.
  destruct (initWeeklyLeader_trace store env w0) as (l0 & E0 & F0).
  set (w1 := run (initWeeklyLeader store) env w0) in *.
  assert (Hloop : forall rs s w,
             alertEngine s = Some w ->
             clients (hub (forwardLoop env rs s)) = clients (hub s)
             /\ exists w' new,
                  alertEngine (forwardLoop env rs s) = Some w'
                  /\ trace w' = trace w ++ new
                  /\ Forall (fun x => delivers AlertMinerOffline x = false
                                      /\ delivers AlertShareRejected x = false) new).
  { clear. intros rs. induction rs as [|r rs IH]; intros s w Hw; simpl.
    - split; [reflexivity|]. exists w, []. rewrite app_nil_r. repeat split; [exact Hw|constructor].
    - destruct (forwardEvent_quiet AlertMinerOffline env r s w)
        as (Hc & w1 & n1 & E1 & T1 & F1);
        [simpl; intuition discriminate | discriminate | discriminate | exact Hw |].
      destruct (forwardEvent_quiet AlertShareRejected env r s w)
        as (_ & w1' & n1' & E1' & T1' & F1');
        [simpl; intuition discriminate | discriminate | discriminate | exact Hw |].
      assert (w1' = w1) by congruence. subst w1'.
      assert (n1' = n1) by (rewrite T1 in T1'; exact (eq_sym (app_inv_head _ _ _ T1'))).
      subst n1'.
      assert (F : Forall (fun x => delivers AlertMinerOffline x = false
                                   /\ delivers AlertShareRejected x = false) n1).
      { rewrite Forall_forall in F1, F1'. apply Forall_forall. intros x Hx. split; auto. }
      destruct (forwardEvent env r s) as [s1|s1]; cbn [turn_server] in *.
      + destruct (IH s1 w1 E1) as (Hc2 & w2 & n2 & E2 & T2 & F2).
        split; [congruence|].
        exists w2, (n1 ++ n2). split; [exact E2|]. split; [rewrite T2, T1, app_assoc; reflexivity|].
        apply Forall_app. split; [exact F|exact F2].
      + split; [exact Hc|]. exists w1, n1. split; [exact E1|]. split; [exact T1|exact F]. }
  destruct (Hloop rs (mkServer h (Some w1) lg) w1 eq_refl) as (Hc & w' & new & E & T & F).
  split; [exact Hc|].
  exists w', (l0 ++ new). split; [exact E|]. split; [rewrite T, E0, app_assoc; reflexivity|].
  apply Forall_app. split; [|exact F].
  eapply Forall_impl; [exact F0|]. intros x Hx. simpl in Hx.
  unfold delivers. rewrite Hx. split; reflexivity.
Qed.

End ForwardingFacts.

Section BlockParserFacts.
Import storage regexp collector.

(** ** The block pattern on a block line *)

Lemma space_not_digit_or_dot x : in_class Space x = true -> in_class DigitOrDot x = false.
Proof. by_cases_on_byte x. Qed.

Lemma match_block sp1 diff sp2 sp3 net tail :
  sp1 <> [] -> all_in Space sp1 = true ->
  diff <> [] -> all_in DigitOrDot diff = true ->
  all_in Space sp2 = true ->
  all_in Space sp3 = true ->
  net <> [] -> all_in DigitOrDot net = true ->
  stops DigitOrDot tail = true ->
  match_here blockRegex
    (bytes "FOUND BLOCK!!!" ++ sp1 ++ diff ++ sp2 ++ bytes ">" ++ sp3 ++ net ++ tail)
  = Some (tail, [diff; net]).
Proof.
  intros Hsp1 Asp1 Hdiff Adiff Asp2 Asp3 Hnet Anet Htail.
  unfold blockRegex, lit. rewrite match_lit.
  apply match_plus; [exact Hsp1 | exact Asp1
                    | exact (stops_after _ _ _ _ digit_or_dot_not_space Hdiff Adiff) |].
  apply match_group; [exact Hdiff | exact Adiff | |].
  { destruct sp2 as [|x sp2]; [reflexivity|].
    simpl in Asp2. apply andb_prop in Asp2 as [Hx _].
    change (negb (in_class DigitOrDot x) = true).
    rewrite (space_not_digit_or_dot _ Hx). reflexivity. }
  apply match_star; [exact Asp2 | reflexivity |].
  rewrite match_lit.
  apply match_star; [exact Asp3
                    | exact (stops_after _ _ _ _ digit_or_dot_not_space Hnet Anet) |].
  apply match_group; [exact Hnet | exact Anet | exact Htail | reflexivity].
Qed.

(** X14.  A well-formed block line, [FOUND BLOCK!!!] followed by the share
    difficulty, [>] and the network difficulty, yields a block with those
    two difficulties (each the binary64 nearest to the decimal written,
    within half a unit in the last place of it), the address it was read
    from and the time of the reading, every other field zero.  A line
    without the tag yields no block. *)
Theorem X14_block_line_yields_its_difficulties :
  (forall now minerIP l,
      bl_wf l = true ->
      exists difficulty networkDiff,
        BlockParser_Parse now minerIP (bl_text l)
        = Some (Block.mk minerIP "" now difficulty networkDiff
                  "" "" 0%float 0%float 0%float)
        /\ difficulty = Go.float64_of_ratio (decimal_num (bytes (bl_diff l)))
                          (decimal_den (bytes (bl_diff l)))
        /\ networkDiff = Go.float64_of_ratio (decimal_num (bytes (bl_net l)))
                           (decimal_den (bytes (bl_net l)))
        /\ within_half_ulp (decimal_num (bytes (bl_diff l))) (decimal_den (bytes (bl_diff l)))
             (Prim2SF difficulty) = true
        /\ within_half_ulp (decimal_num (bytes (bl_net l))) (decimal_den (bytes (bl_net l)))
             (Prim2SF networkDiff) = true)
  /\ (forall now minerIP line,
         index (bytes "FOUND BLOCK!!!") (bytes line) = None ->
         BlockParser_Parse now minerIP line = None).
Proof.
  split.
  - intros now minerIP l H. split_wf H.
    apply first_at_true in H.
    apply nonempty_true in W9, W7, W2.
    assert (Htext : bytes (bl_text l) =
              bytes (bl_prefix l) ++
              (bytes "FOUND BLOCK!!!" ++ bytes (bl_sp1 l) ++ bytes (bl_diff l)
                 ++ bytes (bl_sp2 l) ++ bytes ">" ++ bytes (bl_sp3 l)
                 ++ bytes (bl_net l) ++ bytes (bl_tail l))).
    { unfold bl_text. rewrite !bytes_app. reflexivity. }
    unfold BlockParser_Parse.
    rewrite (FindStringSubmatch_at blockRegex _ _ _ _ _ Htext
               ltac:(intros p Hp; rewrite <- Htext; unfold blockRegex, lit;
                     apply match_lit_absent; exact (index_Some_before _ _ _ H p Hp))
               (match_block _ _ _ _ _ _ W9 W8 W7 W6 W4 W3 W2 W1 W)).
    unfold submatch. cbn [map nth].
    rewrite !string_of_bytes.
    exists (strconv.ParseFloat (bl_diff l)), (strconv.ParseFloat (bl_net l)).
    split; [reflexivity|].
    split; [exact (ParseFloat_written _ W5)|].
    split; [exact (ParseFloat_written _ W0)|].
    split; [exact (ParseFloat_nearest _ W5)|exact (ParseFloat_nearest _ W0)].
  - intros now minerIP line H. unfold BlockParser_Parse.
    rewrite (FindStringSubmatch_absent blockRegex line (bytes "FOUND BLOCK!!!"));
      [reflexivity | left; reflexivity | exact H].
Qed.

(** X14 at the line of the parser's test: 1234567890/10 over 1230000/10. *)
Lemma X14_witness_test_line :
  bl_wf ex_block_line = true
  /\ (exists difficulty networkDiff,
        BlockParser_Parse 7 "192.168.1.100" (bl_text ex_block_line)
        = Some (Block.mk "192.168.1.100" "" 7 difficulty networkDiff
                  "" "" 0%float 0%float 0%float)
        /\ difficulty = Go.float64_of_ratio (decimal_num (bytes (bl_diff ex_block_line)))
                          (decimal_den (bytes (bl_diff ex_block_line)))
        /\ networkDiff = Go.float64_of_ratio (decimal_num (bytes (bl_net ex_block_line)))
                           (decimal_den (bytes (bl_net ex_block_line)))
        /\ within_half_ulp (decimal_num (bytes (bl_diff ex_block_line)))
             (decimal_den (bytes (bl_diff ex_block_line))) (Prim2SF difficulty) = true
        /\ within_half_ulp (decimal_num (bytes (bl_net ex_block_line)))
             (decimal_den (bytes (bl_net ex_block_line))) (Prim2SF networkDiff) = true)
  /\ (decimal_num (bytes (bl_diff ex_block_line)), decimal_den (bytes (bl_diff ex_block_line)))
     = (1234567890, 10)
  /\ (decimal_num (bytes (bl_net ex_block_line)), decimal_den (bytes (bl_net ex_block_line)))
     = (1230000, 10)
  /\ BlockParser_Parse 7 "192.168.1.100" (bl_text ex_block_line)
     = Some (Block.mk "192.168.1.100" "" 7 123456789%float 123000%float "" ""
               0%float 0%float 0%float).
Proof.
  split; [vm_compute; reflexivity|].
  split; [exact (proj1 X14_block_line_yields_its_difficulties 7 "192.168.1.100"
                   ex_block_line ltac:(vm_compute; reflexivity))|].
  repeat split; vm_compute; reflexivity.
Defined.

(** The test line read in full: 123456789.0 over 123000.0. *)
Example BlockParser_test_line :
  BlockParser_Parse 7 "192.168.1.100"
    "I (12345) STRATUM_MANAGER: FOUND BLOCK!!! 123456789.0 > 123000.0"
  = Some (Block.mk "192.168.1.100" "" 7 123456789%float 123000%float "" ""
            0%float 0%float 0%float).
Proof. vm_compute. reflexivity. Qed.

End BlockParserFacts.

Section ParsedValueFacts.
Import storage regexp collector.

(** ** Rounding a non-negative number gives a non-negative number *)

Lemma shr_1_nonneg mrs : 0 <= shr_m mrs -> 0 <= shr_m (shr_1 mrs).
Proof.
  destruct mrs as [m r s]. simpl. destruct m as [|p|p]; simpl; try lia.
  - destruct p; simpl; lia.
Qed.

Lemma iter_pos_shr_1_nonneg p : forall mrs, 0 <= shr_m mrs -> 0 <= shr_m (SpecFloat.iter_pos shr_1 p mrs).
Proof.
  induction p as [p IH|p IH|]; intros mrs H; simpl.
  - apply IH, IH, shr_1_nonneg, H.
  - apply IH, IH, H.
  - apply shr_1_nonneg, H.
Qed.

Lemma shr_fexp_nonneg m e l :
  0 <= m -> 0 <= shr_m (fst (shr_fexp prec emax m e l)).
Proof.
  intros H. unfold shr_fexp, shr.
  assert (H0 : 0 <= shr_m (shr_record_of_loc m l)) by (destruct l as [|[]]; exact H).
  destruct (_ - e) as [|p|p]; simpl; try exact H0.
  apply iter_pos_shr_1_nonneg, H0.
Qed.

Lemma round_nearest_even_nonneg m l : 0 <= m -> 0 <= round_nearest_even m l.
Proof.
  intros H. unfold round_nearest_even. destruct l as [|[]]; try lia.
  destruct (Z.even m); lia.
Qed.

Lemma binary_round_aux_nonneg mx ex lx :
  0 <= mx -> nonneg_sf (binary_round_aux prec emax false mx ex lx) = true.
Proof.
  intros H. unfold binary_round_aux.
  pose proof (shr_fexp_nonneg mx ex lx H) as H1.
  destruct (shr_fexp prec emax mx ex lx) as [mrs' e']. simpl in H1.
  pose proof (shr_fexp_nonneg _ e' loc_Exact
                (round_nearest_even_nonneg _ (loc_of_shr_record mrs') H1)) as H2.
  destruct (shr_fexp prec emax _ e' loc_Exact) as [mrs'' e'']. simpl in H2.
  destruct (shr_m mrs'') as [|m|m]; [reflexivity| |lia].
  destruct (e'' <=? _); reflexivity.
Qed.

Lemma binary_round_nonneg m e : nonneg_sf (binary_round prec emax false m e) = true.
Proof.
  unfold binary_round. destruct (shl_align _ _ _) as [mz ez].
  apply binary_round_aux_nonneg. lia.
Qed.

Lemma binary_normalize_nonneg m e :
  0 <= m -> nonneg_sf (binary_normalize prec emax m e false) = true.
Proof.
  intros H. destruct m as [|p|p]; simpl; [reflexivity|apply binary_round_nonneg|lia].
Qed.

Lemma SFldexp_nonneg x e : nonneg_sf x = true -> nonneg_sf (SFldexp prec emax x e) = true.
Proof.
  destruct x as [[]|[]| |[] m ex]; simpl; try discriminate; try reflexivity.
  intros _. apply binary_round_nonneg.
Qed.

Lemma SF2Prim_nonneg x : nonneg_sf x = true -> nonneg_sf (Prim2SF (SF2Prim x)) = true.
Proof.
  destruct x as [[]|[]| |[] m e]; simpl; try discriminate; try reflexivity.
  intros _. rewrite Z_ldexp_spec, of_uint63_spec.
  apply SFldexp_nonneg, binary_normalize_nonneg.
  exact (proj1 (Uint63.to_Z_bounded (Uint63.of_Z (Z.pos m)))).
Qed.

Lemma nonneg_leb v : nonneg_sf (Prim2SF v) = true -> (0 <=? v)%float = true.
Proof.
  rewrite FloatAxioms.leb_spec. change (Prim2SF 0) with (S754_zero false).
  destruct (Prim2SF v) as [[]|[]| |[] m e]; simpl; try discriminate; reflexivity.
Qed.

Lemma float64_of_ratio_nonneg n d :
  0 <= n -> 0 < d -> (0 <=? Go.float64_of_ratio n d)%float = true.
Proof.
  intros Hn Hd. apply nonneg_leb. unfold Go.float64_of_ratio.
  destruct (SFdiv_core_binary prec emax n 0 d 0) as [[q e] l] eqn:E.
  apply SF2Prim_nonneg, binary_round_aux_nonneg.
  unfold SFdiv_core_binary in E.
  set (s := _ - _ - Z.min _ _) in E.
  set (m' := match s with Z.pos _ => Z.shiftl n s | 0 => n | Z.neg _ => 0 end) in E.
  assert (Hm : 0 <= m').
  { subst m'. destruct s; try lia. apply Z.shiftl_nonneg. exact Hn. }
  pose proof (Z_div_mod m' d ltac:(lia)) as Hdm.
  destruct (Z.div_eucl m' d) as [q' r']. injection E as <- _ _.
  destruct Hdm as [Hq Hr]. nia.
Qed.

Lemma digit_value_nonneg a : is_digit a = true -> 0 <= strconv.digit_value a.
Proof.
  unfold is_digit, strconv.digit_value. intros H. apply andb_prop in H as [H _].
  apply N.leb_le in H. lia.
Qed.

Lemma scan_decimal_nonneg s :
  forall sawdot mant frac sawdigits m f,
    strconv.scan_decimal s sawdot mant frac sawdigits = Some (m, f) ->
    0 <= mant -> 0 <= frac -> 0 <= m /\ 0 <= f.
Proof.
  induction s as [|a s IH]; intros sawdot mant frac sawdigits m f H Hm Hf; simpl in H.
  - destruct sawdigits; [|discriminate]. injection H as <- <-. split; assumption.
  - destruct (is_digit a) eqn:Ha.
    + apply IH in H; [exact H| |destruct sawdot; lia].
      pose proof (digit_value_nonneg a Ha). lia.
    + destruct (Ascii.eqb a "."); [|discriminate].
      destruct sawdot; [discriminate|]. apply IH in H; assumption.
Qed.

(** Whatever the text, [ParseFloat] gives a number that is not negative. *)
Lemma ParseFloat_nonneg s : (0 <=? strconv.ParseFloat s)%float = true.
Proof.
  unfold strconv.ParseFloat.
  destruct (strconv.scan_decimal _ _ _ _ _) as [[m f]|] eqn:E; [|reflexivity].
  apply scan_decimal_nonneg in E as [Hm Hf]; try lia.
  apply float64_of_ratio_nonneg; [exact Hm|]. apply Z.pow_pos_nonneg; lia.
Qed.

Lemma decimal_nonneg ds :
  forallb is_digit ds = true -> forall n, 0 <= n ->
  0 <= fold_left (fun n a => 10 * n + strconv.digit_value a) ds n.
Proof.
  induction ds as [|a ds IH]; intros H n Hn; simpl; [exact Hn|].
  simpl in H. apply andb_prop in H as [Ha Hds].
  apply IH; [exact Hds|]. pose proof (digit_value_nonneg a Ha). lia.
Qed.

(** [Atoi] of a captured group of digits is an index that fits an [int]. *)
Lemma Atoi_captured g :
  captured Digit g -> 0 <= strconv.Atoi (string_of_list_ascii g) <= Go.MaxInt64.
Proof.
  intros [Hne Hall]. unfold strconv.Atoi. rewrite list_ascii_of_string_of_list_ascii.
  destruct g as [|a g]; [congruence|].
  assert (Hd : forallb is_digit (a :: g) = true) by exact Hall.
  assert (Ha : is_digit a = true) by (simpl in Hd; apply andb_prop in Hd as [Ha _]; exact Ha).
  assert (Hm : Ascii.eqb a "-" = false) by (revert Ha; by_cases_on_byte a).
  assert (Hp : Ascii.eqb a "+" = false) by (revert Ha; by_cases_on_byte a).
  rewrite Hm, Hp, Hd.
  pose proof (decimal_nonneg (a :: g) Hd 0 ltac:(lia)) as Hn.
  fold (strconv.decimal (a :: g)) in Hn.
  destruct (Z.ltb_spec Go.MaxInt64 (strconv.decimal (a :: g))); [|lia].
  unfold Go.MaxInt64. lia.
Qed.

(** ** What a match captures *)

Lemma match_here_classes re :
  forall s rest gs, match_here re s = Some (rest, gs) ->
                    Forall2 captured (group_classes re) gs.
Proof.
  induction re as [|it re IH]; intros s rest gs H; simpl in H.
  - injection H as _ <-. constructor.
  - destruct it as [l0|c0|c0|c0]; simpl.
    + destruct (strip_prefix l0 s); [eauto|discriminate].
    + apply try_down_Some in H as (k & _ & H). eauto.
    + apply try_down_Some in H as (k & _ & H). eauto.
    + apply try_down_Some in H as (k & Hk & H).
      destruct (match_here re (drop k s)) as [[rest' gs']|] eqn:E; [|discriminate].
      injection H as _ <-. constructor; [|eauto].
      split; [|apply span_take; lia].
      pose proof (span_le c0 s). intros E0.
      apply (f_equal length) in E0. rewrite length_take in E0. simpl in E0. lia.
Qed.

Lemma FindStringSubmatch_classes re line matches :
  FindStringSubmatch re line = Some matches ->
  exists whole gs,
    matches = map string_of_list_ascii (whole :: gs)
    /\ Forall2 captured (group_classes re) gs.
Proof.
  unfold FindStringSubmatch. destruct (find re (bytes line)) as [ms|] eqn:E; [|discriminate].
  intros [= <-]. revert E. generalize (bytes line). intros s.
  induction s as [|x s IH]; simpl.
  - destruct (match_here re []) as [[rest gs]|] eqn:E; [|discriminate].
    intros [= <-]. eexists _, gs. split; [reflexivity|]. exact (match_here_classes _ _ _ _ E).
  - destruct (match_here re (x :: s)) as [[rest gs]|] eqn:E; [|exact IH].
    intros [= <-]. eexists _, gs. split; [reflexivity|]. exact (match_here_classes _ _ _ _ E).
Qed.

End ParsedValueFacts.

Section ParsedRecordFacts.
Import storage regexp collector.

Lemma captured_hex c g :
  captured c g -> c = Digit \/ c = HexDigit -> captured HexDigit g.
Proof.
  intros [Hne Hall] [->| ->]; split; try assumption.
  unfold all_in in *. rewrite forallb_forall in *. intros x Hx.
  apply digit_is_hex. exact (Hall x Hx).
Qed.

(** What [Parse] builds from the three groups of either pattern. *)
Lemma share_of_groups c1 whole g1 g2 g3 :
  captured c1 g1 -> c1 = Digit \/ c1 = HexDigit -> captured Digit g2 ->
  let matches := map string_of_list_ascii (whole :: [g1; g2; g3]) in
  0 <= strconv.Atoi (submatch matches 2) <= Go.MaxInt64
  /\ captured HexDigit (bytes (submatch matches 1)).
Proof.
  intros H1 Hc H2 matches. unfold matches, submatch. simpl nth. split.
  - apply Atoi_captured. exact H2.
  - rewrite list_ascii_of_string_of_list_ascii. exact (captured_hex _ _ H1 Hc).
Qed.

(** X15.  Every share the share parser returns is well formed: it carries
    the device address and the clock reading the parser was given, no
    hostname and no row id; its ASIC index lies between 0 and the largest
    [int]; its difficulty is a number that is not negative (never NaN);
    and its job id is a non-empty string of hexadecimal digits. *)
Theorem X15_parsed_share_is_well_formed :
  forall now minerIP line share,
    Parse now minerIP line = Some share ->
    Share.MinerIP share = minerIP
    /\ Share.Timestamp share = now
    /\ Share.ID share = 0
    /\ Share.Hostname share = ""
    /\ 0 <= Share.AsicNum share <= Go.MaxInt64
    /\ (0 <=? Share.Difficulty share)%float = true
    /\ captured HexDigit (bytes (Share.JobID share)).
Proof.
  intros now minerIP line share. unfold Parse.
  destruct (FindStringSubmatch shareRegexNerdQAxe line) as [ms|] eqn:E1.
  - apply FindStringSubmatch_classes in E1 as (whole & gs & -> & Hgs).
    simpl in Hgs.
    inversion Hgs as [|? g1 ? gs1 H1 Hgs1]; subst.
    inversion Hgs1 as [|? g2 ? gs2 H2 Hgs2]; subst.
    inversion Hgs2 as [|? g3 ? gs3 H3 Hgs3]; subst.
    inversion Hgs3; subst.
    intros [= <-]. cbn [Share.MinerIP Share.Timestamp Share.ID Share.Hostname
                        Share.AsicNum Share.Difficulty Share.JobID].
    destruct (share_of_groups Digit whole g1 g2 g3 H1 (or_introl eq_refl) H2) as [Ha Hj].
    repeat split; try reflexivity; try apply Ha; try apply Hj.
    apply ParseFloat_nonneg.
  - destruct (FindStringSubmatch shareRegexAxeOS line) as [ms|] eqn:E2; [|discriminate].
    apply FindStringSubmatch_classes in E2 as (whole & gs & -> & Hgs).
    simpl in Hgs.
    inversion Hgs as [|? g1 ? gs1 H1 Hgs1]; subst.
    inversion Hgs1 as [|? g2 ? gs2 H2 Hgs2]; subst.
    inversion Hgs2 as [|? g3 ? gs3 H3 Hgs3]; subst.
    inversion Hgs3; subst.
    intros [= <-]. cbn [Share.MinerIP Share.Timestamp Share.ID Share.Hostname
                        Share.AsicNum Share.Difficulty Share.JobID].
    destruct (share_of_groups HexDigit whole g1 g2 g3 H1 (or_intror eq_refl) H2) as [Ha Hj].
    repeat split; try reflexivity; try apply Ha; try apply Hj.
    apply ParseFloat_nonneg.
Qed.

Lemma X15_witness_nerdqaxe_line :
  exists share,
    Parse 7 "192.168.1.42" (nq_text ex_nerdqaxe) = Some share
    /\ 0 <= Share.AsicNum share <= Go.MaxInt64
    /\ (0 <=? Share.Difficulty share)%float = true
    /\ captured HexDigit (bytes (Share.JobID share)).
Proof.
  eexists. split; [vm_compute; reflexivity|].
  apply (X15_parsed_share_is_well_formed 7 "192.168.1.42" (nq_text ex_nerdqaxe)).
  vm_compute. reflexivity.
Defined.

End ParsedRecordFacts.
